(** * Kerala map dashboard: the CSV ingestion core

    A shallow embedding of the CSV parser utility ([parseCSV], [parseCSVLine]
    and the field normalizers) and of the data loading manager
    ([DataLoadingManager.loadCSVData]), with the properties the specification
    states about them.

    Conventions of the embedding.
    - A JavaScript string is the list of its UTF-16 code units ([jsstring]);
      [s.length] is [length s] and [s[i]] is the i-th code unit.
    - Integer-valued numbers (loop counters, lengths, [skipHeaderLines],
      [retries]) are modelled in [Z]; this is exact below 2^53.
    - [Map] objects are finite maps ([gmap]) keyed by strings.
    - A plain object used as a map is the finite map of its own
      properties, read through [Object.prototype] ([JSObject.get]): a name
      that the prototype has finds the inherited member when the object
      has no own property of that name. *)

From Stdlib Require Import ZArith NArith List Bool Ascii String Lia.
From Stdlib Require Import DecimalString SpecFloat.
From stdpp Require Import base option list gmap.
Import ListNotations.

Local Open Scope Z_scope.

(** ** JavaScript strings and the built-ins the sources rely on *)

Module JS.

(** A UTF-16 code unit. *)
Definition char := N.

(** A string value. *)
Definition jsstring := list char.

(** The string denoted by an ASCII literal of the sources. *)
Definition str (s : string) : jsstring :=
  List.map N_of_ascii (list_ascii_of_string s).

(** [s === t] on strings. *)
Definition str_eqb (s t : jsstring) : bool := bool_decide (s = t).

(** [!s] for a string [s]: only the empty string is falsy. *)
Definition is_empty (s : jsstring) : bool :=
  match s with [] => true | _ :: _ => false end.

(** WhiteSpace and LineTerminator code points, the ones [trim] strips and
    [\s] matches: TAB, LF, VT, FF, CR, SP, NBSP, U+1680, U+2000..U+200A,
    U+2028, U+2029, U+202F, U+205F, U+3000 and U+FEFF. *)
Definition is_ws (c : char) : bool :=
  ((9 <=? c) && (c <=? 13) || (c =? 32) || (c =? 160) || (c =? 5760)
   || (8192 <=? c) && (c <=? 8202) || (c =? 8232) || (c =? 8233)
   || (c =? 8239) || (c =? 8287) || (c =? 12288) || (c =? 65279))%N.

(** [String.prototype.trimStart]. *)
Fixpoint trimStart (s : jsstring) : jsstring :=
  match s with
  | [] => []
  | c :: r => if is_ws c then trimStart r else s
  end.

(** [String.prototype.trimEnd]. *)
Definition trimEnd (s : jsstring) : jsstring := rev (trimStart (rev s)).

(** [String.prototype.trim]. *)
Definition trim (s : jsstring) : jsstring := trimEnd (trimStart s).

(** [s.split(sep)] for a separator of one code unit: the segments between
    the occurrences of [sep]; never the empty list. *)
Fixpoint split (sep : char) (s : jsstring) : list jsstring :=
  match s with
  | [] => [[]]
  | c :: r =>
      if (c =? sep)%N then [] :: split sep r
      else match split sep r with
           | seg :: segs => (c :: seg) :: segs
           | [] => [[c]]
           end
  end.

(** [parts.join(sep)]. *)
Fixpoint join (sep : jsstring) (parts : list jsstring) : jsstring :=
  match parts with
  | [] => []
  | [p] => p
  | p :: ps => p ++ sep ++ join sep ps
  end.

(** [arr.slice(start)] for an integer [start]: a negative [start] counts
    from the end, and the start index is clamped to [0 .. arr.length]. *)
Definition slice {A} (start : Z) (l : list A) : list A :=
  let len := Z.of_nat (length l) in
  let k := if start <? 0 then Z.max (len + start) 0 else Z.min start len in
  skipn (Z.to_nat k) l.

(** [arr.splice(start)] for [0 <= start]: the array keeps its first [start]
    elements. *)
Definition splice {A} (start : nat) (l : list A) : list A := firstn start l.

(** [String(n)] / a template-literal hole for an integer-valued number
    below 10^21: its decimal digits, with a leading minus sign when
    negative. *)
Definition num_to_string (n : Z) : jsstring :=
  str (NilZero.string_of_int (Z.to_int n)).

(** [\d]: the ASCII digits. *)
Definition is_digit (c : char) : bool := ((48 <=? c) && (c <=? 57))%N.

(** [s.startsWith(p)]. *)
Fixpoint startsWith (p s : jsstring) : bool :=
  match p, s with
  | [], _ => true
  | _ :: _, [] => false
  | a :: p', b :: s' => (a =? b)%N && startsWith p' s'
  end.

End JS.

Import JS.

(** ** Number values: [parseFloat], [toFixed] and [String(x)] *)

Module JSNumber.

(** A Number value is an IEEE 754 binary64 value. *)
Definition number := spec_float.

Definition prec : Z := 53.
Definition emax : Z := 1024.

(** The Number value for the mathematical value
    [(-1)^neg * digits * 10^exp10]: the binary64 value nearest to it, ties
    to even, the infinity when it is out of range. *)
Definition number_of_decimal (neg : bool) (digits : Z) (exp10 : Z)
    : number :=
  match digits with
  | Zpos p =>
      if 0 <=? exp10 then
        binary_round prec emax neg (p * Z.to_pos (10 ^ exp10)) 0
      else
        let '(mz, ez, lz) :=
          SFdiv_core_binary prec emax (Zpos p) 0 (10 ^ (- exp10)) 0 in
        binary_round_aux prec emax neg mz ez lz
  | _ => S754_zero neg
  end.

(** The Number value of an integer. *)
Definition number_of_Z (n : Z) : number :=
  number_of_decimal (n <? 0) (Z.abs n) 0.

(** The longest prefix of decimal digits, and what follows it. *)
Fixpoint span_digits (s : jsstring) : jsstring * jsstring :=
  match s with
  | c :: r =>
      if is_digit c then let '(ds, rest) := span_digits r in (c :: ds, rest)
      else ([], s)
  | [] => ([], [])
  end.

(** The mathematical value of a run of decimal digits. *)
Definition digits_value (ds : jsstring) : Z :=
  fold_left (fun acc c => 10 * acc + (Z.of_N c - 48)) ds 0.

(** The value of the ExponentPart at the head of [s]; 0 when there is
    none. *)
Definition exponent_part (s : jsstring) : Z :=
  match s with
  | c :: r =>
      if ((c =? 101) || (c =? 69))%N then
        let '(neg, r1) :=
          match r with
          | sg :: r' =>
              if (sg =? 45)%N then (true, r')
              else if (sg =? 43)%N then (false, r') else (false, r)
          | [] => (false, r)
          end in
        let '(ds, _) := span_digits r1 in
        match ds with
        | [] => 0
        | _ => if neg then - digits_value ds else digits_value ds
        end
      else 0
  | [] => 0
  end.

(** The Number value of the longest prefix of [s] that is a
    StrUnsignedDecimalLiteral, with the sign [neg]; NaN when no prefix is
    one. *)
Definition unsigned_literal (neg : bool) (s : jsstring) : number :=
  if startsWith (str "Infinity") s then S754_infinity neg
  else
    let '(ipart, s2) := span_digits s in
    let '(fpart, s3) :=
      match s2 with
      | c :: r =>
          if (c =? 46)%N then
            let '(f, r') := span_digits r in
            match ipart, f with
            | [], [] => ([], s2)
            | _, _ => (f, r')
            end
          else ([], s2)
      | [] => ([], s2)
      end in
    match ipart, fpart with
    | [], [] => S754_nan
    | _, _ =>
        number_of_decimal neg (digits_value (ipart ++ fpart))
          (exponent_part s3 - Z.of_nat (length fpart))
    end.

(** [parseFloat]: the Number value of the longest prefix of the string,
    leading white space skipped, that is a StrDecimalLiteral; NaN when no
    prefix is one. *)
Definition parseFloat (input : jsstring) : number :=
  let s := trimStart input in
  match s with
  | c :: r =>
      if (c =? 45)%N then unsigned_literal true r
      else if (c =? 43)%N then unsigned_literal false r
      else unsigned_literal false s
  | [] => unsigned_literal false s
  end.

(** [isNaN]. *)
Definition isNaN (x : number) : bool :=
  match x with S754_nan => true | _ => false end.

(** The positive value [m * 2^e] divided by [10^sh], as a fraction. *)
Definition scaled (m : positive) (e sh : Z) : Z * Z :=
  (Zpos m * 2 ^ Z.max e 0 * 10 ^ Z.max (- sh) 0,
   2 ^ Z.max (- e) 0 * 10 ^ Z.max sh 0).

(** The decimal exponent [n] of the positive value [x = m * 2^e], with
    [10^(n-1) <= x < 10^n], searched upwards from [lo]. *)
Fixpoint decimal_exponent (fuel : nat) (m : positive) (e : Z) (lo : Z)
    : Z :=
  match fuel with
  | O => lo
  | S fuel' =>
      let '(num, den) := scaled m e lo in
      if num <? den then lo else decimal_exponent fuel' m e (lo + 1)
  end.

(** The [k]-digit integer [s] and exponent [n] for which the Number value
    of [s * 10^(n-k)] is [x = m * 2^e], the nearest to [x] (the even one
    on a tie) when there are two; [n0] is the decimal exponent of [x]. *)
Definition digits_of_length (m : positive) (e n0 k : Z) : option (Z * Z) :=
  let '(num, den) := scaled m e (n0 - k) in
  let lo := num / den in
  let is_x (c : Z) :=
    match SFcompare (number_of_decimal false c (n0 - k))
            (S754_finite false m e) with
    | Some Eq => true
    | _ => false
    end in
  let dist (c : Z) := Z.abs (c * den - num) in
  let pick :=
    match is_x lo, is_x (lo + 1) with
    | true, true =>
        match dist lo ?= dist (lo + 1) with
        | Lt => Some lo
        | Gt => Some (lo + 1)
        | Eq => Some (if Z.even lo then lo else lo + 1)
        end
    | true, false => Some lo
    | false, true => Some (lo + 1)
    | false, false => None
    end in
  match pick with
  | Some c => Some (if c =? 10 ^ k then (10 ^ (k - 1), n0 + 1) else (c, n0))
  | None => None
  end.

(** The digits [(s, n, k)] of [Number::toString] with the least [k], the
    search going upwards from [k]; 17 digits always suffice. *)
Fixpoint shortest_digits (fuel : nat) (m : positive) (e n0 k : Z)
    : Z * Z * Z :=
  match digits_of_length m e n0 k with
  | Some (s, n) => (s, n, k)
  | None =>
      match fuel with
      | O => (0, 0, k)
      | S fuel' => shortest_digits fuel' m e n0 (k + 1)
      end
  end.

Definition zeros (n : nat) : jsstring := repeat 48%N n.

(** [Number::toString] in radix 10, the value of [String(x)]. *)
Definition number_toString (x : number) : jsstring :=
  match x with
  | S754_nan => str "NaN"
  | S754_zero _ => str "0"
  | S754_infinity neg => (if neg then str "-" else []) ++ str "Infinity"
  | S754_finite neg m e =>
      let n0 := decimal_exponent 700 m e (-330) in
      let '(s, n, k) := shortest_digits 20 m e n0 1 in
      let ds := num_to_string s in
      (if neg then str "-" else []) ++
      (if (k <=? n) && (n <=? 21) then ds ++ zeros (Z.to_nat (n - k))
       else if (0 <? n) && (n <=? 21) then
         firstn (Z.to_nat n) ds ++ str "." ++ skipn (Z.to_nat n) ds
       else if (-6 <? n) && (n <=? 0) then
         str "0." ++ zeros (Z.to_nat (- n)) ++ ds
       else
         let ex := (if 0 <=? n - 1 then str "+" else str "-")
                   ++ num_to_string (Z.abs (n - 1)) in
         if k =? 1 then ds ++ str "e" ++ ex
         else firstn 1 ds ++ str "." ++ skipn 1 ds ++ str "e" ++ ex)
  end.

(** The integer [n] of [toFixed] for the positive value [x = m * 2^e]: the
    one for which [n / 10^f - x] is as close to zero as possible, the
    larger one when there are two. *)
Definition nearest_scaled (m : positive) (e : Z) (f : nat) : Z :=
  let num := Zpos m * 10 ^ Z.of_nat f in
  if 0 <=? e then num * 2 ^ e
  else (2 * num + 2 ^ (- e)) / 2 ^ (- e + 1).

(** [x >= 10^21] for the positive value [x = m * 2^e]. *)
Definition at_least_1e21 (m : positive) (e : Z) : bool :=
  if 0 <=? e then 10 ^ 21 <=? Zpos m * 2 ^ e
  else 10 ^ 21 * 2 ^ (- e) <=? Zpos m.

(** The digits of [n] with the decimal point before the last [f] of them,
    after padding with zeros on the left to [f + 1] digits. *)
Definition place_point (n : Z) (f : nat) : jsstring :=
  let digits := num_to_string n in
  let padded := zeros (S f - length digits) ++ digits in
  match f with
  | O => digits
  | _ =>
      firstn (length padded - f) padded ++ str "."
      ++ skipn (length padded - f) padded
  end.

(** [x.toFixed(f)] for [0 <= f <= 100]. *)
Definition toFixed (x : number) (f : nat) : jsstring :=
  match x with
  | S754_finite neg m e =>
      if at_least_1e21 m e then number_toString x
      else
        (if neg then str "-" else [])
        ++ place_point (nearest_scaled m e f) f
  | S754_zero _ => place_point 0 f
  | _ => number_toString x
  end.

End JSNumber.

Import JSNumber.

(** ** Plain objects used as maps *)

Module JSObject.

(** The properties of [Object.prototype] that have a string for name, as
    the language defines them, Annex B included: what every plain object
    inherits. The prototype is the one of the language, which no other
    code has added to. *)
Definition prototype_members : list jsstring :=
  [str "constructor"; str "__defineGetter__"; str "__defineSetter__";
   str "hasOwnProperty"; str "__lookupGetter__"; str "__lookupSetter__";
   str "isPrototypeOf"; str "propertyIsEnumerable"; str "toString";
   str "valueOf"; str "__proto__"; str "toLocaleString"].

(** A name that a plain object inherits a member for. *)
Definition inherited (key : jsstring) : bool :=
  existsb (str_eqb key) prototype_members.

(** What [o[key]] evaluates to: an own property, else an inherited member,
    else [undefined]. An inherited member is a function, or the prototype
    object itself for [__proto__]: it is truthy, and it is neither a
    string nor an array nor a plain object. *)
Inductive found (V : Type) :=
| Own (v : V)
| Inherited
| Undefined.
Arguments Own {V} v.
Arguments Inherited {V}.
Arguments Undefined {V}.

(** [o[key]] for a plain object (an object literal, or one made by
    [JSON.parse]) given by its own properties. *)
Definition get {V} (o : gmap jsstring V) (key : jsstring) : found V :=
  match o !! key with
  | Some v => Own v
  | None => if inherited key then Inherited else Undefined
  end.

(** [if (!o[key]) o[key] = fresh] for an object whose own properties are
    objects or arrays, which are truthy: the value of [o[key]] afterwards
    when it is an own property, the one there was or the fresh one.
    [None]: the name is inherited, so nothing is assigned and [o[key]] is
    still the inherited member. *)
Definition own_or {V} (fresh : V) (f : found V) : option V :=
  match f with
  | Own v => Some v
  | Undefined => Some fresh
  | Inherited => None
  end.

(** A [TypeError], as thrown by the call of a method that the value does
    not have. *)
Inductive js_error := TypeError.

End JSObject.

(** ** The CSV parser utility *)

Module CsvParser.

(** [CSVParseOptions]: every option may be absent. *)
Record CSVParseOptions := {
  skipEmptyLines : option bool;
  skipHeaderLines : option Z;
  delimiter : option jsstring;
  quoteChar : option jsstring;
  trimFields : option bool
}.

(** The options object [{}]. *)
Definition no_options : CSVParseOptions :=
  {| skipEmptyLines := None; skipHeaderLines := None; delimiter := None;
     quoteChar := None; trimFields := None |}.

Record CSVParseResult := {
  headers : list jsstring;
  rows : list (list jsstring);
  errors : list jsstring
}.

(** *** [parseCSVLine] *)

(** The state of the scanning loop of [parseCSVLine]: the fields pushed so
    far, the field being accumulated and the quote flag. The loop index is
    represented by the suffix of the line still to be read. *)
Record scan_state := {
  fields : list jsstring;
  currentField : jsstring;
  inQuotes : bool
}.

(** [trimFields ? currentField.trim() : currentField]. *)
Definition finish (trimFields : bool) (field : jsstring) : jsstring :=
  if trimFields then trim field else field.

(** [char === s] for the one-unit string [char = line[i]]. *)
Definition char_is (c : char) (s : jsstring) : bool := str_eqb [c] s.

(** The [while (i < line.length)] loop, from index [i] on; [rest] is
    [line.slice(i)]. *)
Fixpoint scan (delimiter quoteChar : jsstring) (trimFields : bool)
    (rest : jsstring) (st : scan_state) : scan_state :=
  match rest with
  | [] => st
  | c :: rest1 =>
      if char_is c quoteChar then
        match rest1 with
        | nextChar :: rest2 =>
            if inQuotes st && char_is nextChar quoteChar then
              (* escaped quote: i += 2 *)
              scan delimiter quoteChar trimFields rest2
                {| fields := fields st;
                   currentField := currentField st ++ quoteChar;
                   inQuotes := inQuotes st |}
            else
              scan delimiter quoteChar trimFields rest1
                {| fields := fields st;
                   currentField := currentField st;
                   inQuotes := negb (inQuotes st) |}
        | [] =>
            (* nextChar is undefined *)
            scan delimiter quoteChar trimFields rest1
              {| fields := fields st;
                 currentField := currentField st;
                 inQuotes := negb (inQuotes st) |}
        end
      else if char_is c delimiter && negb (inQuotes st) then
        scan delimiter quoteChar trimFields rest1
          {| fields := fields st ++ [finish trimFields (currentField st)];
             currentField := [];
             inQuotes := inQuotes st |}
      else
        scan delimiter quoteChar trimFields rest1
          {| fields := fields st;
             currentField := currentField st ++ [c];
             inQuotes := inQuotes st |}
  end.

Definition scan_init : scan_state :=
  {| fields := []; currentField := []; inQuotes := false |}.

Definition parseCSVLine (line delimiter quoteChar : jsstring)
    (trimFields : bool) : list jsstring :=
  let st := scan delimiter quoteChar trimFields line scan_init in
  fields st ++ [finish trimFields (currentField st)].

(** *** [parseCSV] *)

(** The [while (row.length < headers.length) row.push('')] loop; [gap] is
    the number of iterations, [headers.length - row.length]. *)
Fixpoint push_empty (gap : nat) (row : list jsstring) : list jsstring :=
  match gap with
  | O => row
  | S gap' => push_empty gap' (row ++ [[]])
  end.

(** Pad with empty strings or truncate to match the header count. *)
Definition fit_row (n : nat) (row : list jsstring) : list jsstring :=
  let padded := push_empty (n - length row) row in
  if (n <? length padded)%nat then splice n padded else padded.

(** The diagnostic of a row with the wrong number of columns; [lineno] is
    the value of [i + skipHeaderLines + 1]. *)
Definition column_error (lineno : Z) (expected got : nat) : jsstring :=
  str "Row " ++ num_to_string lineno ++ str ": Expected "
  ++ num_to_string (Z.of_nat expected) ++ str " columns, got "
  ++ num_to_string (Z.of_nat got).

(** The [for (let i = 1; i < dataLines.length; i++)] loop from index [i]
    on; [rest] is [dataLines.slice(i)], [hlen] is [headers.length], and the
    accumulator holds [rows] and [errors]. [parseCSVLine] raises no
    exception, so the [catch] branch of the loop body is never taken. *)
Fixpoint parse_rows (skipEmpty : bool) (skip : Z)
    (delim quote : jsstring) (trimF : bool) (hlen : nat)
    (rest : list jsstring) (i : Z)
    (acc : list (list jsstring) * list jsstring)
    : list (list jsstring) * list jsstring :=
  match rest with
  | [] => acc
  | raw :: rest' =>
      let line := trim raw in
      if skipEmpty && is_empty line then
        parse_rows skipEmpty skip delim quote trimF hlen rest' (i + 1) acc
      else
        let row := parseCSVLine line delim quote trimF in
        let acc' :=
          if negb (length row =? hlen)%nat then
            (fst acc ++ [fit_row hlen row],
             snd acc ++ [column_error (i + skip + 1) hlen (length row)])
          else (fst acc ++ [row], snd acc) in
        parse_rows skipEmpty skip delim quote trimF hlen rest' (i + 1) acc'
  end.

(** The line feed, the separator of [csvText.split('\n')]. *)
Definition LF : char := 10%N.

Definition no_data_error : jsstring := str "No data lines found in CSV".

Definition parseCSV (csvText : jsstring) (options : CSVParseOptions)
    : CSVParseResult :=
  let skipEmpty := default true (skipEmptyLines options) in
  let skip := default 0 (skipHeaderLines options) in
  let delim := default (str ",") (delimiter options) in
  let quote := default [34%N] (quoteChar options) in
  let trimF := default true (trimFields options) in
  let lines := split LF csvText in
  let dataLines := slice skip lines in
  match dataLines with
  | [] => {| headers := []; rows := []; errors := [no_data_error] |}
  | firstLine :: rest =>
      let hdrs := parseCSVLine firstLine delim quote trimF in
      let '(rws, errs) :=
        parse_rows skipEmpty skip delim quote trimF (length hdrs)
          rest 1 ([], []) in
      {| headers := hdrs; rows := rws; errors := errs |}
  end.

(** *** The field normalizers *)


(** A character the pattern [[^\d\.]] does not match. *)
Definition percentage_char (c : char) : bool :=
  (is_digit c || (c =? 46))%N.


Definition parsePercentage (value : option jsstring) : jsstring :=
  match value with
  | None => str "0%"
  | Some v =>
      if is_empty v then str "0%"
      else
        let cleaned := List.filter percentage_char v in
        let parsed := parseFloat cleaned in
        if isNaN parsed then str "0%"
        else toFixed parsed 2 ++ str "%"
  end.

Definition formatPhoneNumber (phone : option jsstring) : jsstring :=
  match phone with
  | None => []
  | Some p =>
      if is_empty p then []
      else
        let cleaned := List.filter is_digit p in
        if (length cleaned =? 10)%nat then str "+91 " ++ cleaned
        else if (length cleaned =? 12)%nat && startsWith (str "91") cleaned
        then str "+" ++ cleaned
        else p
  end.

(** [\w]: the ASCII letters, the digits and the underscore. *)
Definition is_word (c : char) : bool :=
  (is_digit c || (65 <=? c) && (c <=? 90) || (97 <=? c) && (c <=? 122)
   || (c =? 95))%N.

(** The double and the single quote, the class of the first pattern of
    [cleanDataField]. *)
Definition is_quote_mark (c : char) : bool := ((c =? 34) || (c =? 39))%N.

(** The first [replace] of [cleanDataField], whose pattern matches a quote
    mark at the start or at the end: a quote mark at the start is removed,
    and a quote mark at the end (of what is left) is removed. *)
Definition strip_quote_marks (s : jsstring) : jsstring :=
  let s1 :=
    match s with
    | c :: r => if is_quote_mark c then r else s
    | [] => []
    end in
  match rev s1 with
  | z :: r => if is_quote_mark z then rev r else s1
  | [] => s1
  end.

(** [s.replace(/\s+/g, ' ')]: each run of white space becomes one space;
    [inRun] tells that the unit before was white space. *)
Fixpoint collapse_ws_from (inRun : bool) (s : jsstring) : jsstring :=
  match s with
  | [] => []
  | c :: r =>
      if is_ws c then
        if inRun then collapse_ws_from true r
        else 32%N :: collapse_ws_from true r
      else c :: collapse_ws_from false r
  end.

Definition collapse_ws (s : jsstring) : jsstring := collapse_ws_from false s.

(** A character the pattern [[^\w\s\-\.\(\)]] does not match. *)
Definition field_char (c : char) : bool :=
  (is_word c || is_ws c || (c =? 45) || (c =? 46) || (c =? 40)
   || (c =? 41))%N.

(** A character the pattern [[^\w\s]] does not match. *)
Definition name_char (c : char) : bool := is_word c || is_ws c.

Definition cleanDataField (value : option jsstring) : jsstring :=
  match value with
  | None => []
  | Some v =>
      if is_empty v then []
      else
        trim (List.filter field_char
                (collapse_ws (strip_quote_marks (trim v))))
  end.

(** [normalizeName]; [toLowerCase] is the lower-casing of the host, which
    follows the Unicode case tables. *)
Definition normalizeName (toLowerCase : jsstring -> jsstring)
    (name : option jsstring) : jsstring :=
  match name with
  | None => []
  | Some v =>
      if is_empty v then []
      else
        trim (List.filter name_char (collapse_ws (trim (toLowerCase v))))
  end.

(** The test of [validateRequiredFields] on the value of one field. *)
Definition field_missing (toLowerCase : jsstring -> jsstring)
    (value : option jsstring) : bool :=
  match value with
  | None => true
  | Some v =>
      is_empty v || str_eqb (trim v) []
      || str_eqb (toLowerCase v) (str "n/a")
  end.

(** The [for (const field of requiredFields)] loop; [missingFields] is the
    array built so far. The record [data] is a plain object with strings
    for own properties, and [data[field]] is read through the prototype:
    an inherited member is truthy and has no [trim] method, so the call
    [value.trim()] throws and the loop is left. *)
Fixpoint missing_loop (toLowerCase : jsstring -> jsstring)
    (data : gmap jsstring jsstring) (requiredFields : list jsstring)
    (missingFields : list jsstring)
    : JSObject.js_error + list jsstring :=
  match requiredFields with
  | [] => inr missingFields
  | field :: rest =>
      match JSObject.get data field with
      | JSObject.Inherited => inl JSObject.TypeError
      | JSObject.Own v =>
          missing_loop toLowerCase data rest
            (if field_missing toLowerCase (Some v)
             then missingFields ++ [field] else missingFields)
      | JSObject.Undefined =>
          missing_loop toLowerCase data rest
            (if field_missing toLowerCase None
             then missingFields ++ [field] else missingFields)
      end
  end.

(** [validateRequiredFields]: the exception thrown, or the pair of
    [isValid] and [missingFields]. *)
Definition validateRequiredFields (toLowerCase : jsstring -> jsstring)
    (data : gmap jsstring jsstring) (requiredFields : list jsstring)
    : JSObject.js_error + (bool * list jsstring) :=
  match missing_loop toLowerCase data requiredFields [] with
  | inl e => inl e
  | inr missingFields =>
      inr ((length missingFields =? 0)%nat, missingFields)
  end.

End CsvParser.

(** ** The data loading manager *)

Module DataLoader.

Import CsvParser.

Record DataLoadingState := {
  isLoading : bool;
  isLoaded : bool;
  error : option jsstring;
  lastUpdated : option Z
}.

(** [Partial<DataLoadingState>]: an object literal with some of the fields. *)
Record PartialState := {
  set_isLoading : option bool;
  set_isLoaded : option bool;
  set_error : option (option jsstring);
  set_lastUpdated : option (option Z)
}.

(** The object literal with all four fields, as every call site writes it. *)
Definition full_state (loading loaded : bool) (err : option jsstring)
    (updated : option Z) : PartialState :=
  {| set_isLoading := Some loading; set_isLoaded := Some loaded;
     set_error := Some err; set_lastUpdated := Some updated |}.

(** [{ ...currentState, ...state }]. *)
Definition merge_state (current : DataLoadingState) (state : PartialState)
    : DataLoadingState :=
  {| isLoading := default (isLoading current) (set_isLoading state);
     isLoaded := default (isLoaded current) (set_isLoaded state);
     error := default (error current) (set_error state);
     lastUpdated := default (lastUpdated current) (set_lastUpdated state) |}.

(** The state of a data source never seen before. *)
Definition idle_state : DataLoadingState :=
  {| isLoading := false; isLoaded := false; error := None;
     lastUpdated := None |}.

Record DataLoadingResult (T : Type) := {
  data : T;
  errors : list jsstring;
  warnings : list jsstring
}.
Arguments data {T} _.
Arguments errors {T} _.
Arguments warnings {T} _.

(** A subscribed listener. The callback is an observer: it returns
    normally and does not call back into the manager; what the model keeps
    of it is its identity and the record of each invocation. *)
Definition listener := nat.

(** What a call does to the outside world, in order. Console output is not
    part of the model. *)
Inductive event :=
| Notified (l : listener) (state : DataLoadingState)
| Fetched (url : jsstring) (timeout : Z)
| Waited (ms : Z).

(** A value thrown inside an attempt: an [Error] with its message, or
    anything else. *)
Inductive thrown :=
| ErrorObject (message : jsstring)
| OtherValue.

(** A [Response]: the [ok] flag, the status line, and what [text()] settles
    to. *)
Record response := {
  ok : bool;
  status : Z;
  statusText : jsstring;
  text : thrown + jsstring
}.

(** The world a call runs in: what the fetch of each attempt settles to (a
    rejection, which includes the abort on timeout, or a response), and
    the reading of the clock at [new Date()]. *)
Record environment := {
  fetch : Z -> thrown + response;
  now : Z
}.

Record load_options := {
  opt_skipHeaderLines : option Z;
  opt_cacheKey : option jsstring;
  opt_retries : option Z;
  opt_timeout : option Z
}.

Definition default_options : load_options :=
  {| opt_skipHeaderLines := None; opt_cacheKey := None;
     opt_retries := None; opt_timeout := None |}.

Section Manager.

(** The type of the loaded data, and the value of [{} as T]. *)
Context {T : Type} (emptyT : T).

(** The fields of a [DataLoadingManager], and the trace of its effects. A
    listener set is the list of its members in insertion order. *)
Record manager := {
  loadingStates : gmap jsstring DataLoadingState;
  dataCache : gmap jsstring T;
  listeners : gmap jsstring (list listener);
  trace : list event
}.

Definition getLoadingState (m : manager) (dataSource : jsstring)
    : DataLoadingState :=
  default idle_state (loadingStates m !! dataSource).

Definition setLoadingState (dataSource : jsstring) (state : PartialState)
    (m : manager) : manager :=
  let currentState := getLoadingState m dataSource in
  let newState := merge_state currentState state in
  {| loadingStates := <[dataSource := newState]> (loadingStates m);
     dataCache := dataCache m;
     listeners := listeners m;
     trace := trace m ++
       List.map (fun l => Notified l newState)
         (default [] (listeners m !! dataSource)) |}.

(** [subscribe]: add the listener to the set of the data source. *)
Definition subscribe (dataSource : jsstring) (l : listener) (m : manager)
    : manager :=
  let current := default [] (listeners m !! dataSource) in
  {| loadingStates := loadingStates m;
     dataCache := dataCache m;
     listeners :=
       <[dataSource := if bool_decide (l ∈ current) then current
                       else current ++ [l]]> (listeners m);
     trace := trace m |}.

Definition cache_put (cacheKey : jsstring) (value : T) (m : manager)
    : manager :=
  {| loadingStates := loadingStates m;
     dataCache := <[cacheKey := value]> (dataCache m);
     listeners := listeners m;
     trace := trace m |}.

Definition emit (e : event) (m : manager) : manager :=
  {| loadingStates := loadingStates m;
     dataCache := dataCache m;
     listeners := listeners m;
     trace := trace m ++ [e] |}.

(** [error instanceof Error ? error.message : 'Unknown error']. *)
Definition error_message (e : thrown) : jsstring :=
  match e with
  | ErrorObject message => message
  | OtherValue => str "Unknown error"
  end.

(** The local arrays [errors] and [warnings] of [loadCSVData]. *)
Definition locals : Type := list jsstring * list jsstring.

(** The body of the [try] block of one attempt. It ends by returning the
    result of [loadCSVData] or by throwing; either way it may have changed
    the local arrays and the manager. *)
Definition try_block (env : environment)
    (parser : CSVParseResult -> thrown + T)
    (dataSource url cacheKey : jsstring) (skipHeaderLines timeout : Z)
    (attempt : Z) (loc : locals) (m : manager)
    : (thrown + DataLoadingResult T) * locals * manager :=
  let m1 := emit (Fetched url timeout) m in
  match fetch env attempt with
  | inl e => (inl e, loc, m1)
  | inr resp =>
      if negb (ok resp) then
        (inl (ErrorObject (str "HTTP " ++ num_to_string (status resp)
                           ++ str ": " ++ statusText resp)), loc, m1)
      else
        match text resp with
        | inl e => (inl e, loc, m1)
        | inr csvText =>
            if is_empty (trim csvText) then
              (inl (ErrorObject (str "Empty CSV file received")), loc, m1)
            else
              let parseResult :=
                parseCSV csvText
                  {| CsvParser.skipHeaderLines := Some skipHeaderLines;
                     skipEmptyLines := Some true;
                     delimiter := None; quoteChar := None;
                     trimFields := Some true |} in
              let nerr := length (CsvParser.errors parseResult) in
              let loc1 :=
                if (0 <? nerr)%nat then
                  (fst loc ++ CsvParser.errors parseResult,
                   snd loc ++ [str "CSV parsing completed with "
                               ++ num_to_string (Z.of_nat nerr)
                               ++ str " errors"])
                else loc in
              match parser parseResult with
              | inl e => (inl e, loc1, m1)
              | inr d =>
                  let m2 := cache_put cacheKey d m1 in
                  let m3 :=
                    setLoadingState dataSource
                      (full_state false true None (Some (now env))) m2 in
                  (inr {| data := d; errors := fst loc1;
                          warnings := snd loc1 |}, loc1, m3)
              end
        end
  end.

(** The message of the result when the last attempt has failed. *)
Definition terminal_error (dataSource : jsstring) (retries : Z)
    (errorMessage : jsstring) : jsstring :=
  str "Failed to load " ++ dataSource ++ str " after "
  ++ num_to_string retries ++ str " attempts: " ++ errorMessage.

(** The [for (let attempt = 1; attempt <= retries; attempt++)] loop from
    the current value of [attempt] on. [remaining] is the number of
    iterations left, [retries - attempt + 1] (or 0 when that is negative);
    when it reaches 0 the loop is left and the statement after it returns. *)
Fixpoint attempt_loop (env : environment)
    (parser : CSVParseResult -> thrown + T)
    (dataSource url cacheKey : jsstring) (skipHeaderLines timeout : Z)
    (retries : Z) (remaining : nat) (attempt : Z) (loc : locals)
    (m : manager) : DataLoadingResult T * manager :=
  match remaining with
  | O =>
      ({| data := emptyT;
          errors := [str "Failed to load " ++ dataSource];
          warnings := [] |}, m)
  | S remaining' =>
      match try_block env parser dataSource url cacheKey skipHeaderLines
              timeout attempt loc m with
      | (inr result, _, m1) => (result, m1)
      | (inl e, loc1, m1) =>
          let errorMessage := error_message e in
          if attempt =? retries then
            let m2 :=
              setLoadingState dataSource
                (full_state false false (Some errorMessage) None) m1 in
            ({| data := emptyT;
                errors := [terminal_error dataSource retries errorMessage];
                warnings := [] |}, m2)
          else
            let m2 := emit (Waited (1000 * attempt)) m1 in
            attempt_loop env parser dataSource url cacheKey skipHeaderLines
              timeout retries remaining' (attempt + 1) loc1 m2
      end
  end.

Definition cache_warning : jsstring := str "Data loaded from cache".

Definition loadCSVData (env : environment) (dataSource url : jsstring)
    (parser : CSVParseResult -> thrown + T) (options : load_options)
    (m : manager) : DataLoadingResult T * manager :=
  let skipHeaderLines := default 0 (opt_skipHeaderLines options) in
  let cacheKey := default dataSource (opt_cacheKey options) in
  let retries := default 3 (opt_retries options) in
  let timeout := default 30000 (opt_timeout options) in
  match dataCache m !! cacheKey with
  | Some cachedData =>
      let m1 :=
        setLoadingState dataSource
          (full_state false true None (Some (now env))) m in
      ({| data := cachedData; errors := [];
          warnings := [cache_warning] |}, m1)
  | None =>
      let m1 :=
        setLoadingState dataSource (full_state true false None None) m in
      attempt_loop env parser dataSource url cacheKey skipHeaderLines
        timeout retries (Z.to_nat retries) 1 ([], []) m1
  end.

(** [clearCache]. *)
Definition clearCache (dataSource : jsstring) (m : manager) : manager :=
  setLoadingState dataSource (full_state false false None None)
    {| loadingStates := loadingStates m;
       dataCache := delete dataSource (dataCache m);
       listeners := listeners m;
       trace := trace m |}.

(** The function [subscribe] returns: remove the listener from the set of
    the data source, when there is one. *)
Definition unsubscribe (dataSource : jsstring) (l : listener) (m : manager)
    : manager :=
  match listeners m !! dataSource with
  | Some current =>
      {| loadingStates := loadingStates m;
         dataCache := dataCache m;
         listeners :=
           <[dataSource :=
               List.filter (fun l' => negb (Nat.eqb l' l)) current]>
             (listeners m);
         trace := trace m |}
  | None => m
  end.

(** [clearAllCaches]. *)
Definition clearAllCaches (m : manager) : manager :=
  {| loadingStates := ∅; dataCache := ∅; listeners := listeners m;
     trace := trace m |}.

(** [getCachedData]: [null] is [None]; [truthy] tells which values of [T]
    are not falsy. *)
Definition getCachedData (truthy : T -> bool) (m : manager)
    (dataSource : jsstring) : option T :=
  match dataCache m !! dataSource with
  | Some d => if truthy d then Some d else None
  | None => None
  end.

(** [isDataLoaded]: [state.isLoaded && !state.error]. *)
Definition isDataLoaded (m : manager) (dataSource : jsstring) : bool :=
  let state := getLoadingState m dataSource in
  isLoaded state
  && negb (match error state with
           | Some message => negb (is_empty message)
           | None => false
           end).

End Manager.

Arguments manager T : clear implicits.

End DataLoader.

(** ** The Mandal vote share data, a caller of the loader *)

Module MandalVoteShare.

Import CsvParser.

Record VoteFigure := { vs : jsstring; votes : jsstring }.

(** An element of the array stored for an assembly constituency. *)
Record MandalEntry := {
  name : jsstring;
  lbName : jsstring;
  lsg2020 : VoteFigure;
  ge2024 : VoteFigure;
  target2025 : VoteFigure
}.

(** [MandalVoteShareData]: zone, then org district, then AC, each a plain
    object used as a map from names, given by its own properties. *)
Definition MandalVoteShareData : Type :=
  gmap jsstring (gmap jsstring (gmap jsstring (list MandalEntry))).

(** The object the row parser returns, as far as this model describes it.
    The objects are read and written through [Object.prototype]; for a
    name that the prototype has, the code reads the inherited member,
    and what it then does (a [TypeError] caught by the [catch] of the
    row, or a write to a member of that member) depends on objects that
    are not part of this model. [None] stands for an object built that
    way; [Some data] is the object with the own properties [data]. *)
Definition loaded_data : Type := option MandalVoteShareData.

(** [data[zone]?.[org]?.[ac] || []]. The own properties are objects and
    arrays, which are truthy. [None]: the chain reaches an inherited
    member, and the value is not an array of entries of [data]. *)
Definition entries_at (data : MandalVoteShareData) (zone org ac : jsstring)
    : option (list MandalEntry) :=
  match JSObject.get data zone with
  | JSObject.Undefined => Some []
  | JSObject.Inherited => None
  | JSObject.Own orgs =>
      match JSObject.get orgs org with
      | JSObject.Undefined => Some []
      | JSObject.Inherited => None
      | JSObject.Own acs =>
          match JSObject.get acs ac with
          | JSObject.Undefined => Some []
          | JSObject.Inherited => None
          | JSObject.Own entries => Some entries
          end
      end
  end.

(** [row[k]?.trim() || '0']. *)
Definition votes_of (cell : option jsstring) : jsstring :=
  match cell with
  | Some v => if is_empty (trim v) then str "0" else trim v
  | None => str "0"
  end.

Definition dataSource : jsstring := str "mandal-vote-share".

Definition url : jsstring :=
  str "/data/votesharetarget/Local Body Target - Org Mandal Level - Vote Share (1).csv".

(** The options of the call of [loadCSVWithRetry]. *)
Definition options : DataLoader.load_options :=
  {| DataLoader.opt_skipHeaderLines := Some 2;
     DataLoader.opt_cacheKey := Some dataSource;
     DataLoader.opt_retries := Some 3;
     DataLoader.opt_timeout := Some 30000 |}.

Section Normalized.

(** The functions of the module [./nameNormalization], which is not among
    the sources: they are parameters, arbitrary functions on strings that
    return. *)
Variables normalizeZoneName normalizeOrgDistrictName normalizeACName :
  jsstring -> jsstring.

(** The entry pushed for a row. *)
Definition entry_of (row : list jsstring) : MandalEntry :=
  let mandal := cleanDataField (row !! 3%nat) in
  {| name := mandal;
     lbName := mandal;
     lsg2020 := {| vs := parsePercentage (row !! 4%nat);
                   votes := votes_of (row !! 5%nat) |};
     ge2024 := {| vs := parsePercentage (row !! 6%nat);
                  votes := votes_of (row !! 7%nat) |};
     target2025 := {| vs := parsePercentage (row !! 8%nat);
                      votes := votes_of (row !! 9%nat) |} |}.

(** The body of the [forEach] callback: the state is [data] and the local
    [errors]; [index] is the index of the row. [None]: one of the three
    normalized names is inherited from [Object.prototype], and the row
    takes the code outside this model (see [loaded_data]). *)
Definition process_row (state : MandalVoteShareData * list jsstring)
    (indexed : Z * list jsstring)
    : option (MandalVoteShareData * list jsstring) :=
  let '(data, errors) := state in
  let '(index, row) := indexed in
  if (length row <? 10)%nat then
    Some
      (data,
       errors ++ [str "Row " ++ num_to_string (index + 3)
                  ++ str ": Insufficient columns ("
                  ++ num_to_string (Z.of_nat (length row))
                  ++ str "), skipping"])
  else
    let zone := cleanDataField (row !! 0%nat) in
    let orgDistrict := cleanDataField (row !! 1%nat) in
    let ac := cleanDataField (row !! 2%nat) in
    let mandal := cleanDataField (row !! 3%nat) in
    if is_empty zone || is_empty orgDistrict || is_empty ac
       || is_empty mandal then
      Some
        (data,
         errors ++ [str "Row " ++ num_to_string (index + 3)
                    ++ str ": Missing required fields (zone, orgDistrict, AC, or mandal), skipping"])
    else
      let normalizedZone := normalizeZoneName zone in
      let normalizedOrgDistrict := normalizeOrgDistrictName orgDistrict in
      let normalizedAC := normalizeACName ac in
      match JSObject.own_or ∅ (JSObject.get data normalizedZone) with
      | None => None
      | Some orgs =>
          match
            JSObject.own_or ∅ (JSObject.get orgs normalizedOrgDistrict)
          with
          | None => None
          | Some acs =>
              match JSObject.own_or [] (JSObject.get acs normalizedAC) with
              | None => None
              | Some entries =>
                  Some
                    (<[normalizedZone :=
                         <[normalizedOrgDistrict :=
                             <[normalizedAC := entries ++ [entry_of row]]>
                               acs]> orgs]> data,
                     errors)
              end
          end
      end.

(** The elements of an array with their indices, as [forEach] passes
    them. *)
Fixpoint indexed_from {A} (i : Z) (l : list A) : list (Z * A) :=
  match l with
  | [] => []
  | x :: r => (i, x) :: indexed_from (i + 1) r
  end.

(** [parseResult.rows.forEach(...)] from a state on. *)
Fixpoint process_rows (rows : list (Z * list jsstring))
    (state : MandalVoteShareData * list jsstring)
    : option (MandalVoteShareData * list jsstring) :=
  match rows with
  | [] => Some state
  | indexed :: rest =>
      match process_row state indexed with
      | Some state' => process_rows rest state'
      | None => None
      end
  end.

(** The row parser passed to [loadCSVWithRetry]. Every row runs inside
    its own [try], so the parser returns; the local [errors] are only
    logged. *)
Definition rowParser (parseResult : CSVParseResult)
    : DataLoader.thrown + loaded_data :=
  inr (option_map fst
         (process_rows (indexed_from 0 (rows parseResult)) (∅, []))).

(** The module with its variable [mandalVoteShareDataCache], [null] or
    the object loaded, and the global [dataLoadingManager]. *)
Record module_state := {
  mandalVoteShareDataCache : option loaded_data;
  dataLoadingManager : DataLoader.manager loaded_data
}.

(** [loadMandalVoteShareData]; an object is truthy, the empty one too.
    [{} as T] is the object without own properties. *)
Definition loadMandalVoteShareData (env : DataLoader.environment)
    (st : module_state) : loaded_data * module_state :=
  match mandalVoteShareDataCache st with
  | Some cached => (cached, st)
  | None =>
      let '(result, m) :=
        DataLoader.loadCSVData (Some ∅ : loaded_data) env dataSource url
          rowParser options (dataLoadingManager st) in
      (DataLoader.data result,
       {| mandalVoteShareDataCache := Some (DataLoader.data result);
          dataLoadingManager := m |})
  end.

(** [getMandalVoteShareData]. [None]: the value returned is outside this
    model (see [loaded_data] and [entries_at]). *)
Definition getMandalVoteShareData (st : module_state)
    (ac orgDistrict zone : jsstring) : option (list MandalEntry) :=
  match mandalVoteShareDataCache st with
  | None => Some []
  | Some None => None
  | Some (Some data) =>
      entries_at data (normalizeZoneName zone)
        (normalizeOrgDistrictName orgDistrict) (normalizeACName ac)
  end.

Definition clearMandalVoteShareCache (st : module_state) : module_state :=
  {| mandalVoteShareDataCache := None;
     dataLoadingManager :=
       DataLoader.clearCache dataSource (dataLoadingManager st) |}.

End Normalized.

End MandalVoteShare.

Import CsvParser.

(** ** Notions the properties are stated with *)

(** The double quote, the default [quoteChar]. *)
Definition DQUOTE : char := 34%N.

(** The number of positions at which the scan of [parseCSVLine] meets the
    delimiter outside quotes, for a scan that starts at [rest] with the quote
    flag [inQ]. *)
Fixpoint unquoted_delimiters (delimiter quoteChar : jsstring)
    (rest : jsstring) (inQ : bool) : nat :=
  match rest with
  | [] => O
  | c :: rest1 =>
      if char_is c quoteChar then
        match rest1 with
        | nextChar :: rest2 =>
            if inQ && char_is nextChar quoteChar then
              unquoted_delimiters delimiter quoteChar rest2 inQ
            else unquoted_delimiters delimiter quoteChar rest1 (negb inQ)
        | [] => O
        end
      else if char_is c delimiter && negb inQ then
        S (unquoted_delimiters delimiter quoteChar rest1 inQ)
      else unquoted_delimiters delimiter quoteChar rest1 inQ
  end.

(** A field with each quote character doubled. *)
Definition escape_quotes (q : char) (field : jsstring) : jsstring :=
  flat_map (fun c => if (c =? q)%N then [q; q] else [c]) field.

(** A field wrapped in quote characters, its own quote characters doubled. *)
Definition quote_field (q : char) (field : jsstring) : jsstring :=
  q :: escape_quotes q field ++ [q].

(** The line of the quoted fields, joined with the delimiter. *)
Definition build_line (d q : char) (fields : list jsstring) : jsstring :=
  join [d] (List.map (quote_field q) fields).

(** [scan] from the start of a line. *)
Definition scan_line (line delimiter quoteChar : jsstring)
    (trimFields : bool) : scan_state :=
  scan delimiter quoteChar trimFields line scan_init.

(** The options of [parseCSV] with their defaults. *)
Definition skipEmptyLines_of (o : CSVParseOptions) : bool :=
  default true (skipEmptyLines o).
Definition skipHeaderLines_of (o : CSVParseOptions) : Z :=
  default 0 (skipHeaderLines o).
Definition delimiter_of (o : CSVParseOptions) : jsstring :=
  default (str ",") (delimiter o).
Definition quoteChar_of (o : CSVParseOptions) : jsstring :=
  default [DQUOTE] (quoteChar o).
Definition trimFields_of (o : CSVParseOptions) : bool :=
  default true (trimFields o).

(** The lines of the text that are left after the header skip: the header
    line first, when there is one. *)
Definition dataLines_of (csvText : jsstring) (o : CSVParseOptions)
    : list jsstring :=
  slice (skipHeaderLines_of o) (split LF csvText).

(** The fields of a line as [parseCSVLine] returns them under the options,
    before any padding or truncation. *)
Definition raw_row (o : CSVParseOptions) (line : jsstring)
    : list jsstring :=
  parseCSVLine line (delimiter_of o) (quoteChar_of o) (trimFields_of o).

(** The elements of a list with their indices, counted from [i]. *)
Fixpoint numbered {A} (i : Z) (l : list A) : list (Z * A) :=
  match l with
  | [] => []
  | x :: r => (i, x) :: numbered (i + 1) r
  end.

(** The lines a row is made from: each line after the header line with its
    index [i] in [dataLines], trimmed, the empty ones left out when
    [skipEmpty] is set. *)
Definition kept_lines (skipEmpty : bool) (rest : list jsstring)
    : list (Z * jsstring) :=
  List.filter (fun il => negb (skipEmpty && is_empty (snd il)))
    (List.map (fun il => (fst il, trim (snd il))) (numbered 1 rest)).

Definition data_rows (csvText : jsstring) (o : CSVParseOptions)
    : list (Z * jsstring) :=
  kept_lines (skipEmptyLines_of o) (tl (dataLines_of csvText o)).

(** A row whose number of fields is not the number of headers. *)
Definition mismatched (o : CSVParseOptions) (hlen : nat)
    (il : Z * jsstring) : bool :=
  negb (length (raw_row o (snd il)) =? hlen)%nat.

(** The options with a header skip and nothing else. *)
Definition skipping (skipHeaderLines : Z) : CSVParseOptions :=
  {| skipEmptyLines := None; skipHeaderLines := Some skipHeaderLines;
     delimiter := None; quoteChar := None; trimFields := None |}.

(** A document with nine lines before its header line of eleven fields,
    and two rows, of one field and of twelve. *)
Definition titled_document : jsstring :=
  repeat LF 9 ++ str "a,b,c,d,e,f,g,h,i,j,k" ++ [LF] ++ str "A" ++ [LF]
  ++ str "1,2,3,4,5,6,7,8,9,10,11,12".

(** The result of [parseCSV] when no line is left after the header skip. *)
Definition no_data_result : CSVParseResult :=
  {| headers := []; rows := [];
     errors := [str "No data lines found in CSV"] |}.

(** The line of the text with the number [lineno], counted from 1. *)
Definition line_at (csvText : jsstring) (lineno : Z) : option jsstring :=
  if lineno <? 1 then None else split LF csvText !! Z.to_nat (lineno - 1).

(** A string of white space only. *)
Definition all_ws (s : jsstring) : bool := forallb is_ws s.

(** The carriage return that a CRLF line ending leaves at the end of a
    line. *)
Definition CR : char := 13%N.

(** The options [{ trimFields: false }]. *)
Definition untrimmed_options : CSVParseOptions :=
  {| skipEmptyLines := None; skipHeaderLines := None; delimiter := None;
     quoteChar := None; trimFields := Some false |}.

(** A two-line document with CRLF line endings and spaces around the
    fields of both lines. *)
Definition spaced_document : jsstring :=
  str " a ,b " ++ [CR; LF] ++ str " x ,y " ++ [CR; LF].

(** The number of fetches issued in a trace. *)
Definition is_fetch (e : DataLoader.event) : bool :=
  match e with DataLoader.Fetched _ _ => true | _ => false end.

Definition fetches (tr : list DataLoader.event) : nat :=
  length (List.filter is_fetch tr).

(** The state of a source whose last attempt has failed. *)
Definition failed_state (message : jsstring) : DataLoader.DataLoadingState :=
  {| DataLoader.isLoading := false; DataLoader.isLoaded := false;
     DataLoader.error := Some message; DataLoader.lastUpdated := None |}.

(** The state of a source loaded at the time [updated]. *)
Definition loaded_state (updated : Z) : DataLoader.DataLoadingState :=
  {| DataLoader.isLoading := false; DataLoader.isLoaded := true;
     DataLoader.error := None; DataLoader.lastUpdated := Some updated |}.

(** The result of a load whose last attempt has failed. *)
Definition terminal_result {T} (emptyT : T) (dataSource : jsstring)
    (retries : Z) (message : jsstring) : DataLoader.DataLoadingResult T :=
  {| DataLoader.data := emptyT;
     DataLoader.errors :=
       [str "Failed to load " ++ dataSource ++ str " after "
        ++ num_to_string retries ++ str " attempts: " ++ message];
     DataLoader.warnings := [] |}.

(** The result of a load served from the cache. *)
Definition cached_result {T} (cached : T) : DataLoader.DataLoadingResult T :=
  {| DataLoader.data := cached; DataLoader.errors := [];
     DataLoader.warnings := [str "Data loaded from cache"] |}.

(** The options of [loadCSVData] with their defaults. *)
Definition cacheKey_of (dataSource : jsstring)
    (o : DataLoader.load_options) : jsstring :=
  default dataSource (DataLoader.opt_cacheKey o).
Definition retries_of (o : DataLoader.load_options) : Z :=
  default 3 (DataLoader.opt_retries o).
Definition timeout_of (o : DataLoader.load_options) : Z :=
  default 30000 (DataLoader.opt_timeout o).
Definition load_skip_of (o : DataLoader.load_options) : Z :=
  default 0 (DataLoader.opt_skipHeaderLines o).

(** A manager that has loaded nothing and has no subscriber. *)
Definition empty_manager (T : Type) : DataLoader.manager T :=
  {| DataLoader.loadingStates := ∅; DataLoader.dataCache := ∅;
     DataLoader.listeners := ∅; DataLoader.trace := [] |}.

(** A world in which every fetch is rejected with the same error. *)
Definition offline (message : jsstring) : DataLoader.environment :=
  {| DataLoader.fetch := fun _ => inl (DataLoader.ErrorObject message);
     DataLoader.now := 0 |}.


(** A string of decimal digits only. *)
Definition digits_only (s : jsstring) : Prop :=
  Forall (fun c => is_digit c = true) s.





(** The text with a carriage return put before each line feed. *)
Definition to_crlf (csvText : jsstring) : jsstring :=
  flat_map (fun c => if (c =? LF)%N then [CR; LF] else [c]) csvText.

(** A line, or the line followed by a carriage return. *)
Definition crlf_variant (line' line : jsstring) : Prop :=
  line' = line \/ line' = line ++ [CR].

(** The document of the quoted lines of a header and rows. *)
Definition build_document (d q : char) (records : list (list jsstring))
    : jsstring :=
  join [LF] (List.map (build_line d q) records).

(** A character a cleaned field can hold: a word character, the plain
    space, or one of [-], [.], [(] and [)]. *)
Definition clean_char (c : char) : bool :=
  (is_word c || (c =? 32) || (c =? 45) || (c =? 46) || (c =? 40)
   || (c =? 41))%N.

(** A character a normalized name can hold: a word character or the plain
    space. *)
Definition plain_char (c : char) : bool := (is_word c || (c =? 32))%N.

(** No white space at either end. *)
Definition trimmed (s : jsstring) : Prop := trim s = s.

(** No two units of white space in a row. *)
Fixpoint single_spaced (s : jsstring) : bool :=
  match s with
  | c :: r =>
      match r with
      | c2 :: _ => negb (is_ws c && is_ws c2) && single_spaced r
      | [] => true
      end
  | [] => true
  end.

(** The listeners subscribed to a data source, in the order of their
    subscription. *)
Definition listeners_of {T} (m : DataLoader.manager T)
    (dataSource : jsstring) : list DataLoader.listener :=
  default [] (DataLoader.listeners m !! dataSource).

(** The notifications of a state change of a data source. *)
Definition notifications {T} (m : DataLoader.manager T)
    (dataSource : jsstring) (state : DataLoader.DataLoadingState)
    : list DataLoader.event :=
  List.map (fun l => DataLoader.Notified l state) (listeners_of m dataSource).

(** The states a listener was called with in a trace, in order. *)
Definition notified_to (l : DataLoader.listener)
    (tr : list DataLoader.event) : list DataLoader.DataLoadingState :=
  flat_map
    (fun e =>
       match e with
       | DataLoader.Notified l' state =>
           if Nat.eqb l' l then [state] else []
       | _ => []
       end) tr.

(** The delays waited in a trace, in order. *)
Definition waits (tr : list DataLoader.event) : list Z :=
  flat_map
    (fun e => match e with DataLoader.Waited ms => [ms] | _ => [] end) tr.

(** The delays of a linear backoff: 1000 times the number of the attempt,
    for [n] attempts from [attempt] on. *)
Fixpoint backoff (attempt : Z) (n : nat) : list Z :=
  match n with
  | O => []
  | S n' => 1000 * attempt :: backoff (attempt + 1) n'
  end.

(** What [n] failed attempts from [attempt] on, none of them the last,
    leave in the trace: a fetch and a wait each. *)
Fixpoint failed_attempts (url : jsstring) (timeout : Z) (attempt : Z)
    (n : nat) : list DataLoader.event :=
  match n with
  | O => []
  | S n' =>
      DataLoader.Fetched url timeout :: DataLoader.Waited (1000 * attempt)
      :: failed_attempts url timeout (attempt + 1) n'
  end.

(** The state of a source that is being loaded. *)
Definition loading_state : DataLoader.DataLoadingState :=
  {| DataLoader.isLoading := true; DataLoader.isLoaded := false;
     DataLoader.error := None; DataLoader.lastUpdated := None |}.

(** The options [loadCSVData] passes to [parseCSV]. *)
Definition loader_parse_options (skipHeaderLines : Z) : CSVParseOptions :=
  {| skipEmptyLines := Some true; skipHeaderLines := Some skipHeaderLines;
     delimiter := None; quoteChar := None; trimFields := Some true |}.

(** The warning [loadCSVData] adds for a parse result with errors. *)
Definition parse_warnings (parseResult : CSVParseResult) : list jsstring :=
  if (0 <? length (errors parseResult))%nat then
    [str "CSV parsing completed with "
     ++ num_to_string (Z.of_nat (length (errors parseResult)))
     ++ str " errors"]
  else [].

(** An attempt that fails before the text is parsed: the fetch is
    rejected, the response is not ok, reading the body fails, or the body
    is blank. The value is what the attempt throws. *)
Definition transport_failure (env : DataLoader.environment) (attempt : Z)
    : option DataLoader.thrown :=
  match DataLoader.fetch env attempt with
  | inl e => Some e
  | inr resp =>
      if negb (DataLoader.ok resp) then
        Some (DataLoader.ErrorObject
                (str "HTTP " ++ num_to_string (DataLoader.status resp)
                 ++ str ": " ++ DataLoader.statusText resp))
      else
        match DataLoader.text resp with
        | inl e => Some e
        | inr csvText =>
            if is_empty (trim csvText) then
              Some (DataLoader.ErrorObject (str "Empty CSV file received"))
            else None
        end
  end.

(** An attempt whose fetch brings the text [csvText]. *)
Definition fetches_text (env : DataLoader.environment) (attempt : Z)
    (csvText : jsstring) : Prop :=
  exists resp,
    DataLoader.fetch env attempt = inr resp
    /\ DataLoader.ok resp = true
    /\ DataLoader.text resp = inr csvText
    /\ is_empty (trim csvText) = false.

(** The manager with events added to its trace. *)
Definition add_events {T} (events : list DataLoader.event)
    (m : DataLoader.manager T) : DataLoader.manager T :=
  {| DataLoader.loadingStates := DataLoader.loadingStates m;
     DataLoader.dataCache := DataLoader.dataCache m;
     DataLoader.listeners := DataLoader.listeners m;
     DataLoader.trace := DataLoader.trace m ++ events |}.

(** What a call on a data source with a cache key leaves alone: the
    listeners, the states of the other sources, the cache under the other
    keys, and the trace so far. *)
Definition frame {T} (dataSource cacheKey : jsstring)
    (m m' : DataLoader.manager T) : Prop :=
  DataLoader.listeners m' = DataLoader.listeners m
  /\ (forall other, other <> dataSource ->
        DataLoader.loadingStates m' !! other =
        DataLoader.loadingStates m !! other)
  /\ (forall other, other <> cacheKey ->
        DataLoader.dataCache m' !! other = DataLoader.dataCache m !! other)
  /\ exists events, DataLoader.trace m' = DataLoader.trace m ++ events.

(** The numbers of [n] attempts from [attempt] on. *)
Fixpoint attempts_from (attempt : Z) (n : nat) : list Z :=
  match n with
  | O => []
  | S n' => attempt :: attempts_from (attempt + 1) n'
  end.

(** An attempt that throws. [text] tells where: [None] before the text is
    parsed, [Some csvText] in the parser given the parse result of the
    text fetched. *)
Definition attempt_fails {T} (env : DataLoader.environment)
    (parser : CSVParseResult -> DataLoader.thrown + T)
    (skipHeaderLines : Z) (attempt : Z) (text : option jsstring) : Prop :=
  match text with
  | None => is_Some (transport_failure env attempt)
  | Some csvText =>
      fetches_text env attempt csvText
      /\ exists e,
           parser (parseCSV csvText (loader_parse_options skipHeaderLines))
           = inl e
  end.

(** The parse errors and the warning an attempt adds to the local arrays
    of [loadCSVData], given the text it parsed, if any. *)
Definition errors_added (skipHeaderLines : Z) (text : option jsstring)
    : list jsstring :=
  match text with
  | Some csvText =>
      errors (parseCSV csvText (loader_parse_options skipHeaderLines))
  | None => []
  end.

Definition warnings_added (skipHeaderLines : Z) (text : option jsstring)
    : list jsstring :=
  match text with
  | Some csvText =>
      parse_warnings
        (parseCSV csvText (loader_parse_options skipHeaderLines))
  | None => []
  end.

(** A world for two attempts: the first fetch brings a text with a short
    row, the later ones a text without. *)
Definition second_time_lucky : DataLoader.environment :=
  {| DataLoader.fetch := fun attempt =>
       inr {| DataLoader.ok := true; DataLoader.status := 200;
              DataLoader.statusText := str "OK";
              DataLoader.text :=
                inr (if attempt =? 1 then str "a,b" ++ [LF] ++ str "1"
                     else str "a,b" ++ [LF] ++ str "1,2") |};
     DataLoader.now := 7 |}.

(** A parser that counts the rows and throws when there are parse
    errors. *)
Definition strict_count (parseResult : CSVParseResult)
    : DataLoader.thrown + nat :=
  if (0 <? length (errors parseResult))%nat then inl DataLoader.OtherValue
  else inr (length (rows parseResult)).

(** A name that the object does not have for own property and inherits:
    reading it finds a member of [Object.prototype]. *)
Definition reads_inherited {V} (o : gmap jsstring V) (key : jsstring)
    : bool :=
  match o !! key with
  | Some _ => false
  | None => JSObject.inherited key
  end.

(** A row the Mandal row parser takes in: ten columns at least, and a
    zone, an org district, an AC and a mandal that are not empty once
    cleaned. *)
Definition row_accepted (row : list jsstring) : bool :=
  negb (length row <? 10)%nat
  && negb (is_empty (cleanDataField (row !! 0%nat))
           || is_empty (cleanDataField (row !! 1%nat))
           || is_empty (cleanDataField (row !! 2%nat))
           || is_empty (cleanDataField (row !! 3%nat))).

(** The normalized zone, org district and AC of a row. *)
Definition row_key
    (normalizeZoneName normalizeOrgDistrictName normalizeACName :
       jsstring -> jsstring)
    (row : list jsstring) : jsstring * jsstring * jsstring :=
  (normalizeZoneName (cleanDataField (row !! 0%nat)),
   normalizeOrgDistrictName (cleanDataField (row !! 1%nat)),
   normalizeACName (cleanDataField (row !! 2%nat))).

(** The accepted rows with a given key, in their order. *)
Definition rows_at
    (normalizeZoneName normalizeOrgDistrictName normalizeACName :
       jsstring -> jsstring)
    (rows : list (list jsstring)) (zone org ac : jsstring)
    : list (list jsstring) :=
  List.filter
    (fun row =>
       row_accepted row
       && bool_decide
            (row_key normalizeZoneName normalizeOrgDistrictName
               normalizeACName row = (zone, org, ac)))
    rows.

(** A key none of whose three names is a member of [Object.prototype]. *)
Definition plain_key (key : jsstring * jsstring * jsstring) : bool :=
  negb (JSObject.inherited (fst (fst key)))
  && negb (JSObject.inherited (snd (fst key)))
  && negb (JSObject.inherited (snd key)).

(** Rows of which the accepted ones have plain keys. *)
Definition rows_plain
    (normalizeZoneName normalizeOrgDistrictName normalizeACName :
       jsstring -> jsstring)
    (rows : list (list jsstring)) : bool :=
  forallb
    (fun row =>
       implb (row_accepted row)
         (plain_key
            (row_key normalizeZoneName normalizeOrgDistrictName
               normalizeACName row)))
    rows.

(** The entries that the own properties of the data hold under a key. *)
Definition own_entries (data : MandalVoteShare.MandalVoteShareData)
    (zone org ac : jsstring) : list MandalVoteShare.MandalEntry :=
  default [] (default ∅ (default ∅ (data !! zone) !! org) !! ac).

(** The Mandal module before anything is loaded. *)
Definition fresh_module : MandalVoteShare.module_state :=
  {| MandalVoteShare.mandalVoteShareDataCache := None;
     MandalVoteShare.dataLoadingManager :=
       empty_manager MandalVoteShare.loaded_data |}.

(** A world in which every fetch brings the same text. *)
Definition serving (csvText : jsstring) : DataLoader.environment :=
  {| DataLoader.fetch := fun _ =>
       inr {| DataLoader.ok := true; DataLoader.status := 200;
              DataLoader.statusText := str "OK";
              DataLoader.text := inr csvText |};
     DataLoader.now := 0 |}.

(** A Mandal file: two lines of titles, the header line, and three rows,
    the second one without a mandal. *)
Definition mandal_file : jsstring :=
  str "Vote share" ++ [LF] ++ str "2025" ++ [LF]
  ++ str "Zone,Org District,AC,Org Mandal,a,b,c,d,e,f" ++ [LF]
  ++ str "North,Kannur,Dharmadam,Pinarayi,12.5%,100,20%,,30%,300" ++ [LF]
  ++ str "North,Kannur,Dharmadam,,1%,1,1%,1,1%,1" ++ [LF]
  ++ str "North,Kannur,Dharmadam,Vengad,10%,80,15%,90,25%,200".

(** The same with a header line of two columns. *)
Definition narrow_file : jsstring :=
  str "Vote share" ++ [LF] ++ str "2025" ++ [LF]
  ++ str "Zone,Org District" ++ [LF]
  ++ str "North,Kannur,Dharmadam,Pinarayi,12.5%,100,20%,,30%,300".

(** ** Properties of the line tokenizer *)

Section Tokenizer.

Variables delim quote : jsstring.

Lemma char_is_true (c : char) (s : jsstring) :
  char_is c s = true <-> s = [c].
Proof.
  unfold char_is, str_eqb. rewrite bool_decide_eq_true. split; congruence.
Qed.

Lemma char_is_single (c q : char) : char_is c [q] = (c =? q)%N.
Proof.
  destruct (N.eqb_spec c q) as [->|Hne].
  - apply char_is_true. reflexivity.
  - destruct (char_is c [q]) eqn:E; [|reflexivity].
    apply char_is_true in E. congruence.
Qed.

Lemma finish_nil (tf : bool) : finish tf [] = [].
Proof. destruct tf; reflexivity. Qed.

(** Induction over a line the way [scan] consumes it: one unit at a time,
    or two for an escaped quote. *)
Lemma line_ind (P : jsstring -> Prop) :
  P [] ->
  (forall c rest,
      P rest -> (forall n rest2, rest = n :: rest2 -> P rest2) ->
      P (c :: rest)) ->
  forall line, P line.
Proof.
  intros Hnil Hcons line.
  assert (H : P line /\ (forall n rest2, line = n :: rest2 -> P rest2)).
  { induction line as [|c rest [IH1 IH2]].
    - split; [exact Hnil | discriminate].
    - split.
      + apply Hcons; assumption.
      + intros n rest2 Heq. injection Heq as _ <-. exact IH1. }
  exact (proj1 H).
Qed.

(** One step on an opening quote. *)
Lemma scan_open (tf : bool) (c : char) (rest : jsstring) (st : scan_state) :
  char_is c quote = true -> inQuotes st = false ->
  scan delim quote tf (c :: rest) st =
  scan delim quote tf rest
    {| fields := fields st; currentField := currentField st;
       inQuotes := true |}.
Proof.
  intros Hq Hin. simpl. rewrite Hq, Hin. destruct rest; reflexivity.
Qed.

(** One step on a quote that is not followed by another quote. *)
Lemma scan_toggle (tf : bool) (c : char) (rest : jsstring)
    (st : scan_state) :
  char_is c quote = true ->
  match rest with [] => True | n :: _ => char_is n quote = false end ->
  scan delim quote tf (c :: rest) st =
  scan delim quote tf rest
    {| fields := fields st; currentField := currentField st;
       inQuotes := negb (inQuotes st) |}.
Proof.
  intros Hq Hnext. simpl. rewrite Hq. destruct rest as [|n rest2].
  - reflexivity.
  - rewrite Hnext, andb_false_r. reflexivity.
Qed.

(** One step on a unit that is not the quote character, inside quotes. *)
Lemma scan_quoted_unit (tf : bool) (c : char) (rest : jsstring)
    (st : scan_state) :
  char_is c quote = false -> inQuotes st = true ->
  scan delim quote tf (c :: rest) st =
  scan delim quote tf rest
    {| fields := fields st; currentField := currentField st ++ [c];
       inQuotes := true |}.
Proof.
  intros Hq Hin. simpl. rewrite Hq, Hin, andb_false_r. reflexivity.
Qed.

(** A run of units without the quote character, read inside quotes, goes
    to the buffer as it is: delimiters included. *)
Lemma scan_quoted_run (tf : bool) (body rest : jsstring) :
  Forall (fun c => char_is c quote = false) body ->
  forall st, inQuotes st = true ->
  scan delim quote tf (body ++ rest) st =
  scan delim quote tf rest
    {| fields := fields st; currentField := currentField st ++ body;
       inQuotes := true |}.
Proof.
  induction 1 as [|c body Hc _ IH]; intros st Hin.
  - simpl. rewrite app_nil_r. destruct st; simpl in *; subst; reflexivity.
  - change ((c :: body) ++ rest) with (c :: (body ++ rest)).
    rewrite scan_quoted_unit by assumption.
    rewrite IH by reflexivity. simpl. rewrite <- app_assoc. reflexivity.
Qed.

(** The fields pushed before a scan starts stay in front, and do not
    influence the rest of the scan. *)
Lemma scan_frame (tf : bool) (rest : jsstring) :
  forall (front : list jsstring) (st : scan_state),
  scan delim quote tf rest
    {| fields := front ++ fields st; currentField := currentField st;
       inQuotes := inQuotes st |} =
  let st' := scan delim quote tf rest st in
  {| fields := front ++ fields st'; currentField := currentField st';
     inQuotes := inQuotes st' |}.
Proof.
  induction rest as [|c rest IH1 IH2] using line_ind; intros front st.
  - reflexivity.
  - simpl. destruct (char_is c quote).
    + destruct rest as [|n rest2].
      * reflexivity.
      * destruct (inQuotes st && char_is n quote).
        -- apply (IH2 n rest2 eq_refl front
                    {| fields := fields st;
                       currentField := currentField st ++ quote;
                       inQuotes := inQuotes st |}).
        -- apply (IH1 front
                    {| fields := fields st;
                       currentField := currentField st;
                       inQuotes := negb (inQuotes st) |}).
    + destruct (char_is c delim && negb (inQuotes st)).
      * rewrite <- app_assoc.
        apply (IH1 front
                 {| fields := fields st ++ [finish tf (currentField st)];
                    currentField := []; inQuotes := inQuotes st |}).
      * apply (IH1 front
                 {| fields := fields st;
                    currentField := currentField st ++ [c];
                    inQuotes := inQuotes st |}).
Qed.

(** The number of fields pushed by a scan. *)
Lemma scan_fields_length (tf : bool) (rest : jsstring) :
  forall st,
  length (fields (scan delim quote tf rest st)) =
  (length (fields st)
   + unquoted_delimiters delim quote rest (inQuotes st))%nat.
Proof.
  induction rest as [|c rest IH1 IH2] using line_ind; intros st.
  - simpl. lia.
  - simpl. destruct (char_is c quote).
    + destruct rest as [|n rest2].
      * simpl. lia.
      * destruct (inQuotes st && char_is n quote).
        -- rewrite (IH2 n rest2 eq_refl). reflexivity.
        -- rewrite IH1. reflexivity.
    + destruct (char_is c delim && negb (inQuotes st)).
      * rewrite IH1. simpl. rewrite length_app. simpl. lia.
      * rewrite IH1. reflexivity.
Qed.

(** A unit that is not the quote character, appended to a line, is read
    after the scan of the line, in the state that scan ends in. *)
Lemma scan_snoc (tf : bool) (c : char) (line : jsstring) :
  char_is c quote = false ->
  forall st,
  scan delim quote tf (line ++ [c]) st =
  scan delim quote tf [c] (scan delim quote tf line st).
Proof.
  intros Hc.
  induction line as [|c0 rest IH1 IH2] using line_ind; intros st.
  - reflexivity.
  - change ((c0 :: rest) ++ [c]) with (c0 :: (rest ++ [c])).
    destruct (char_is c0 quote) eqn:Hq0.
    + destruct rest as [|n rest2].
      * rewrite (scan_toggle tf c0 ([] ++ [c])); [|assumption|exact Hc].
        rewrite (scan_toggle tf c0 []); [|assumption|exact I].
        reflexivity.
      * cbn [app scan]. rewrite Hq0.
        destruct (inQuotes st && char_is n quote).
        -- apply (IH2 n rest2 eq_refl).
        -- apply IH1.
    + cbn [scan]. rewrite Hq0.
      destruct (char_is c0 delim && negb (inQuotes st)); apply IH1.
Qed.

(** With [trimFields] the scan goes the same way, and pushes the trimmed
    forms of the same fields. *)
Lemma scan_trimmed (rest : jsstring) :
  forall st,
  scan delim quote true rest
    {| fields := List.map trim (fields st);
       currentField := currentField st; inQuotes := inQuotes st |} =
  let st' := scan delim quote false rest st in
  {| fields := List.map trim (fields st');
     currentField := currentField st'; inQuotes := inQuotes st' |}.
Proof.
  induction rest as [|c rest IH1 IH2] using line_ind; intros st.
  - reflexivity.
  - simpl. destruct (char_is c quote).
    + destruct rest as [|n rest2].
      * reflexivity.
      * destruct (inQuotes st && char_is n quote).
        -- apply (IH2 n rest2 eq_refl
                    {| fields := fields st;
                       currentField := currentField st ++ quote;
                       inQuotes := inQuotes st |}).
        -- apply (IH1 {| fields := fields st;
                         currentField := currentField st;
                         inQuotes := negb (inQuotes st) |}).
    + destruct (char_is c delim && negb (inQuotes st)).
      * pose proof (IH1 {| fields := fields st ++ [currentField st];
                            currentField := [];
                            inQuotes := inQuotes st |}) as H.
        simpl in H. rewrite List.map_app in H. exact H.
      * apply (IH1 {| fields := fields st;
                      currentField := currentField st ++ [c];
                      inQuotes := inQuotes st |}).
Qed.

Lemma parseCSVLine_trimmed (line : jsstring) :
  parseCSVLine line delim quote true =
  List.map trim (parseCSVLine line delim quote false).
Proof.
  unfold parseCSVLine.
  pose proof (scan_trimmed line scan_init) as H. simpl in H.
  change {| fields := []; currentField := []; inQuotes := false |}
    with scan_init in H.
  rewrite H. simpl. rewrite List.map_app. reflexivity.
Qed.

End Tokenizer.

Lemma no_delimiter_none_unquoted (delimiter quoteChar line : jsstring) :
  Forall (fun c => char_is c delimiter = false) line ->
  forall inQ, unquoted_delimiters delimiter quoteChar line inQ = O.
Proof.
  induction line as [|c rest IH1 IH2] using line_ind; intros Hall inQ.
  - reflexivity.
  - apply Forall_cons_iff in Hall as [Hc Hrest]. simpl.
    destruct (char_is c quoteChar).
    + destruct rest as [|n rest2]; [reflexivity|].
      destruct (inQ && char_is n quoteChar).
      * apply (IH2 n rest2 eq_refl).
        apply Forall_cons_iff in Hrest as [_ Hrest2]. exact Hrest2.
      * apply IH1. exact Hrest.
    + rewrite Hc. simpl. apply IH1. exact Hrest.
Qed.

Lemma scan_unterminated (delimiter quoteChar : jsstring) (tf : bool)
    (c : char) (body : jsstring) :
  char_is c quoteChar = true ->
  Forall (fun b => char_is b quoteChar = false) body ->
  scan_line (c :: body) delimiter quoteChar tf =
  {| fields := []; currentField := body; inQuotes := true |}.
Proof.
  intros Hc Hbody. unfold scan_line.
  rewrite scan_open by (assumption || reflexivity).
  rewrite <- (app_nil_r body) at 1.
  rewrite scan_quoted_run by (assumption || reflexivity).
  reflexivity.
Qed.

(** C6, as amended. [parseCSVLine] emits the buffered field at the end of
    the line whatever the state of the scan: the result is never empty and
    its last field is the flushed buffer; the number of fields is one more
    than the number of delimiters met outside quotes, so a line with none
    of them (in particular a line without the delimiter) yields exactly one
    field; a line ending in a delimiter read outside quotes, the delimiter
    not being the quote character, yields the fields of the line before it
    and a trailing empty field; and a line that opens a quote and never
    closes it ends the scan inside quotes and yields the buffered text as
    its one field. *)
Theorem parseCSVLine_emits_final_field
    (line delimiter quoteChar : jsstring) (trimFields : bool) :
  let st := scan_line line delimiter quoteChar trimFields in
  parseCSVLine line delimiter quoteChar trimFields =
    fields st ++ [finish trimFields (currentField st)]
  /\ length (parseCSVLine line delimiter quoteChar trimFields) =
     S (unquoted_delimiters delimiter quoteChar line false)
  /\ (unquoted_delimiters delimiter quoteChar line false = O ->
      parseCSVLine line delimiter quoteChar trimFields =
        [finish trimFields (currentField st)])
  /\ (Forall (fun c => char_is c delimiter = false) line ->
      length (parseCSVLine line delimiter quoteChar trimFields) = 1%nat)
  /\ (forall c,
        char_is c delimiter = true -> char_is c quoteChar = false ->
        inQuotes st = false ->
        parseCSVLine (line ++ [c]) delimiter quoteChar trimFields =
          parseCSVLine line delimiter quoteChar trimFields ++ [[]])
  /\ (forall c body,
        char_is c quoteChar = true ->
        Forall (fun b => char_is b quoteChar = false) body ->
        inQuotes (scan_line (c :: body) delimiter quoteChar trimFields)
          = true
        /\ parseCSVLine (c :: body) delimiter quoteChar trimFields =
             [finish trimFields body]).
Proof.
  intros st.
  assert (Hlen : length (parseCSVLine line delimiter quoteChar trimFields) =
                 S (unquoted_delimiters delimiter quoteChar line false)).
  { unfold parseCSVLine. rewrite length_app, scan_fields_length.
    simpl. lia. }
  split; [reflexivity|]. split; [exact Hlen|]. split; [|split; [|split]].
  - intros Hzero. unfold parseCSVLine. fold (scan_line line delimiter
      quoteChar trimFields). fold st.
    pose proof (scan_fields_length delimiter quoteChar trimFields line
                  scan_init) as Hf.
    fold (scan_line line delimiter quoteChar trimFields) in Hf. fold st in Hf.
    simpl in Hf. rewrite Hzero in Hf.
    destruct (fields st); [reflexivity | discriminate].
  - intros Hnone. rewrite Hlen.
    rewrite no_delimiter_none_unquoted by assumption. reflexivity.
  - intros c Hd Hq Hin. unfold parseCSVLine.
    rewrite scan_snoc by assumption.
    fold (scan_line line delimiter quoteChar trimFields). fold st.
    simpl. rewrite Hq, Hd, Hin. simpl.
    rewrite finish_nil. reflexivity.
  - intros c body Hc Hbody.
    pose proof (scan_unterminated delimiter quoteChar trimFields c body
                  Hc Hbody) as Hs.
    split.
    + rewrite Hs. reflexivity.
    + unfold parseCSVLine. fold (scan_line (c :: body) delimiter quoteChar
        trimFields). rewrite Hs. reflexivity.
Qed.

Lemma parseCSVLine_emits_final_field_witness :
  (* a line without the delimiter, with a quote that is never closed *)
  parseCSVLine (DQUOTE :: str "a;b") (str ",") [DQUOTE] false = [str "a;b"]
  (* a line ending in a delimiter outside quotes *)
  /\ parseCSVLine (str "a,b" ++ [44%N]) (str ",") [DQUOTE] false =
       [str "a"; str "b"; []].
Proof.
  split.
  - pose proof (parseCSVLine_emits_final_field (DQUOTE :: str "a;b")
                  (str ",") [DQUOTE] false) as H.
    cbv zeta in H. destruct H as (_ & _ & _ & _ & _ & H).
    apply (H DQUOTE (str "a;b")); [reflexivity|]. repeat constructor.
  - pose proof (parseCSVLine_emits_final_field (str "a,b") (str ",")
                  [DQUOTE] false) as H.
    cbv zeta in H. destruct H as (_ & _ & _ & _ & H & _).
    apply (H 44%N); reflexivity.
Defined.

(** C6 as stated fails when the delimiter is the quote character: the
    quote is tested first, so the delimiter that ends the line is read as
    a quote and no empty field follows. *)
Lemma trailing_delimiter_counterexample :
  inQuotes (scan_line (str "a") (str ",") (str ",") false) = false
  /\ parseCSVLine (str "a,") (str ",") (str ",") false = [str "a"]
  /\ parseCSVLine (str "a,") (str ",") (str ",") false <>
     parseCSVLine (str "a") (str ",") (str ",") false ++ [[]].
Proof. repeat split; vm_compute; discriminate. Qed.

(** C7. With [trimFields] every field is trimmed as a whole after the
    quotes are removed: the fields are the trimmed forms of the fields
    tokenized without [trimFields], so white space enclosed in quotes is
    not kept. A quoted text without the quote character yields the trimmed
    text, and the quoted field made of a space, an [a] and a space yields
    [a] with [trimFields] and the three characters without. *)
Theorem trimFields_trims_inside_quotes (line delimiter quoteChar : jsstring) :
  parseCSVLine line delimiter quoteChar true =
    List.map trim (parseCSVLine line delimiter quoteChar false)
  /\ (forall c body,
        char_is c quoteChar = true ->
        Forall (fun b => char_is b quoteChar = false) body ->
        parseCSVLine (c :: body ++ [c]) delimiter quoteChar true =
          [trim body]
        /\ parseCSVLine (c :: body ++ [c]) delimiter quoteChar false =
             [body])
  /\ (forall q : char,
        q <> 32%N -> q <> 97%N ->
        parseCSVLine (q :: str " a " ++ [q]) delimiter [q] true = [str "a"]
        /\ parseCSVLine (q :: str " a " ++ [q]) delimiter [q] false =
             [str " a "]).
Proof.
  assert (Hquoted : forall (q : jsstring) tf c body,
            char_is c q = true ->
            Forall (fun b => char_is b q = false) body ->
            parseCSVLine (c :: body ++ [c]) delimiter q tf =
              [finish tf body]).
  { intros q tf c body Hc Hbody. unfold parseCSVLine.
    rewrite scan_open by (assumption || reflexivity).
    rewrite scan_quoted_run by (assumption || reflexivity).
    rewrite scan_toggle by (assumption || exact I). reflexivity. }
  split; [apply parseCSVLine_trimmed|]. split.
  - intros c body Hc Hbody. split; apply Hquoted; assumption.
  - intros q Hsp Ha.
    assert (Hbody : Forall (fun b => char_is b [q] = false) (str " a ")).
    { assert (Hne : forall b, b <> q -> char_is b [q] = false).
      { intros b Hb. rewrite char_is_single. apply N.eqb_neq. exact Hb. }
      change (str " a ") with [32%N; 97%N; 32%N].
      repeat (apply List.Forall_cons; [apply Hne; congruence|]).
      apply List.Forall_nil. }
    assert (Hq : char_is q [q] = true) by (apply char_is_true; reflexivity).
    split; rewrite (Hquoted [q] _ q (str " a ") Hq Hbody); reflexivity.
Qed.

Lemma trimFields_trims_inside_quotes_witness :
  parseCSVLine (DQUOTE :: str " a " ++ [DQUOTE]) (str ",") [DQUOTE] true =
    [str "a"]
  /\ parseCSVLine (DQUOTE :: str " a " ++ [DQUOTE]) (str ",") [DQUOTE] false =
    [str " a "].
Proof.
  pose proof (trimFields_trims_inside_quotes [] (str ",") [DQUOTE])
    as (_ & _ & H).
  apply (H DQUOTE); discriminate.
Defined.

(** *** Round trip through a quoted line *)

Section RoundTrip.

Variables (d q : char) (tf : bool).
Hypothesis d_not_q : d <> q.

Lemma scan_escaped (field rest : jsstring) :
  forall st, inQuotes st = true ->
  scan [d] [q] tf (escape_quotes q field ++ rest) st =
  scan [d] [q] tf rest
    {| fields := fields st; currentField := currentField st ++ field;
       inQuotes := true |}.
Proof.
  induction field as [|c field IH]; intros st Hin.
  - simpl. rewrite app_nil_r. destruct st; simpl in *; subst; reflexivity.
  - unfold escape_quotes. cbn [flat_map]. fold (escape_quotes q field).
    destruct (N.eqb_spec c q) as [->|Hne].
    + cbn [app scan]. rewrite char_is_single, N.eqb_refl, Hin. cbn [andb].
      rewrite IH by reflexivity. cbn. rewrite <- app_assoc. reflexivity.
    + cbn [app]. rewrite scan_quoted_unit.
      * rewrite IH by reflexivity. cbn. rewrite <- app_assoc. reflexivity.
      * rewrite char_is_single. apply N.eqb_neq. exact Hne.
      * exact Hin.
Qed.

Lemma scan_quote_field (field rest : jsstring) :
  match rest with [] => True | n :: _ => n <> q end ->
  forall st, inQuotes st = false ->
  scan [d] [q] tf (quote_field q field ++ rest) st =
  scan [d] [q] tf rest
    {| fields := fields st; currentField := currentField st ++ field;
       inQuotes := false |}.
Proof.
  intros Hrest st Hin. unfold quote_field.
  change ((q :: escape_quotes q field ++ [q]) ++ rest)
    with (q :: ((escape_quotes q field ++ [q]) ++ rest)).
  rewrite <- app_assoc.
  rewrite scan_open; [|apply char_is_true; reflexivity|exact Hin].
  rewrite scan_escaped by reflexivity.
  cbn [app]. rewrite scan_toggle.
  - reflexivity.
  - apply char_is_true. reflexivity.
  - destruct rest as [|n rest']; [exact I|].
    rewrite char_is_single. apply N.eqb_neq. exact Hrest.
Qed.

Lemma build_line_cons (f g : jsstring) (fs : list jsstring) :
  build_line d q (f :: g :: fs) =
  quote_field q f ++ d :: build_line d q (g :: fs).
Proof. reflexivity. Qed.

Lemma scan_build_line (fs : list jsstring) :
  forall f front,
  let st := scan [d] [q] tf (build_line d q (f :: fs))
              {| fields := front; currentField := [];
                 inQuotes := false |} in
  fields st ++ [finish tf (currentField st)] =
  front ++ List.map (finish tf) (f :: fs).
Proof.
  induction fs as [|g fs IH]; intros f front.
  - cbn zeta. change (build_line d q [f]) with (quote_field q f).
    rewrite <- (app_nil_r (quote_field q f)).
    rewrite scan_quote_field by (exact I || reflexivity). reflexivity.
  - cbn zeta. rewrite build_line_cons.
    rewrite scan_quote_field by (exact d_not_q || reflexivity).
    cbn [scan fields currentField inQuotes app].
    rewrite char_is_single.
    replace (d =? q)%N with false by (symmetry; apply N.eqb_neq, d_not_q).
    rewrite char_is_single, N.eqb_refl. cbn [andb negb].
    specialize (IH g (front ++ [finish tf f])). cbn zeta in IH.
    rewrite IH. rewrite <- app_assoc. reflexivity.
Qed.

End RoundTrip.

(** C2, as amended. For a delimiter other than the quote character and a
    sequence of at least one field, the line of the quoted fields (quote
    characters doubled) joined with the delimiter tokenizes to the fields
    themselves without [trimFields], and to the trimmed fields with it. *)
Theorem quoted_line_round_trip (d q : char) (fs : list jsstring) :
  d <> q -> fs <> [] ->
  parseCSVLine (build_line d q fs) [d] [q] false = fs
  /\ parseCSVLine (build_line d q fs) [d] [q] true = List.map trim fs.
Proof.
  intros Hdq Hfs. destruct fs as [|f fs]; [congruence|].
  split; unfold parseCSVLine, scan_init.
  - rewrite (scan_build_line d q false Hdq fs f []).
    simpl. f_equal. apply List.map_id.
  - rewrite (scan_build_line d q true Hdq fs f []). reflexivity.
Qed.

Lemma quoted_line_round_trip_witness :
  parseCSVLine (build_line 44%N DQUOTE [str "a,b"; [DQUOTE]; str " c "])
    [44%N] [DQUOTE] false = [str "a,b"; [DQUOTE]; str " c "].
Proof.
  apply (quoted_line_round_trip 44%N DQUOTE
           [str "a,b"; [DQUOTE]; str " c "]); discriminate.
Defined.

(** C2 as stated fails: the line built from no field tokenizes to one empty
    field; with [trimFields] a field loses its surrounding white space; and
    when the delimiter is the quote character two fields merge into one. *)
Lemma round_trip_counterexample :
  parseCSVLine (build_line 44%N DQUOTE []) [44%N] [DQUOTE] false <> []
  /\ parseCSVLine (build_line 44%N DQUOTE [str " a "]) [44%N] [DQUOTE] true
     <> [str " a "]
  /\ parseCSVLine (build_line DQUOTE DQUOTE [str "a"; str "b"])
       [DQUOTE] [DQUOTE] false <> [str "a"; str "b"].
Proof. repeat split; vm_compute; discriminate. Qed.

(** ** Properties of the document parser *)

Lemma push_empty_eq (gap : nat) :
  forall row, push_empty gap row = row ++ repeat [] gap.
Proof.
  induction gap as [|gap IH]; intros row; simpl.
  - rewrite app_nil_r. reflexivity.
  - rewrite IH, <- app_assoc. reflexivity.
Qed.

Lemma fit_row_exact (n : nat) (row : list jsstring) :
  length row = n -> fit_row n row = row.
Proof.
  intros <-. unfold fit_row. rewrite Nat.sub_diag. simpl.
  rewrite Nat.ltb_irrefl. reflexivity.
Qed.

Lemma fit_row_pad (n : nat) (row : list jsstring) :
  (length row <= n)%nat -> fit_row n row = row ++ repeat [] (n - length row).
Proof.
  intros Hle. unfold fit_row. rewrite push_empty_eq.
  rewrite length_app, repeat_length.
  replace (n <? length row + (n - length row))%nat with false; [reflexivity|].
  symmetry. apply Nat.ltb_ge. lia.
Qed.

Lemma fit_row_truncate (n : nat) (row : list jsstring) :
  (n <= length row)%nat -> fit_row n row = firstn n row.
Proof.
  intros Hle. unfold fit_row.
  replace (n - length row)%nat with O by lia. simpl.
  destruct (n <? length row)%nat eqn:E; [reflexivity|].
  apply Nat.ltb_ge in E. symmetry. apply firstn_all2. exact E.
Qed.

Lemma fit_row_length (n : nat) (row : list jsstring) :
  length (fit_row n row) = n.
Proof.
  destruct (Nat.le_ge_cases (length row) n) as [Hle|Hge].
  - rewrite fit_row_pad by assumption.
    rewrite length_app, repeat_length. lia.
  - rewrite fit_row_truncate by assumption.
    rewrite length_firstn. lia.
Qed.

Lemma numbered_trim (i : Z) (rest : list jsstring) :
  List.map (fun il => (fst il, trim (snd il))) (numbered i rest) =
  numbered i (List.map trim rest).
Proof.
  revert i. induction rest as [|raw rest IH]; intros i; simpl.
  - reflexivity.
  - rewrite IH. reflexivity.
Qed.

Lemma numbered_lookup {A} (l : list A) :
  forall i0 i x, In (i, x) (numbered i0 l) ->
  i0 <= i /\ l !! Z.to_nat (i - i0) = Some x.
Proof.
  induction l as [|y l IH]; intros i0 i x Hin; simpl in Hin.
  - contradiction.
  - destruct Hin as [Heq|Hin].
    + injection Heq as <- <-. split; [lia|].
      rewrite Z.sub_diag. reflexivity.
    + apply IH in Hin as [Hle Hl]. split; [lia|].
      replace (Z.to_nat (i - i0)) with (S (Z.to_nat (i - (i0 + 1)))) by lia.
      exact Hl.
Qed.

Section ParseRows.

Variables (skipEmpty : bool) (skip : Z) (delim quote : jsstring)
  (trimF : bool) (hlen : nat).

(** The loop of [parseCSV], as a map and a filter over the lines. *)
Lemma parse_rows_spec (rest : list jsstring) :
  forall i acc,
  parse_rows skipEmpty skip delim quote trimF hlen rest i acc =
  let kept :=
    List.filter (fun il => negb (skipEmpty && is_empty (snd il)))
      (List.map (fun il => (fst il, trim (snd il))) (numbered i rest)) in
  (fst acc ++
   List.map (fun il => fit_row hlen (parseCSVLine (snd il) delim quote trimF))
     kept,
   snd acc ++
   List.map
     (fun il => column_error (fst il + skip + 1) hlen
                  (length (parseCSVLine (snd il) delim quote trimF)))
     (List.filter
        (fun il =>
           negb (length (parseCSVLine (snd il) delim quote trimF) =? hlen)%nat)
        kept)).
Proof.
  induction rest as [|raw rest IH]; intros i [rws errs].
  - simpl. rewrite !app_nil_r. reflexivity.
  - cbn [parse_rows numbered List.map List.filter fst snd]. cbv zeta.
    destruct (skipEmpty && is_empty (trim raw)); cbn [negb].
    + rewrite IH. reflexivity.
    + rewrite IH. cbv zeta. cbn [List.map List.filter fst snd].
      destruct (negb (length (parseCSVLine (trim raw) delim quote trimF)
                      =? hlen)%nat) eqn:E; cbn [fst snd List.map].
      * rewrite <- !app_assoc. reflexivity.
      * rewrite <- !app_assoc. cbn [app].
        rewrite fit_row_exact; [reflexivity|].
        apply negb_false_iff, Nat.eqb_eq in E. exact E.
Qed.

End ParseRows.

Lemma parseCSV_no_data (csvText : jsstring) (o : CSVParseOptions) :
  dataLines_of csvText o = [] -> parseCSV csvText o = no_data_result.
Proof.
  unfold dataLines_of, skipHeaderLines_of, parseCSV. intros ->. reflexivity.
Qed.

(** What [parseCSV] returns when a header line is left. *)
Lemma parseCSV_spec (csvText : jsstring) (o : CSVParseOptions)
    (firstLine : jsstring) (rest : list jsstring) :
  dataLines_of csvText o = firstLine :: rest ->
  let hlen := length (raw_row o firstLine) in
  parseCSV csvText o =
  {| headers := raw_row o firstLine;
     rows := List.map (fun il => fit_row hlen (raw_row o (snd il)))
               (data_rows csvText o);
     errors :=
       List.map
         (fun il => column_error (fst il + skipHeaderLines_of o + 1) hlen
                      (length (raw_row o (snd il))))
         (List.filter (mismatched o hlen) (data_rows csvText o)) |}.
Proof.
  intros Hdata hlen. unfold data_rows. rewrite Hdata.
  unfold dataLines_of, skipHeaderLines_of in Hdata.
  unfold parseCSV. rewrite Hdata.
  rewrite parse_rows_spec. reflexivity.
Qed.

Lemma split_length (sep : char) (s : jsstring) :
  (1 <= length (split sep s))%nat.
Proof.
  induction s as [|c s IH]; simpl.
  - lia.
  - destruct (c =? sep)%N; simpl; [lia|].
    destruct (split sep s); simpl; lia.
Qed.

Lemma slice_nil {A} (k : Z) (l : list A) :
  l <> [] -> (slice k l = [] <-> Z.of_nat (length l) <= k).
Proof.
  intros Hl. unfold slice.
  assert (0 < Z.of_nat (length l)) by (destruct l; simpl; [congruence|lia]).
  split.
  - intros Hnil. apply (f_equal (@length A)) in Hnil.
    rewrite length_skipn in Hnil. simpl in Hnil.
    destruct (k <? 0) eqn:E; [apply Z.ltb_lt in E|apply Z.ltb_ge in E]; lia.
  - intros Hle. replace (k <? 0) with false by (symmetry; apply Z.ltb_ge; lia).
    apply skipn_all2. lia.
Qed.

(** With a header skip that is not negative, the line of index [i] in
    [dataLines] is the line of index [i + skipHeaderLines] of the text. *)
Lemma slice_lookup {A} (k : Z) (l : list A) (i : nat) (x : A) :
  0 <= k -> slice k l !! i = Some x -> l !! Z.to_nat (Z.of_nat i + k) = Some x.
Proof.
  intros Hk. unfold slice.
  replace (k <? 0) with false by (symmetry; apply Z.ltb_ge; lia).
  rewrite lookup_drop. intros Hx.
  assert (Hlt : (Z.to_nat (Z.min k (Z.of_nat (length l))) + i < length l)%nat)
    by (apply lookup_lt_Some in Hx; exact Hx).
  replace (Z.to_nat (Z.of_nat i + k))
    with (Z.to_nat (Z.min k (Z.of_nat (length l))) + i)%nat by lia.
  exact Hx.
Qed.

Lemma data_rows_origin (csvText : jsstring) (o : CSVParseOptions)
    (i : Z) (line : jsstring) :
  In (i, line) (data_rows csvText o) ->
  1 <= i /\
  exists raw,
    dataLines_of csvText o !! Z.to_nat i = Some raw /\ line = trim raw.
Proof.
  unfold data_rows, kept_lines. intros Hin.
  apply filter_In in Hin as [Hin _].
  apply in_map_iff in Hin as [[j raw] [Heq Hin]].
  simpl in Heq. injection Heq as -> <-.
  apply numbered_lookup in Hin as [Hle Hl]. split; [exact Hle|].
  exists raw. split; [|reflexivity].
  destruct (dataLines_of csvText o) as [|hd tl0]; [discriminate|].
  simpl in Hl.
  replace (Z.to_nat i) with (S (Z.to_nat (i - 1))) by lia. exact Hl.
Qed.

(** C1. Every row of the result of [parseCSV] has as many fields as there
    are headers. When a header line is left after the header skip, the rows
    are the tokenized data lines, each padded with empty strings or cut to
    the header count, and the errors are the diagnostics of exactly the rows
    whose tokenized field count differs, in order: the text "Row", the
    number [i + skipHeaderLines + 1], "Expected", the header count,
    "columns, got" and the tokenized count, the numbers in decimal; with a
    header skip that is not negative this number is the position of the
    row's line in the text, counted from 1. *)
Theorem parseCSV_rows_fit_headers (csvText : jsstring) (o : CSVParseOptions) :
  let r := parseCSV csvText o in
  let n := length (headers r) in
  Forall (fun row => length row = n) (rows r)
  /\ (dataLines_of csvText o <> [] ->
      rows r =
        List.map (fun il => fit_row n (raw_row o (snd il)))
          (data_rows csvText o)
      /\ errors r =
           List.map
             (fun il =>
                str "Row "
                ++ num_to_string (fst il + skipHeaderLines_of o + 1)
                ++ str ": Expected " ++ num_to_string (Z.of_nat n)
                ++ str " columns, got "
                ++ num_to_string (Z.of_nat (length (raw_row o (snd il)))))
             (List.filter (mismatched o n) (data_rows csvText o)))
  /\ (forall row,
        (length row = n -> fit_row n row = row)
        /\ ((length row < n)%nat ->
            fit_row n row = row ++ repeat [] (n - length row))
        /\ ((n < length row)%nat -> fit_row n row = firstn n row))
  /\ (0 <= skipHeaderLines_of o ->
      forall i line, In (i, line) (data_rows csvText o) ->
      exists raw,
        line_at csvText (i + skipHeaderLines_of o + 1) = Some raw
        /\ line = trim raw).
Proof.
  intros r n.
  assert (Hfit : forall row,
            (length row = n -> fit_row n row = row)
            /\ ((length row < n)%nat ->
                fit_row n row = row ++ repeat [] (n - length row))
            /\ ((n < length row)%nat -> fit_row n row = firstn n row)).
  { intros row. split; [apply fit_row_exact|].
    split; intros H; [apply fit_row_pad | apply fit_row_truncate]; lia. }
  assert (Horigin : 0 <= skipHeaderLines_of o ->
            forall i line, In (i, line) (data_rows csvText o) ->
            exists raw,
              line_at csvText (i + skipHeaderLines_of o + 1) = Some raw
              /\ line = trim raw).
  { intros Hskip i line Hin.
    apply data_rows_origin in Hin as (Hi & raw & Hraw & ->).
    exists raw. split; [|reflexivity]. unfold line_at.
    replace (i + skipHeaderLines_of o + 1 <? 1) with false
      by (symmetry; apply Z.ltb_ge; lia).
    apply slice_lookup in Hraw; [|exact Hskip].
    rewrite <- Hraw. f_equal. lia. }
  destruct (dataLines_of csvText o) as [|firstLine rest] eqn:Hdata.
  - subst r n. rewrite (parseCSV_no_data csvText o Hdata) in *.
    split; [constructor|]. split; [congruence|]. split; assumption.
  - pose proof (parseCSV_spec csvText o firstLine rest Hdata) as Hspec.
    cbv zeta in Hspec.
    assert (Hn : n = length (raw_row o firstLine))
      by (subst n r; rewrite Hspec; reflexivity).
    split; [|split; [|split; assumption]].
    + subst r. rewrite Hspec. simpl. rewrite <- Hn.
      apply List.Forall_forall. intros row Hrow.
      apply in_map_iff in Hrow as (il & <- & _). apply fit_row_length.
    + intros _. subst r. rewrite Hspec. simpl. rewrite <- Hn.
      split; reflexivity.
Qed.

Lemma parseCSV_rows_fit_headers_witness :
  let csvText := str "Zone,Org" ++ [LF] ++ str "A,B" ++ [LF] ++ str "C" in
  rows (parseCSV csvText no_options) = [[str "A"; str "B"]; [str "C"; []]]
  /\ errors (parseCSV csvText no_options) =
       [str "Row 3: Expected 2 columns, got 1"]
  /\ (exists raw, line_at csvText 3 = Some raw /\ str "C" = trim raw)
  (* nine lines skipped, eleven headers; rows of one and of twelve fields *)
  /\ errors (parseCSV titled_document (skipping 9)) =
       [str "Row 11: Expected 11 columns, got 1";
        str "Row 12: Expected 11 columns, got 12"].
Proof.
  intros csvText.
  pose proof (parseCSV_rows_fit_headers csvText no_options) as H.
  cbv zeta in H. destruct H as (_ & Hrows & _ & Hline).
  destruct Hrows as [Hr He]; [discriminate|].
  split; [rewrite Hr; reflexivity|].
  split; [rewrite He; reflexivity|].
  split.
  { apply (Hline ltac:(discriminate) 2 (str "C")).
    right. left. reflexivity. }
  pose proof (parseCSV_rows_fit_headers titled_document (skipping 9)) as H2.
  cbv zeta in H2. destruct H2 as (_ & Hrows2 & _).
  destruct Hrows2 as [_ He2]; [discriminate|].
  rewrite He2. reflexivity.
Defined.

(** C5, as amended. When no line is left after the header skip,
    [parseCSV] returns no headers, no rows and the one error "No data
    lines found in CSV". The split of a text has at least one line, so this
    happens exactly when [skipHeaderLines] is at least the number of lines;
    whenever a line is left, the result has at least one header and is not
    that result. *)
Theorem parseCSV_no_data_lines (csvText : jsstring) (o : CSVParseOptions) :
  (dataLines_of csvText o = [] -> parseCSV csvText o = no_data_result)
  /\ (dataLines_of csvText o = [] <->
      Z.of_nat (length (split LF csvText)) <= skipHeaderLines_of o)
  /\ (1 <= length (split LF csvText))%nat
  /\ (dataLines_of csvText o <> [] ->
      headers (parseCSV csvText o) <> []
      /\ parseCSV csvText o <> no_data_result).
Proof.
  pose proof (split_length LF csvText) as Hlen.
  split; [apply parseCSV_no_data|]. split; [|split; [exact Hlen|]].
  - unfold dataLines_of. apply slice_nil.
    destruct (split LF csvText); simpl in *; [lia|congruence].
  - intros Hne.
    destruct (dataLines_of csvText o) as [|firstLine rest] eqn:Hdata;
      [congruence|].
    assert (Hh : headers (parseCSV csvText o) <> []).
    { rewrite (parseCSV_spec csvText o firstLine rest Hdata). simpl.
      unfold raw_row, parseCSVLine. intros Heq.
      apply app_eq_nil in Heq as [_ Heq]. discriminate. }
    split; [exact Hh|]. intros Heq. rewrite Heq in Hh. apply Hh.
    reflexivity.
Qed.

Lemma parseCSV_no_data_lines_witness :
  parseCSV [] {| skipEmptyLines := None; skipHeaderLines := Some 1;
                 delimiter := None; quoteChar := None;
                 trimFields := None |} = no_data_result.
Proof.
  apply (parseCSV_no_data_lines []
           {| skipEmptyLines := None; skipHeaderLines := Some 1;
              delimiter := None; quoteChar := None; trimFields := None |}).
  reflexivity.
Defined.

(** C5 as stated fails for the empty document: with no header skip its one
    empty line is left, and the result has the header row of one empty
    field, no row and no error. *)
Lemma empty_document_counterexample :
  dataLines_of [] no_options = [[]]
  /\ parseCSV [] no_options =
       {| headers := [[]]; rows := []; errors := [] |}
  /\ parseCSV [] no_options <> no_data_result.
Proof. repeat split. discriminate. Qed.

(** *** Trimming *)

Lemma trimStart_head (s : jsstring) :
  match trimStart s with [] => True | c :: _ => is_ws c = false end.
Proof.
  induction s as [|c s IH]; simpl; [exact I|].
  destruct (is_ws c) eqn:E; [exact IH | exact E].
Qed.

Lemma trimStart_app (s t : jsstring) :
  trimStart (s ++ t) = if all_ws s then trimStart t else trimStart s ++ t.
Proof.
  induction s as [|c s IH]; simpl; [reflexivity|].
  destruct (is_ws c); simpl; [exact IH | reflexivity].
Qed.

Lemma trimStart_all_ws (s : jsstring) : all_ws s = true -> trimStart s = [].
Proof.
  induction s as [|c s IH]; simpl; [reflexivity|].
  destruct (is_ws c); simpl; [exact IH | discriminate].
Qed.

Lemma all_ws_rev (s : jsstring) : all_ws (rev s) = all_ws s.
Proof.
  unfold all_ws. induction s as [|c s IH]; simpl; [reflexivity|].
  rewrite forallb_app, IH. simpl. rewrite andb_true_r. apply andb_comm.
Qed.

Lemma trimEnd_cons (c : char) (s : jsstring) :
  is_ws c = false -> trimEnd (c :: s) = c :: trimEnd s.
Proof.
  intros Hc. unfold trimEnd. simpl. rewrite trimStart_app.
  destruct (all_ws (rev s)) eqn:E.
  - simpl. rewrite Hc. rewrite (trimStart_all_ws _ E). reflexivity.
  - rewrite rev_app_distr. reflexivity.
Qed.

Lemma trimEnd_last (s l : jsstring) (z : char) :
  trimEnd s = l ++ [z] -> is_ws z = false.
Proof.
  unfold trimEnd. intros H.
  apply (f_equal (@rev char)) in H.
  rewrite rev_involutive, rev_app_distr in H. simpl in H.
  pose proof (trimStart_head (rev s)) as Hh. rewrite H in Hh. exact Hh.
Qed.

(** A trimmed string neither starts nor ends with white space. *)
Lemma trim_first (s r : jsstring) (c : char) :
  trim s = c :: r -> is_ws c = false.
Proof.
  unfold trim. pose proof (trimStart_head s) as Hh.
  destruct (trimStart s) as [|c0 s0]; [discriminate|].
  rewrite trimEnd_cons by exact Hh. intros H. injection H as <- _. exact Hh.
Qed.

Lemma trim_last (s l : jsstring) (z : char) :
  trim s = l ++ [z] -> is_ws z = false.
Proof. apply trimEnd_last. Qed.

(** White space around a string does not change its trimmed form. *)
Lemma trim_surrounded (before s after : jsstring) :
  all_ws before = true -> all_ws after = true ->
  trim (before ++ s ++ after) = trim s.
Proof.
  intros Hb Ha. unfold trim.
  rewrite trimStart_app, Hb, trimStart_app.
  destruct (all_ws s) eqn:Hs.
  - rewrite (trimStart_all_ws _ Ha), (trimStart_all_ws _ Hs). reflexivity.
  - unfold trimEnd. rewrite rev_app_distr, trimStart_app, all_ws_rev, Ha.
    reflexivity.
Qed.

(** *** The first and the last field of a line *)

Section FirstLast.

Variables delim quote : jsstring.

(** Without [trimFields], the first field starts with what the buffer held
    when no field had been pushed yet. *)
Lemma first_field_extends (rest : jsstring) :
  forall st, fields st = [] ->
  let st' := scan delim quote false rest st in
  exists suffix,
    hd [] (fields st' ++ [currentField st']) = currentField st ++ suffix.
Proof.
  induction rest as [|c rest IH1 IH2] using line_ind; intros st Hnone.
  - simpl. rewrite Hnone. exists []. simpl. rewrite app_nil_r. reflexivity.
  - simpl. destruct (char_is c quote).
    + destruct rest as [|n rest2].
      * simpl. rewrite Hnone. exists []. simpl. rewrite app_nil_r.
        reflexivity.
      * destruct (inQuotes st && char_is n quote).
        -- destruct (IH2 n rest2 eq_refl
                       {| fields := fields st;
                          currentField := currentField st ++ quote;
                          inQuotes := inQuotes st |} Hnone) as [sfx Hs].
           exists (quote ++ sfx). rewrite Hs. simpl.
           rewrite <- app_assoc. reflexivity.
        -- apply (IH1 {| fields := fields st;
                         currentField := currentField st;
                         inQuotes := negb (inQuotes st) |} Hnone).
    + destruct (char_is c delim && negb (inQuotes st)).
      * exists []. rewrite Hnone. simpl.
        pose proof (scan_frame delim quote false rest [currentField st]
                      {| fields := []; currentField := [];
                         inQuotes := inQuotes st |}) as Hf.
        simpl in Hf. rewrite Hf. simpl. rewrite app_nil_r. reflexivity.
      * destruct (IH1 {| fields := fields st;
                         currentField := currentField st ++ [c];
                         inQuotes := inQuotes st |} Hnone) as [sfx Hs].
        exists (c :: sfx). rewrite Hs. simpl.
        rewrite <- app_assoc. reflexivity.
Qed.

(** The first field of a line that starts with a unit other than the quote
    character is empty or starts with that unit. *)
Lemma first_field_of_line (c : char) (rest : jsstring) :
  char_is c quote = false ->
  let first := hd [] (parseCSVLine (c :: rest) delim quote false) in
  first = [] \/ exists suffix, first = c :: suffix.
Proof.
  intros Hq. unfold parseCSVLine. cbn [scan]. rewrite Hq.
  cbn [inQuotes scan_init negb fields currentField app].
  rewrite andb_true_r. destruct (char_is c delim).
  - left.
    pose proof (scan_frame delim quote false rest [[]] scan_init) as Hf.
    simpl in Hf. simpl. rewrite Hf. reflexivity.
  - right.
    destruct (first_field_extends rest
                {| fields := []; currentField := [c]; inQuotes := false |}
                eq_refl) as [sfx Hs].
    exists sfx. exact Hs.
Qed.

(** The last field of a line that ends with a unit other than the quote
    character is empty or ends with that unit. *)
Lemma last_field_of_line (line : jsstring) (z : char) :
  char_is z quote = false ->
  let final := List.last (parseCSVLine (line ++ [z]) delim quote false) [] in
  final = [] \/ exists prefix, final = prefix ++ [z].
Proof.
  intros Hq. unfold parseCSVLine.
  rewrite scan_snoc by exact Hq. rewrite last_last.
  cbn [scan]. rewrite Hq.
  destruct (char_is z delim && negb (inQuotes _)).
  - left. reflexivity.
  - right. eexists. reflexivity.
Qed.

End FirstLast.

Lemma kept_lines_alt (skipEmpty : bool) (rest : list jsstring) :
  kept_lines skipEmpty rest =
  List.filter (fun il => negb (skipEmpty && is_empty (snd il)))
    (numbered 1 (List.map trim rest)).
Proof. unfold kept_lines. rewrite numbered_trim. reflexivity. Qed.

Lemma kept_lines_lines (skipEmpty : bool) (rest : list jsstring) :
  List.map snd (kept_lines skipEmpty rest) =
  List.map trim
    (List.filter (fun raw => negb (skipEmpty && is_empty (trim raw))) rest).
Proof.
  unfold kept_lines. generalize 1.
  induction rest as [|raw rest IH]; intros i; simpl; [reflexivity|].
  destruct (skipEmpty && is_empty (trim raw)); simpl; rewrite IH;
    reflexivity.
Qed.

(** C10, as amended. [parseCSV] tokenizes the header line as it is, and
    each data line after trimming it: the rows are made from the trimmed
    lines, so two documents whose data lines differ only in surrounding
    white space (a carriage return included) parse to the same result,
    white space around a line not changing its trimmed form. Without
    [trimFields], the first unit of a trimmed data line is not white space
    and, unless it is the quote character, the first tokenized field is
    empty or starts with it; likewise the last unit and the end of the
    last tokenized field. Fitting the row to the header count keeps its
    first field, and keeps its last field or, when it pads, ends the row
    with an empty field, as long as the row is not cut. The header line
    gets no such treatment: in the document [spaced_document] the header
    fields keep their spaces and the carriage return, the data fields lose
    those at the ends of the line. *)
Theorem data_lines_trimmed_header_not (csvText : jsstring)
    (o : CSVParseOptions) (firstLine : jsstring) (rest : list jsstring) :
  dataLines_of csvText o = firstLine :: rest ->
  let r := parseCSV csvText o in
  let n := length (headers r) in
  headers r = raw_row o firstLine
  /\ rows r =
       List.map (fun raw => fit_row n (raw_row o (trim raw)))
         (List.filter
            (fun raw => negb (skipEmptyLines_of o && is_empty (trim raw)))
            rest)
  /\ (forall csvText' rest',
        dataLines_of csvText' o = firstLine :: rest' ->
        List.map trim rest' = List.map trim rest ->
        parseCSV csvText' o = parseCSV csvText o)
  /\ (forall before line after,
        all_ws before = true -> all_ws after = true ->
        trim (before ++ line ++ after) = trim line)
  /\ (forall line, trim (line ++ [CR]) = trim line)
  /\ (trimFields_of o = false ->
      forall raw, In raw rest ->
      (forall c s, trim raw = c :: s ->
         is_ws c = false
         /\ (char_is c (quoteChar_of o) = false ->
             let first := hd [] (raw_row o (trim raw)) in
             first = [] \/ exists suffix, first = c :: suffix))
      /\ (forall l z, trim raw = l ++ [z] ->
            is_ws z = false
            /\ (char_is z (quoteChar_of o) = false ->
                let final := List.last (raw_row o (trim raw)) [] in
                final = [] \/ exists prefix, final = prefix ++ [z])))
  /\ (forall row : list jsstring,
        (row <> [] -> hd [] (fit_row n row) = hd [] row)
        /\ ((length row <= n)%nat ->
            List.last (fit_row n row) [] = List.last row []
            \/ List.last (fit_row n row) [] = []))
  /\ (headers (parseCSV spaced_document untrimmed_options) =
        [str " a "; str "b " ++ [CR]]
      /\ rows (parseCSV spaced_document untrimmed_options) =
           [[str "x "; str "y"]]).
Proof.
  intros Hdata r n.
  pose proof (parseCSV_spec csvText o firstLine rest Hdata) as Hspec.
  cbv zeta in Hspec.
  assert (Hn : n = length (raw_row o firstLine))
    by (subst n r; rewrite Hspec; reflexivity).
  split; [subst r; rewrite Hspec; reflexivity|].
  split; [|split; [|split; [|split; [|split; [|split]]]]].
  - subst r. rewrite Hspec. simpl. rewrite <- Hn.
    unfold data_rows. rewrite Hdata. simpl.
    rewrite <- (List.map_map snd (fun line => fit_row n (raw_row o line))).
    rewrite kept_lines_lines, List.map_map. reflexivity.
  - intros csvText' rest' Hdata' Htrim.
    rewrite (parseCSV_spec csvText' o firstLine rest' Hdata'), Hspec.
    unfold data_rows. rewrite Hdata, Hdata'. simpl.
    rewrite !kept_lines_alt, Htrim. reflexivity.
  - exact trim_surrounded.
  - intros line. apply (trim_surrounded [] line [CR]); reflexivity.
  - intros Htf raw _. unfold raw_row. rewrite Htf. split.
    + intros c s Hc. split; [exact (trim_first raw s c Hc)|].
      intros Hq. rewrite Hc. apply first_field_of_line. exact Hq.
    + intros l z Hz. split; [exact (trim_last raw l z Hz)|].
      intros Hq. rewrite Hz. apply last_field_of_line. exact Hq.
  - assert (Hpos : (1 <= n)%nat).
    { rewrite Hn. unfold raw_row, parseCSVLine. rewrite length_app.
      simpl. lia. }
    intros row. split.
    + intros Hrow.
      destruct (Nat.le_gt_cases (length row) n) as [Hle|Hgt].
      * rewrite fit_row_pad by exact Hle.
        destruct row; [congruence | reflexivity].
      * rewrite fit_row_truncate by lia.
        destruct row; [congruence|].
        destruct n; [lia | reflexivity].
    + intros Hle. rewrite fit_row_pad by exact Hle.
      destruct (n - length row)%nat as [|gap] eqn:Hgap.
      * left. simpl. rewrite app_nil_r. reflexivity.
      * right.
        change (repeat [] (S gap)) with ([] :: repeat (@nil char) gap).
        rewrite repeat_cons, app_assoc. apply last_last.
  - split; reflexivity.
Qed.

Lemma data_lines_trimmed_header_not_witness :
  headers (parseCSV spaced_document untrimmed_options) =
    [str " a "; str "b " ++ [CR]]
  /\ rows (parseCSV spaced_document untrimmed_options) =
       [[str "x "; str "y"]]
  /\ parseCSV (str " a ,b " ++ [CR; LF] ++ str "x ,y" ++ [LF])
       untrimmed_options =
     parseCSV spaced_document untrimmed_options.
Proof.
  pose proof (data_lines_trimmed_header_not spaced_document
                untrimmed_options (str " a ,b " ++ [CR])
                [str " x ,y " ++ [CR]; []] eq_refl) as H.
  cbv zeta in H. destruct H as (Hh & Hr & Hsame & _).
  split; [rewrite Hh; reflexivity|].
  split; [rewrite Hr; reflexivity|].
  apply (Hsame _ [str "x ,y"; []]); reflexivity.
Defined.

(** C10 as stated fails: without [trimFields] a data row keeps the white
    space that quotes enclose, at the start of its first field and at the
    end of its last one, and a row cut to the header count ends with a
    field that keeps its trailing white space. *)
Lemma data_row_whitespace_counterexample :
  rows (parseCSV (str "h" ++ [LF; DQUOTE] ++ str " a " ++ [DQUOTE])
          untrimmed_options) = [[str " a "]]
  /\ rows (parseCSV (str "h" ++ [LF] ++ str "x ,y") untrimmed_options) =
       [[str "x "]].
Proof. split; reflexivity. Qed.

(** ** Properties of the data loading manager *)

Section Loader.

Import DataLoader.

Context {T : Type} (emptyT : T).
Variables (env : environment) (parser : CSVParseResult -> thrown + T).
Variables (dataSource url cacheKey : jsstring).
Variables (skipHeaderLines timeout retries : Z).

Lemma getLoadingState_set (m : manager T) (loading loaded : bool)
    (err : option jsstring) (updated : option Z) :
  getLoadingState
    (setLoadingState dataSource (full_state loading loaded err updated) m)
    dataSource =
  {| isLoading := loading; isLoaded := loaded; error := err;
     lastUpdated := updated |}.
Proof.
  unfold getLoadingState, setLoadingState. simpl.
  rewrite lookup_insert_eq. reflexivity.
Qed.

Lemma fetches_app (tr1 tr2 : list event) :
  fetches (tr1 ++ tr2) = (fetches tr1 + fetches tr2)%nat.
Proof. unfold fetches. rewrite List.filter_app, length_app. reflexivity. Qed.

Lemma fetches_notified (ls : list listener) (st : DataLoadingState) :
  fetches (List.map (fun l => Notified l st) ls) = O.
Proof. induction ls as [|l ls IH]; [reflexivity | exact IH]. Qed.

Lemma fetches_set (m : manager T) (st : PartialState) :
  fetches (trace (setLoadingState dataSource st m)) = fetches (trace m).
Proof.
  unfold setLoadingState. simpl. rewrite fetches_app, fetches_notified. lia.
Qed.

(** A [try] block that throws has issued its fetch and nothing else. *)
Lemma try_block_throws (attempt : Z) (loc : locals) (m : manager T)
    (e : thrown) :
  fst (fst (try_block env parser dataSource url cacheKey skipHeaderLines
              timeout attempt loc m)) = inl e ->
  snd (try_block env parser dataSource url cacheKey skipHeaderLines
         timeout attempt loc m) = emit (Fetched url timeout) m.
Proof.
  unfold try_block. destruct (fetch env attempt) as [e0|resp]; [reflexivity|].
  destruct (negb (ok resp)); [reflexivity|].
  destruct (text resp) as [e0|csvText]; [reflexivity|].
  destruct (is_empty (trim csvText)); [reflexivity|].
  destruct (parser _); [reflexivity | discriminate].
Qed.

(** A [try] block that returns has cached the data it returns and left
    the source loaded. *)
Lemma try_block_returns (attempt : Z) (loc : locals) (m : manager T)
    (result : DataLoadingResult T) :
  fst (fst (try_block env parser dataSource url cacheKey skipHeaderLines
              timeout attempt loc m)) = inr result ->
  let m' := snd (try_block env parser dataSource url cacheKey
                   skipHeaderLines timeout attempt loc m) in
  dataCache m' !! cacheKey = Some (data result)
  /\ isLoaded (getLoadingState m' dataSource) = true.
Proof.
  unfold try_block. destruct (fetch env attempt) as [e0|resp]; [discriminate|].
  destruct (negb (ok resp)); [discriminate|].
  destruct (text resp) as [e0|csvText]; [discriminate|].
  destruct (is_empty (trim csvText)); [discriminate|].
  destruct (parser _) as [e0|d]; [discriminate|].
  cbn [fst snd]. intros H. injection H as <-. cbv zeta. split.
  - cbn. apply lookup_insert_eq.
  - rewrite getLoadingState_set. reflexivity.
Qed.

(** The loop when every attempt that is left fails. *)
Lemma attempt_loop_all_fail (failure : Z -> thrown) (remaining : nat) :
  forall attempt loc m,
  (1 <= remaining)%nat ->
  attempt + Z.of_nat remaining - 1 = retries ->
  (forall k loc' m', attempt <= k <= retries ->
     fst (fst (try_block env parser dataSource url cacheKey skipHeaderLines
                 timeout k loc' m')) = inl (failure k)) ->
  let res := attempt_loop emptyT env parser dataSource url cacheKey
               skipHeaderLines timeout retries remaining attempt loc m in
  fst res =
    terminal_result emptyT dataSource retries
      (error_message (failure retries))
  /\ getLoadingState (snd res) dataSource =
       failed_state (error_message (failure retries))
  /\ dataCache (snd res) = dataCache m
  /\ fetches (trace (snd res)) = (fetches (trace m) + remaining)%nat.
Proof.
  induction remaining as [|remaining IH]; intros attempt loc m Hpos Hlast Hfail;
    [lia|].
  cbn [attempt_loop].
  pose proof (Hfail attempt loc m ltac:(lia)) as Hout.
  pose proof (try_block_throws attempt loc m _ Hout) as Hm.
  destruct (try_block env parser dataSource url cacheKey skipHeaderLines
              timeout attempt loc m) as [[out loc1] m1].
  cbn [fst snd] in Hout, Hm. subst out m1.
  destruct (Z.eqb_spec attempt retries) as [Heq|Hne].
  - assert (remaining = O) by lia. subst remaining. cbn [fst snd].
    rewrite getLoadingState_set, fetches_set, Heq.
    repeat split. simpl. rewrite fetches_app. reflexivity.
  - destruct (IH (attempt + 1) loc1
                (emit (Waited (1000 * attempt))
                   (emit (Fetched url timeout) m))
                ltac:(lia) ltac:(lia)) as (H1 & H2 & H3 & H4).
    { intros k loc' m' Hk. apply Hfail. lia. }
    cbv zeta. rewrite H1, H2, H3, H4. repeat split.
    simpl. rewrite !fetches_app. unfold fetches at 2 3. simpl. lia.
Qed.

(** Whatever the attempts do, a loop that leaves the source loaded has
    cached the data it returns. *)
Lemma attempt_loop_loaded (remaining : nat) :
  forall attempt loc m,
  isLoaded (getLoadingState m dataSource) = false ->
  let res := attempt_loop emptyT env parser dataSource url cacheKey
               skipHeaderLines timeout retries remaining attempt loc m in
  isLoaded (getLoadingState (snd res) dataSource) = true ->
  dataCache (snd res) !! cacheKey = Some (data (fst res)).
Proof.
  induction remaining as [|remaining IH]; intros attempt loc m Hidle.
  - simpl. congruence.
  - cbn [attempt_loop].
    pose proof (try_block_throws attempt loc m) as Hthrow.
    pose proof (try_block_returns attempt loc m) as Hret.
    destruct (try_block env parser dataSource url cacheKey skipHeaderLines
                timeout attempt loc m) as [[[e|result] loc1] m1];
      cbn [fst snd] in *.
    + rewrite (Hthrow e eq_refl).
      destruct (attempt =? retries).
      * cbn [fst snd]. rewrite getLoadingState_set. discriminate.
      * apply IH. exact Hidle.
    + intros _. apply (Hret result eq_refl).
Qed.

End Loader.

(** With [retries] below 1 the loop body never runs: the statement after
    the loop returns, and the source is left loading. *)
Lemma loadCSVData_no_attempt {T : Type} (emptyT : T)
    (env : DataLoader.environment) (dataSource url : jsstring)
    (parser : CSVParseResult -> DataLoader.thrown + T)
    (options : DataLoader.load_options) (m : DataLoader.manager T) :
  retries_of options <= 0 ->
  DataLoader.dataCache m !! cacheKey_of dataSource options = None ->
  let res :=
    DataLoader.loadCSVData emptyT env dataSource url parser options m in
  fst res =
    {| DataLoader.data := emptyT;
       DataLoader.errors := [str "Failed to load " ++ dataSource];
       DataLoader.warnings := [] |}
  /\ DataLoader.getLoadingState (snd res) dataSource =
       {| DataLoader.isLoading := true; DataLoader.isLoaded := false;
          DataLoader.error := None; DataLoader.lastUpdated := None |}
  /\ fetches (DataLoader.trace (snd res)) = fetches (DataLoader.trace m).
Proof.
  intros Hretries Hmiss res. subst res. unfold DataLoader.loadCSVData.
  fold (cacheKey_of dataSource options). rewrite Hmiss.
  fold (retries_of options).
  replace (Z.to_nat (retries_of options)) with O by lia.
  cbn [DataLoader.attempt_loop fst snd].
  rewrite getLoadingState_set, fetches_set. repeat split.
Qed.

(** C3. When the cache does not hold the cache key and each of the
    [retries] attempts (at least one) throws, [loadCSVData] returns: the
    data is the empty value, the one error is the terminal message
    "Failed to load", the data source, "after", the number of attempts in
    decimal, "attempts:" and the message of the last failure (the message
    of the error thrown, "Unknown error" when what was thrown is no
    error), and there is no warning; the source is left not loading, not
    loaded, with that message as its error. Nothing is cached, and
    [retries] fetches were issued. *)
Theorem loadCSVData_retries_exhausted {T : Type} (emptyT : T)
    (env : DataLoader.environment) (dataSource url : jsstring)
    (parser : CSVParseResult -> DataLoader.thrown + T)
    (options : DataLoader.load_options) (m : DataLoader.manager T)
    (failure : Z -> DataLoader.thrown) :
  let cacheKey := cacheKey_of dataSource options in
  let retries := retries_of options in
  1 <= retries ->
  DataLoader.dataCache m !! cacheKey = None ->
  (forall attempt loc m', 1 <= attempt <= retries ->
     fst (fst (DataLoader.try_block env parser dataSource url cacheKey
                 (load_skip_of options) (timeout_of options) attempt loc m'))
     = inl (failure attempt)) ->
  let message :=
    match failure retries with
    | DataLoader.ErrorObject text => text
    | DataLoader.OtherValue => str "Unknown error"
    end in
  let res :=
    DataLoader.loadCSVData emptyT env dataSource url parser options m in
  fst res =
    {| DataLoader.data := emptyT;
       DataLoader.errors :=
         [str "Failed to load " ++ dataSource ++ str " after "
          ++ num_to_string retries ++ str " attempts: " ++ message];
       DataLoader.warnings := [] |}
  /\ DataLoader.getLoadingState (snd res) dataSource =
       {| DataLoader.isLoading := false; DataLoader.isLoaded := false;
          DataLoader.error := Some message;
          DataLoader.lastUpdated := None |}
  /\ DataLoader.dataCache (snd res) = DataLoader.dataCache m
  /\ fetches (DataLoader.trace (snd res)) =
     (fetches (DataLoader.trace m) + Z.to_nat retries)%nat.
Proof.
  intros cacheKey retries Hretries Hmiss Hfail message res.
  subst res. unfold DataLoader.loadCSVData.
  fold (cacheKey_of dataSource options). fold cacheKey. rewrite Hmiss.
  fold (retries_of options) (timeout_of options) (load_skip_of options).
  fold retries.
  destruct (attempt_loop_all_fail emptyT env parser dataSource url cacheKey
              (load_skip_of options) (timeout_of options) retries failure
              (Z.to_nat retries) 1 ([], [])
              (DataLoader.setLoadingState dataSource
                 (DataLoader.full_state true false None None) m))
    as (H1 & H2 & H3 & H4); [lia | lia | exact Hfail |].
  rewrite H1, H2, H3, H4, fetches_set. repeat split.
Qed.

Lemma loadCSVData_retries_exhausted_witness :
  let res :=
    DataLoader.loadCSVData tt (offline (str "Network down")) (str "votes")
      (str "/votes.csv") (fun _ => inr tt) DataLoader.default_options
      (empty_manager unit) in
  DataLoader.errors (fst res) =
    [str "Failed to load votes after 3 attempts: Network down"]
  /\ DataLoader.warnings (fst res) = []
  /\ DataLoader.getLoadingState (snd res) (str "votes") =
       failed_state (str "Network down").
Proof.
  destruct (loadCSVData_retries_exhausted tt (offline (str "Network down"))
              (str "votes") (str "/votes.csv") (fun _ => inr tt)
              DataLoader.default_options (empty_manager unit)
              (fun _ => DataLoader.ErrorObject (str "Network down")))
    as (H1 & H2 & _).
  - discriminate.
  - reflexivity.
  - intros attempt loc m' _. reflexivity.
  - cbv zeta. rewrite H1.
    split; [reflexivity | split; [reflexivity | exact H2]].
Defined.

(** C4. When the cache holds the cache key, [loadCSVData] returns the
    cached value with no error and the one warning "Data loaded from
    cache", leaves the source loaded, and does nothing but notify the
    subscribers of the source: no fetch is issued and the cache is
    unchanged. A second call therefore returns the same value, again
    without a fetch. Moreover any call that leaves the source loaded
    leaves the data it returned in the cache, under the cache key. *)
Theorem loadCSVData_cache_hit {T : Type} (emptyT : T)
    (env env' : DataLoader.environment) (dataSource url : jsstring)
    (parser : CSVParseResult -> DataLoader.thrown + T)
    (options : DataLoader.load_options) (m : DataLoader.manager T)
    (cached : T) :
  DataLoader.dataCache m !! cacheKey_of dataSource options = Some cached ->
  let first :=
    DataLoader.loadCSVData emptyT env dataSource url parser options m in
  let second :=
    DataLoader.loadCSVData emptyT env' dataSource url parser options
      (snd first) in
  fst first =
    {| DataLoader.data := cached; DataLoader.errors := [];
       DataLoader.warnings := [str "Data loaded from cache"] |}
  /\ DataLoader.getLoadingState (snd first) dataSource =
       {| DataLoader.isLoading := false; DataLoader.isLoaded := true;
          DataLoader.error := None;
          DataLoader.lastUpdated := Some (DataLoader.now env) |}
  /\ DataLoader.trace (snd first) =
       DataLoader.trace m ++
       List.map
         (fun l => DataLoader.Notified l (loaded_state (DataLoader.now env)))
         (default [] (DataLoader.listeners m !! dataSource))
  /\ fetches (DataLoader.trace (snd first)) = fetches (DataLoader.trace m)
  /\ DataLoader.dataCache (snd first) = DataLoader.dataCache m
  /\ fst second =
       {| DataLoader.data := cached; DataLoader.errors := [];
          DataLoader.warnings := [str "Data loaded from cache"] |}
  /\ fetches (DataLoader.trace (snd second)) = fetches (DataLoader.trace m)
  /\ (forall m0,
        let res :=
          DataLoader.loadCSVData emptyT env dataSource url parser options
            m0 in
        DataLoader.isLoaded
          (DataLoader.getLoadingState (snd res) dataSource) = true ->
        DataLoader.dataCache (snd res) !! cacheKey_of dataSource options =
          Some (DataLoader.data (fst res))).
Proof.
  intros Hhit first second.
  assert (Hfirst : first =
            (cached_result cached,
             DataLoader.setLoadingState dataSource
               (DataLoader.full_state false true None
                  (Some (DataLoader.now env))) m)).
  { subst first. unfold DataLoader.loadCSVData.
    fold (cacheKey_of dataSource options). rewrite Hhit. reflexivity. }
  assert (Hsecond : second =
            (cached_result cached,
             DataLoader.setLoadingState dataSource
               (DataLoader.full_state false true None
                  (Some (DataLoader.now env'))) (snd first))).
  { subst second. unfold DataLoader.loadCSVData.
    fold (cacheKey_of dataSource options).
    rewrite Hfirst. cbn [snd DataLoader.setLoadingState DataLoader.dataCache].
    rewrite Hhit. reflexivity. }
  rewrite Hsecond, Hfirst. cbn [fst snd].
  rewrite getLoadingState_set, !fetches_set.
  do 7 (split; [reflexivity|]).
  intros m0. unfold DataLoader.loadCSVData.
  fold (cacheKey_of dataSource options).
  destruct (DataLoader.dataCache m0 !! cacheKey_of dataSource options)
    as [d|] eqn:Hm0.
  - intros _. exact Hm0.
  - apply attempt_loop_loaded. rewrite getLoadingState_set. reflexivity.
Qed.

Lemma loadCSVData_cache_hit_witness :
  let m :=
    DataLoader.subscribe (str "votes") 7%nat
      (DataLoader.cache_put (str "votes") 42%nat (empty_manager nat)) in
  let first :=
    DataLoader.loadCSVData 0%nat (offline (str "Network down"))
      (str "votes") (str "/votes.csv") (fun _ => inr 1%nat)
      DataLoader.default_options m in
  fst first =
    {| DataLoader.data := 42%nat; DataLoader.errors := [];
       DataLoader.warnings := [str "Data loaded from cache"] |}
  /\ DataLoader.trace (snd first) =
       [DataLoader.Notified 7%nat (loaded_state 0)].
Proof.
  intros m.
  pose proof (loadCSVData_cache_hit 0%nat (offline (str "Network down"))
                (offline (str "Network down")) (str "votes")
                (str "/votes.csv") (fun _ => inr 1%nat)
                DataLoader.default_options m 42%nat) as H.
  cbv zeta in H. destruct H as (H1 & _ & H3 & _).
  - apply lookup_insert_eq.
  - split; [exact H1|]. rewrite H3. cbn.
    rewrite lookup_insert_eq. reflexivity.
Defined.

(** ** Properties of the field normalizers *)

(** C9. [formatPhoneNumber] keeps the digits of the input: ten digits are
    returned after "+91 ", twelve digits that start with "91" after "+",
    and with any other number of digits the input is returned as it is
    (as it is with twelve digits that do not start with "91"). *)
Theorem formatPhoneNumber_spec (phone : jsstring) :
  let cleaned := List.filter is_digit phone in
  digits_only cleaned
  /\ (length cleaned = 10%nat ->
      formatPhoneNumber (Some phone) = str "+91 " ++ cleaned)
  /\ (length cleaned = 12%nat -> startsWith (str "91") cleaned = true ->
      formatPhoneNumber (Some phone) = str "+" ++ cleaned)
  /\ (length cleaned <> 10%nat -> length cleaned <> 12%nat ->
      formatPhoneNumber (Some phone) = phone)
  /\ (length cleaned = 12%nat -> startsWith (str "91") cleaned = false ->
      formatPhoneNumber (Some phone) = phone)
  /\ formatPhoneNumber (Some (str "9876543210")) = str "+91 9876543210"
  /\ formatPhoneNumber (Some (str "919876543210")) = str "+919876543210"
  /\ formatPhoneNumber (Some (str "123")) = str "123".
Proof.
  intros cleaned.
  assert (Hne : forall k, length cleaned = S k -> is_empty phone = false).
  { intros k Hk. destruct phone; [discriminate | reflexivity]. }
  split.
  { apply List.Forall_forall. intros c Hc.
    apply filter_In in Hc as [_ Hc]. exact Hc. }
  split; [|split; [|split; [|split]]].
  - intros Hlen. unfold formatPhoneNumber. rewrite (Hne _ Hlen).
    fold cleaned. rewrite Hlen. reflexivity.
  - intros Hlen Hpre. unfold formatPhoneNumber. rewrite (Hne _ Hlen).
    fold cleaned. rewrite Hlen, Hpre. reflexivity.
  - intros H10 H12. unfold formatPhoneNumber.
    destruct phone as [|c phone']; [reflexivity|]. cbn [is_empty].
    fold cleaned.
    apply Nat.eqb_neq in H10, H12. rewrite H10, H12. reflexivity.
  - intros Hlen Hpre. unfold formatPhoneNumber. rewrite (Hne _ Hlen).
    fold cleaned. rewrite Hlen, Hpre. reflexivity.
  - repeat split.
Qed.

Lemma formatPhoneNumber_spec_witness :
  formatPhoneNumber (Some (str "98765 43210")) = str "+91 9876543210"
  /\ formatPhoneNumber (Some (str "+91 98765-43210")) = str "+919876543210"
  /\ formatPhoneNumber (Some (str "12-3")) = str "12-3".
Proof.
  split; [|split].
  - pose proof (formatPhoneNumber_spec (str "98765 43210")) as H.
    cbv zeta in H. destruct H as (_ & H & _). exact (H eq_refl).
  - pose proof (formatPhoneNumber_spec (str "+91 98765-43210")) as H.
    cbv zeta in H. destruct H as (_ & _ & H & _). exact (H eq_refl eq_refl).
  - pose proof (formatPhoneNumber_spec (str "12-3")) as H.
    cbv zeta in H. destruct H as (_ & _ & _ & H & _).
    apply H; discriminate.
Defined.

(** *** Numbers and their digits *)










Lemma trimStart_Forall (P : char -> Prop) (s : jsstring) :
  Forall P s -> Forall P (trimStart s).
Proof.
  induction 1 as [|c s Hc Hs IH]; simpl; [constructor|].
  destruct (is_ws c); [exact IH | constructor; assumption].
Qed.


Lemma filter_filter_same {A} (f : A -> bool) (l : list A) :
  List.filter f (List.filter f l) = List.filter f l.
Proof.
  induction l as [|x l IH]; simpl; [reflexivity|].
  destruct (f x) eqn:E; simpl; rewrite ?E, IH; reflexivity.
Qed.







(** ** Further properties of the line tokenizer *)

Lemma split_cons (sep : char) (s : jsstring) :
  exists seg segs, split sep s = seg :: segs.
Proof.
  destruct s as [|c s]; simpl; [eauto|].
  destruct (c =? sep)%N; [eauto|]. destruct (split sep s); eauto.
Qed.

Lemma join_split (sep : char) (s : jsstring) :
  join [sep] (split sep s) = s.
Proof.
  induction s as [|c s IH]; [reflexivity|]. cbn [split].
  destruct (split_cons sep s) as (seg & segs & Hs). rewrite Hs in *.
  destruct (c =? sep)%N eqn:E.
  - apply N.eqb_eq in E. subst c.
    change (join [sep] ([] :: seg :: segs))
      with (sep :: join [sep] (seg :: segs)).
    f_equal. exact IH.
  - destruct segs as [|seg2 segs].
    + cbn [join] in *. f_equal. exact IH.
    + change (join [sep] ((c :: seg) :: seg2 :: segs))
        with (c :: join [sep] (seg :: seg2 :: segs)).
      f_equal. exact IH.
Qed.

(** On a line without the quote character the scan cuts at each
    delimiter. *)
Lemma scan_plain (d : char) (quote : jsstring) (line : jsstring) :
  Forall (fun c => char_is c quote = false) line ->
  forall st, inQuotes st = false ->
  let st' := scan [d] quote false line st in
  fields st' ++ [currentField st'] =
  fields st ++
  match split d line with
  | seg :: segs => (currentField st ++ seg) :: segs
  | [] => [currentField st]
  end.
Proof.
  induction 1 as [|c line Hc _ IH]; intros st Hin.
  - simpl. rewrite app_nil_r. reflexivity.
  - cbn [scan]. rewrite Hc, Hin, char_is_single. cbn [negb].
    rewrite andb_true_r. cbn [split].
    destruct (split_cons d line) as (seg & segs & Hs).
    destruct (c =? d)%N; cbn [andb].
    + rewrite IH by reflexivity. cbn [fields currentField finish].
      rewrite Hs, <- app_assoc, app_nil_r. reflexivity.
    + rewrite IH by reflexivity. cbn [fields currentField].
      rewrite Hs, <- app_assoc. reflexivity.
Qed.

(** X1. On a line in which the quote character does not occur,
    [parseCSVLine] is the split of the line at the delimiter (each piece
    trimmed with [trimFields]), and joining the untrimmed fields with the
    delimiter gives the line back. *)
Theorem parseCSVLine_plain_is_split (line : jsstring) (d : char)
    (quoteChar : jsstring) :
  Forall (fun c => char_is c quoteChar = false) line ->
  parseCSVLine line [d] quoteChar false = split d line
  /\ parseCSVLine line [d] quoteChar true = List.map trim (split d line)
  /\ join [d] (parseCSVLine line [d] quoteChar false) = line.
Proof.
  intros Hplain.
  assert (H : parseCSVLine line [d] quoteChar false = split d line).
  { unfold parseCSVLine.
    pose proof (scan_plain d quoteChar line Hplain scan_init eq_refl) as Hs.
    cbv zeta in Hs. cbn [finish]. rewrite Hs. simpl.
    destruct (split_cons d line) as (seg & segs & ->). reflexivity. }
  split; [exact H|]. split.
  - rewrite parseCSVLine_trimmed, H. reflexivity.
  - rewrite H. apply join_split.
Qed.

Lemma parseCSVLine_plain_is_split_witness :
  parseCSVLine (str "a, b ,,c") (str ",") [DQUOTE] false =
    [str "a"; str " b "; []; str "c"].
Proof.
  pose proof (parseCSVLine_plain_is_split (str "a, b ,,c") 44%N [DQUOTE])
    as (H & _).
  - change (str "a, b ,,c") with [97; 44; 32; 98; 32; 44; 44; 99]%N.
    repeat (apply List.Forall_cons; [reflexivity|]). apply List.Forall_nil.
  - exact H.
Defined.

(** *** Where the characters of the fields come from *)

Lemma trim_Forall (P : char -> Prop) (s : jsstring) :
  Forall P s -> Forall P (trim s).
Proof.
  intros H. unfold trim, trimEnd.
  apply Forall_rev, trimStart_Forall, Forall_rev, trimStart_Forall, H.
Qed.

Lemma finish_Forall (P : char -> Prop) (tf : bool) (s : jsstring) :
  Forall P s -> Forall P (finish tf s).
Proof. destruct tf; [apply trim_Forall | exact id]. Qed.

(** The scan puts into the fields nothing but units of the line. *)
Lemma scan_Forall (P : char -> Prop) (delim quote : jsstring) (tf : bool)
    (rest : jsstring) :
  Forall P rest ->
  forall st,
  Forall (Forall P) (fields st) -> Forall P (currentField st) ->
  let st' := scan delim quote tf rest st in
  Forall (Forall P) (fields st') /\ Forall P (currentField st').
Proof.
  induction rest as [|c rest IH1 IH2] using line_ind;
    intros Hrest st Hf Hc.
  - split; assumption.
  - apply Forall_cons_iff in Hrest as [Pc Hrest]. cbn [scan].
    destruct (char_is c quote) eqn:Hq.
    + apply char_is_true in Hq. subst quote.
      destruct rest as [|n rest2].
      * split; assumption.
      * destruct (inQuotes st && char_is n [c]).
        -- apply (IH2 n rest2 eq_refl).
           ++ apply Forall_cons_iff in Hrest as [_ Hrest2]. exact Hrest2.
           ++ exact Hf.
           ++ cbn. apply Forall_app. split; [exact Hc|]. constructor;
                [exact Pc | constructor].
        -- apply IH1; assumption.
    + destruct (char_is c delim && negb (inQuotes st)).
      * apply IH1; [exact Hrest| |constructor]. cbn.
        apply Forall_app. split; [exact Hf|]. constructor; [|constructor].
        apply finish_Forall. exact Hc.
      * apply IH1; [exact Hrest|exact Hf|]. cbn.
        apply Forall_app. split; [exact Hc|]. constructor;
          [exact Pc | constructor].
Qed.

Lemma parseCSVLine_Forall (P : char -> Prop) (line delim quote : jsstring)
    (tf : bool) :
  Forall P line -> Forall (Forall P) (parseCSVLine line delim quote tf).
Proof.
  intros Hline. unfold parseCSVLine.
  destruct (scan_Forall P delim quote tf line Hline scan_init)
    as [Hf Hc]; [constructor | constructor |].
  apply Forall_app. split; [exact Hf|]. constructor; [|constructor].
  apply finish_Forall. exact Hc.
Qed.

Lemma split_no_sep (sep : char) (s : jsstring) :
  Forall (Forall (fun c => c <> sep)) (split sep s).
Proof.
  induction s as [|c s IH]; cbn [split].
  - repeat constructor.
  - destruct (N.eqb_spec c sep) as [->|Hne].
    + constructor; [constructor | exact IH].
    + destruct (split sep s) as [|seg segs]; [repeat constructor; exact Hne|].
      apply Forall_cons_iff in IH as [Hseg Hsegs].
      constructor; [constructor; assumption | exact Hsegs].
Qed.

Lemma slice_Forall {A} (Q : A -> Prop) (k : Z) (l : list A) :
  Forall Q l -> Forall Q (slice k l).
Proof. intros H. unfold slice. apply Forall_drop. exact H. Qed.

Lemma fit_row_Forall (Q : jsstring -> Prop) (n : nat)
    (row : list jsstring) :
  Q [] -> Forall Q row -> Forall Q (fit_row n row).
Proof.
  intros Hnil Hrow. unfold fit_row. rewrite push_empty_eq.
  assert (Hp : Forall Q (row ++ repeat [] (n - length row))).
  { apply Forall_app. split; [exact Hrow|].
    apply List.Forall_forall. intros x Hx.
    apply repeat_spec in Hx. subst x. exact Hnil. }
  destruct (n <? _)%nat; [apply Forall_take|]; exact Hp.
Qed.

(** X2. No header and no field of a row contains a line feed: the text is
    cut into lines before the quotes are looked at, so a quoted field
    never spans lines. *)
Theorem parseCSV_fields_within_a_line (csvText : jsstring)
    (o : CSVParseOptions) :
  let single_line (field : jsstring) := Forall (fun c => c <> LF) field in
  Forall single_line (headers (parseCSV csvText o))
  /\ Forall (Forall single_line) (rows (parseCSV csvText o)).
Proof.
  intros single_line.
  assert (Hlines : Forall single_line (dataLines_of csvText o)).
  { unfold dataLines_of. apply slice_Forall, split_no_sep. }
  destruct (dataLines_of csvText o) as [|firstLine rest] eqn:Hdata.
  - rewrite (parseCSV_no_data csvText o Hdata). split; constructor.
  - apply Forall_cons_iff in Hlines as [Hfirst Hrest].
    rewrite (parseCSV_spec csvText o firstLine rest Hdata). cbn.
    split; [apply parseCSVLine_Forall; exact Hfirst|].
    apply List.Forall_forall. intros row Hrow.
    apply in_map_iff in Hrow as ([i line] & <- & Hin). cbn [snd].
    apply fit_row_Forall; [constructor|].
    apply parseCSVLine_Forall.
    unfold data_rows, kept_lines in Hin. rewrite Hdata in Hin.
    apply filter_In in Hin as [Hin _].
    apply in_map_iff in Hin as ([j raw] & Heq & Hin).
    cbn in Heq. injection Heq as _ <-.
    apply trim_Forall. apply numbered_lookup in Hin as [_ Hin].
    exact (Forall_lookup_1 _ _ _ _ Hrest Hin).
Qed.

(** *** Line endings *)

Lemma parseCSVLine_snoc_ws (line delim quote : jsstring) (c : char) :
  is_ws c = true -> char_is c delim = false -> char_is c quote = false ->
  parseCSVLine (line ++ [c]) delim quote true =
  parseCSVLine line delim quote true.
Proof.
  intros Hws Hd Hq. unfold parseCSVLine.
  rewrite scan_snoc by exact Hq. cbn [scan]. rewrite Hq, Hd.
  cbn [andb fields currentField finish]. f_equal. f_equal.
  apply (trim_surrounded [] _ [c]); [reflexivity|].
  unfold all_ws. simpl. rewrite Hws. reflexivity.
Qed.

Lemma crlf_variant_trim (lines' lines : list jsstring) :
  Forall2 crlf_variant lines' lines ->
  List.map trim lines' = List.map trim lines.
Proof.
  induction 1 as [|l' l ls' ls [->| ->] _ IH]; simpl; [reflexivity| |].
  - rewrite IH. reflexivity.
  - rewrite IH. f_equal. apply (trim_surrounded [] l [CR]); reflexivity.
Qed.

Lemma slice_Forall2 {A} (R : A -> A -> Prop) (k : Z) (l' l : list A) :
  Forall2 R l' l -> Forall2 R (slice k l') (slice k l).
Proof.
  intros H. unfold slice. rewrite (Forall2_length _ _ _ H).
  apply Forall2_drop. exact H.
Qed.

Lemma split_to_crlf (csvText : jsstring) :
  Forall2 crlf_variant (split LF (to_crlf csvText)) (split LF csvText).
Proof.
  induction csvText as [|c s IH].
  - repeat constructor.
  - unfold to_crlf. cbn [flat_map]. fold (to_crlf s).
    destruct (split_cons LF s) as (seg & segs & Hs).
    destruct (split_cons LF (to_crlf s)) as (seg' & segs' & Hs').
    rewrite Hs, Hs' in IH. apply Forall2_cons_1 in IH as [Hseg Hsegs].
    destruct (c =? LF)%N eqn:E.
    + apply N.eqb_eq in E. subst c.
      change ([CR; LF] ++ to_crlf s) with (CR :: LF :: to_crlf s).
      cbn [split]. change (CR =? LF)%N with false.
      rewrite N.eqb_refl, Hs, Hs'.
      constructor; [right; reflexivity|]. constructor; assumption.
    + change ([c] ++ to_crlf s) with (c :: to_crlf s).
      cbn [split]. rewrite E, Hs, Hs'. constructor; [|exact Hsegs].
      destruct Hseg as [->| ->]; [left | right]; reflexivity.
Qed.

(** X3. With [trimFields], and a delimiter and quote character other than
    the carriage return, a document with CRLF line endings parses to the
    same result as the document with LF line endings. *)
Theorem parseCSV_crlf (csvText : jsstring) (o : CSVParseOptions) :
  trimFields_of o = true ->
  char_is CR (delimiter_of o) = false ->
  char_is CR (quoteChar_of o) = false ->
  parseCSV (to_crlf csvText) o = parseCSV csvText o.
Proof.
  intros Htf Hd Hq.
  pose proof (slice_Forall2 crlf_variant (skipHeaderLines_of o) _ _
                (split_to_crlf csvText)) as Hlines.
  fold (dataLines_of (to_crlf csvText) o) in Hlines.
  fold (dataLines_of csvText o) in Hlines.
  destruct (dataLines_of csvText o) as [|firstLine rest] eqn:Hdata.
  - apply Forall2_nil_inv_r in Hlines.
    rewrite (parseCSV_no_data _ o Hlines), (parseCSV_no_data _ o Hdata).
    reflexivity.
  - apply Forall2_cons_inv_r in Hlines
      as (firstLine' & rest' & Hfirst & Hrest & Hdata').
    rewrite (parseCSV_spec _ o firstLine' rest' Hdata'),
      (parseCSV_spec _ o firstLine rest Hdata).
    assert (Hhead : raw_row o firstLine' = raw_row o firstLine).
    { destruct Hfirst as [->| ->]; [reflexivity|]. unfold raw_row.
      rewrite Htf. apply parseCSVLine_snoc_ws; [reflexivity | exact Hd
                                                | exact Hq]. }
    unfold data_rows. rewrite Hdata, Hdata'. cbn [tl].
    rewrite !kept_lines_alt, (crlf_variant_trim _ _ Hrest), Hhead.
    reflexivity.
Qed.

Lemma parseCSV_crlf_witness :
  parseCSV (str "Zone,Org" ++ [CR; LF] ++ str "A,B" ++ [CR; LF]) no_options =
  parseCSV (str "Zone,Org" ++ [LF] ++ str "A,B" ++ [LF]) no_options.
Proof.
  apply (parseCSV_crlf (str "Zone,Org" ++ [LF] ++ str "A,B" ++ [LF])
           no_options); reflexivity.
Defined.

(** *** Round trip through a quoted document *)

Lemma split_plain (sep : char) (p : jsstring) :
  Forall (fun c => c <> sep) p -> split sep p = [p].
Proof.
  induction 1 as [|c p Hc _ IH]; [reflexivity|]. cbn [split].
  replace (c =? sep)%N with false by (symmetry; apply N.eqb_neq, Hc).
  rewrite IH. reflexivity.
Qed.

Lemma split_app_sep (sep : char) (p rest : jsstring) :
  Forall (fun c => c <> sep) p ->
  split sep (p ++ sep :: rest) = p :: split sep rest.
Proof.
  induction 1 as [|c p Hc _ IH]; cbn [app split].
  - rewrite N.eqb_refl. reflexivity.
  - replace (c =? sep)%N with false by (symmetry; apply N.eqb_neq, Hc).
    rewrite IH. reflexivity.
Qed.

Lemma split_join (sep : char) (lines : list jsstring) :
  lines <> [] -> Forall (Forall (fun c => c <> sep)) lines ->
  split sep (join [sep] lines) = lines.
Proof.
  induction lines as [|p lines IH]; intros Hne Hall; [congruence|].
  apply Forall_cons_iff in Hall as [Hp Hlines].
  destruct lines as [|p2 lines].
  - apply split_plain. exact Hp.
  - change (join [sep] (p :: p2 :: lines))
      with (p ++ sep :: join [sep] (p2 :: lines)).
    rewrite split_app_sep by exact Hp.
    rewrite IH by (discriminate || exact Hlines). reflexivity.
Qed.

Lemma quote_field_Forall (P : char -> Prop) (q : char) (f : jsstring) :
  P q -> Forall P f -> Forall P (quote_field q f).
Proof.
  intros Pq Hf. unfold quote_field. constructor; [exact Pq|].
  apply Forall_app. split; [|repeat constructor; exact Pq].
  unfold escape_quotes. induction Hf as [|c f Pc _ IH]; [constructor|].
  cbn [flat_map]. apply Forall_app. split; [|exact IH].
  destruct (c =? q)%N; repeat constructor; assumption.
Qed.

Lemma build_line_Forall (P : char -> Prop) (d q : char)
    (fs : list jsstring) :
  P d -> P q -> Forall (Forall P) fs -> Forall P (build_line d q fs).
Proof.
  intros Pd Pq Hfs. unfold build_line.
  induction Hfs as [|f fs Hf Hfs IH]; [constructor|].
  destruct fs as [|g fs].
  - apply quote_field_Forall; assumption.
  - change (join [d] (List.map (quote_field q) (f :: g :: fs)))
      with (quote_field q f ++ d :: join [d] (List.map (quote_field q)
                                                 (g :: fs))).
    apply Forall_app. split; [apply quote_field_Forall; assumption|].
    constructor; [exact Pd | exact IH].
Qed.

(** A quoted line starts and ends with the quote character. *)
Lemma build_line_ends (d q : char) (fs : list jsstring) :
  fs <> [] ->
  (exists x, build_line d q fs = q :: x)
  /\ (exists y, build_line d q fs = y ++ [q]).
Proof.
  intros Hne. destruct fs as [|f fs]; [congruence|]. clear Hne.
  split; [destruct fs; eexists; reflexivity|].
  revert f. induction fs as [|g fs IH]; intros f.
  - exists (q :: escape_quotes q f). reflexivity.
  - destruct (IH g) as [y Hy]. rewrite build_line_cons, Hy.
    exists (quote_field q f ++ d :: y).
    rewrite <- app_assoc. reflexivity.
Qed.

Lemma trim_fixed (s x y : jsstring) (c z : char) :
  s = c :: x -> s = y ++ [z] -> is_ws c = false -> is_ws z = false ->
  trim s = s.
Proof.
  intros Hs1 Hs2 Hc Hz. unfold trim.
  assert (Hstart : trimStart s = s)
    by (rewrite Hs1; simpl; rewrite Hc; reflexivity).
  rewrite Hstart, Hs2. unfold trimEnd. rewrite rev_app_distr. simpl.
  rewrite Hz. simpl. rewrite rev_involutive. reflexivity.
Qed.

Lemma trim_build_line (d q : char) (fs : list jsstring) :
  fs <> [] -> is_ws q = false ->
  trim (build_line d q fs) = build_line d q fs
  /\ is_empty (build_line d q fs) = false.
Proof.
  intros Hne Hq. destruct (build_line_ends d q fs Hne) as [[x Hx] [y Hy]].
  split; [exact (trim_fixed _ x y q q Hx Hy Hq Hq)|].
  rewrite Hx. reflexivity.
Qed.

Lemma raw_row_build_line (o : CSVParseOptions) (d q : char)
    (fs : list jsstring) :
  d <> q -> delimiter_of o = [d] -> quoteChar_of o = [q] ->
  trimFields_of o = false -> fs <> [] ->
  raw_row o (build_line d q fs) = fs.
Proof.
  intros Hdq Hd Hq Htf Hne. unfold raw_row. rewrite Hd, Hq, Htf.
  destruct fs as [|f fs]; [congruence|]. unfold parseCSVLine, scan_init.
  rewrite (scan_build_line d q false Hdq fs f []). simpl. f_equal.
  apply List.map_id.
Qed.

(** X4. The document made of a header and rows, each a non-empty list of
    fields without line feeds, written as quoted lines joined by line
    feeds, parses back without [trimFields]: the headers are the header,
    the rows are the rows fitted to the header count; when every row has
    the header count the rows are the rows themselves and there is no
    error. The delimiter, the quote character and the line feed must
    differ, and the quote character must not be white space. *)
Theorem document_round_trip (d q : char) (o : CSVParseOptions)
    (header : list jsstring) (records : list (list jsstring)) :
  d <> q -> d <> LF -> q <> LF -> is_ws q = false ->
  delimiter_of o = [d] -> quoteChar_of o = [q] ->
  trimFields_of o = false -> skipHeaderLines_of o = 0 ->
  header <> [] -> Forall (fun row => row <> []) records ->
  Forall (Forall (Forall (fun c => c <> LF))) (header :: records) ->
  let r := parseCSV (build_document d q (header :: records)) o in
  headers r = header
  /\ rows r = List.map (fit_row (length header)) records
  /\ (Forall (fun row => length row = length header) records ->
      rows r = records /\ errors r = []).
Proof.
  intros Hdq HdLF HqLF Hqws Hd Hq Htf Hskip Hhdr Hrows Hchars r.
  assert (Hdata : dataLines_of (build_document d q (header :: records)) o =
                  build_line d q header
                  :: List.map (build_line d q) records).
  { unfold dataLines_of, build_document. rewrite Hskip.
    rewrite split_join.
    - unfold slice. simpl. reflexivity.
    - discriminate.
    - apply List.Forall_forall. intros line Hline.
      apply in_map_iff in Hline as (fs & <- & Hfs).
      apply build_line_Forall; [exact HdLF | exact HqLF |].
      exact (proj1 (List.Forall_forall _ _) Hchars fs Hfs). }
  pose proof (parseCSV_spec _ o _ _ Hdata) as Hspec. cbv zeta in Hspec.
  rewrite (raw_row_build_line o d q header Hdq Hd Hq Htf Hhdr) in Hspec.
  assert (Hkept : List.map snd
                    (data_rows (build_document d q (header :: records)) o)
                  = List.map (build_line d q) records).
  { unfold data_rows. rewrite Hdata. cbn [tl]. rewrite kept_lines_lines.
    clear Hdata Hspec Hchars. induction Hrows as [|row rows Hrow _ IH];
      [reflexivity|].
    destruct (trim_build_line d q row Hrow Hqws) as [Ht He].
    cbn [List.map List.filter]. rewrite Ht, He, andb_false_r. cbn [negb].
    cbn [List.map]. rewrite Ht, IH. reflexivity. }
  assert (Hraw : forall il,
            In il (data_rows (build_document d q (header :: records)) o) ->
            exists row, In row records /\ raw_row o (snd il) = row).
  { intros il Hil. apply (in_map snd) in Hil. rewrite Hkept in Hil.
    apply in_map_iff in Hil as (row & <- & Hin). exists row.
    split; [exact Hin|].
    apply raw_row_build_line; try assumption.
    exact (proj1 (List.Forall_forall _ _) Hrows row Hin). }
  assert (Hr : rows r = List.map (fit_row (length header)) records).
  { subst r. rewrite Hspec. cbn [rows].
    rewrite <- (List.map_map snd
                  (fun line => fit_row (length header) (raw_row o line))).
    rewrite Hkept, List.map_map. apply map_ext_in. intros row Hin.
    rewrite raw_row_build_line; try assumption; [reflexivity|].
    exact (proj1 (List.Forall_forall _ _) Hrows row Hin). }
  split; [subst r; rewrite Hspec; reflexivity|]. split; [exact Hr|].
  intros Hlen. split.
  - rewrite Hr. rewrite <- (List.map_id records) at 2.
    apply map_ext_in. intros row Hin. apply fit_row_exact.
    exact (proj1 (List.Forall_forall _ _) Hlen row Hin).
  - subst r. rewrite Hspec. cbn [errors].
    destruct (List.filter _ _) as [|il bad] eqn:Hbad; [reflexivity|].
    assert (Hil : In il (il :: bad)) by (left; reflexivity).
    rewrite <- Hbad in Hil. apply filter_In in Hil as [Hil Hmis].
    destruct (Hraw il Hil) as (row & Hin & Heq).
    unfold mismatched in Hmis. rewrite Heq in Hmis.
    apply negb_true_iff, Nat.eqb_neq in Hmis. exfalso. apply Hmis.
    exact (proj1 (List.Forall_forall _ _) Hlen row Hin).
Qed.

Lemma document_round_trip_witness :
  let r :=
    parseCSV
      (build_document 44%N DQUOTE
         [[str "Zone"; str "Org"]; [str "A, x"; str " B "]])
      untrimmed_options in
  headers r = [str "Zone"; str "Org"]
  /\ rows r = [[str "A, x"; str " B "]]
  /\ errors r = [].
Proof.
  pose proof (document_round_trip 44%N DQUOTE untrimmed_options
                [str "Zone"; str "Org"] [[str "A, x"; str " B "]]) as H.
  cbv zeta. cbv zeta in H.
  destruct H as (Hh & _ & Hr); try reflexivity; try discriminate.
  - repeat constructor; discriminate.
  - vm_compute. repeat constructor; discriminate.
  - destruct Hr as [Hr He]; [repeat constructor|].
    split; [exact Hh|]. split; [exact Hr | exact He].
Defined.

(** *** Counting rows and errors *)

(** X5. When a header line is left, there are at most as many rows as
    lines after it (exactly as many without [skipEmptyLines]) and at most
    as many errors as rows; and there is no error exactly when every row
    is as it was tokenized, neither padded nor cut. *)
Theorem parseCSV_counts (csvText : jsstring) (o : CSVParseOptions)
    (firstLine : jsstring) (rest : list jsstring) :
  dataLines_of csvText o = firstLine :: rest ->
  let r := parseCSV csvText o in
  (length (errors r) <= length (rows r) <= length rest)%nat
  /\ (skipEmptyLines_of o = false -> length (rows r) = length rest)
  /\ (errors r = [] <->
      rows r = List.map (fun il => raw_row o (snd il))
                 (data_rows csvText o)).
Proof.
  intros Hdata r. subst r.
  rewrite (parseCSV_spec csvText o firstLine rest Hdata). cbn.
  set (n := length (raw_row o firstLine)).
  assert (Hkept : (length (data_rows csvText o) <= length rest)%nat).
  { rewrite <- (length_map snd). unfold data_rows. rewrite Hdata. cbn [tl].
    rewrite kept_lines_lines, length_map. apply filter_length_le. }
  rewrite !length_map. split; [|split].
  - split; [apply filter_length_le | exact Hkept].
  - intros Hse. rewrite <- (length_map snd). unfold data_rows.
    rewrite Hdata. cbn [tl]. rewrite kept_lines_lines, length_map, Hse.
    clear Hdata Hkept. f_equal.
    induction rest as [|x l IH]; [reflexivity|]. simpl. f_equal. exact IH.
  - split.
    + intros Hnone. apply map_eq_nil in Hnone. apply map_ext_in.
      intros il Hil. apply fit_row_exact. fold n.
      destruct (mismatched o n il) eqn:Hbad.
      * assert (Hin : In il (List.filter (mismatched o n)
                               (data_rows csvText o)))
          by (apply filter_In; split; assumption).
        rewrite Hnone in Hin. destruct Hin.
      * unfold mismatched in Hbad.
        apply negb_false_iff, Nat.eqb_eq in Hbad. exact Hbad.
    + intros Hsame.
      destruct (List.filter (mismatched o n) (data_rows csvText o))
        as [|il bad] eqn:Hbad; [reflexivity|]. exfalso.
      assert (Hil : In il (il :: bad)) by (left; reflexivity).
      rewrite <- Hbad in Hil. apply filter_In in Hil as [Hil Hmis].
      pose proof (proj1 map_ext_in_iff Hsame il Hil) as Heq.
      cbv beta in Heq. apply (f_equal (@length jsstring)) in Heq.
      rewrite fit_row_length in Heq. unfold mismatched in Hmis.
      apply negb_true_iff, Nat.eqb_neq in Hmis. fold n in Heq. lia.
Qed.

Lemma parseCSV_counts_witness :
  rows (parseCSV (str "a,b" ++ [LF] ++ str "c,d") no_options) =
    [[str "c"; str "d"]].
Proof.
  pose proof (parseCSV_counts (str "a,b" ++ [LF] ++ str "c,d")
                no_options (str "a,b") [str "c,d"] eq_refl) as H.
  cbv zeta in H. destruct H as (_ & _ & [H _]).
  rewrite (H eq_refl). reflexivity.
Defined.

Lemma split_snoc_sep (sep : char) (s : jsstring) :
  split sep (s ++ [sep]) = split sep s ++ [[]].
Proof.
  induction s as [|c s IH]; cbn [app split].
  - rewrite N.eqb_refl. reflexivity.
  - rewrite IH. destruct (c =? sep)%N; [reflexivity|].
    destruct (split_cons sep s) as (seg & segs & ->). reflexivity.
Qed.

Lemma slice_snoc {A} (k : Z) (l : list A) (x : A) :
  0 <= k -> slice k l <> [] -> slice k (l ++ [x]) = slice k l ++ [x].
Proof.
  intros Hk Hne. unfold slice in *.
  replace (k <? 0) with false in * by (symmetry; apply Z.ltb_ge; lia).
  assert (Hlt : k < Z.of_nat (length l)).
  { destruct (Z.lt_ge_cases k (Z.of_nat (length l))) as [H|H]; [exact H|].
    exfalso. apply Hne. apply skipn_all2. lia. }
  rewrite length_app. simpl.
  replace (Z.to_nat (Z.min k (Z.of_nat (length l + 1)))) with (Z.to_nat k)
    by lia.
  replace (Z.to_nat (Z.min k (Z.of_nat (length l)))) with (Z.to_nat k)
    by lia.
  rewrite skipn_app.
  replace (Z.to_nat k - length l)%nat with O by lia. reflexivity.
Qed.

Lemma numbered_snoc {A} (l : list A) (x : A) :
  forall i,
  numbered i (l ++ [x]) = numbered i l ++ [(i + Z.of_nat (length l), x)].
Proof.
  induction l as [|y l IH]; intros i; cbn [app numbered].
  - cbn [length]. rewrite Z.add_0_r. reflexivity.
  - rewrite IH.
    replace (i + 1 + Z.of_nat (length l))
      with (i + Z.of_nat (length (y :: l))) by (cbn [length]; lia).
    reflexivity.
Qed.

(** X6. With [skipEmptyLines], a header skip that is not negative and a
    header line in the text, a line feed added at the end of the text
    changes nothing in the result. *)
Theorem parseCSV_trailing_newline (csvText : jsstring)
    (o : CSVParseOptions) :
  skipEmptyLines_of o = true -> 0 <= skipHeaderLines_of o ->
  dataLines_of csvText o <> [] ->
  parseCSV (csvText ++ [LF]) o = parseCSV csvText o.
Proof.
  intros Hse Hskip Hne.
  assert (Hdata' : dataLines_of (csvText ++ [LF]) o =
                   dataLines_of csvText o ++ [[]]).
  { unfold dataLines_of in *. rewrite split_snoc_sep.
    apply slice_snoc; assumption. }
  destruct (dataLines_of csvText o) as [|firstLine rest] eqn:Hdata;
    [congruence|].
  rewrite (parseCSV_spec _ o firstLine (rest ++ [[]]) Hdata'),
    (parseCSV_spec _ o firstLine rest Hdata).
  assert (Hrows : data_rows (csvText ++ [LF]) o = data_rows csvText o).
  { unfold data_rows. rewrite Hdata', Hdata. cbn [app tl].
    unfold kept_lines. rewrite Hse, numbered_snoc, List.map_app,
      List.filter_app. cbn. apply app_nil_r. }
  rewrite Hrows. reflexivity.
Qed.

Lemma parseCSV_trailing_newline_witness :
  parseCSV (str "a,b" ++ [LF] ++ str "c,d" ++ [LF]) no_options =
  parseCSV (str "a,b" ++ [LF] ++ str "c,d") no_options.
Proof.
  apply (parseCSV_trailing_newline (str "a,b" ++ [LF] ++ str "c,d")
           no_options); [reflexivity | discriminate | discriminate].
Defined.

(** ** Properties of the other field normalizers *)

Lemma trim_idempotent (s : jsstring) : trim (trim s) = trim s.
Proof.
  destruct (trim s) as [|c x] eqn:E; [reflexivity|].
  destruct (exists_last (l := c :: x) ltac:(discriminate)) as (y & z & Hy).
  apply (trim_fixed (c :: x) x y c z eq_refl Hy).
  - exact (trim_first s x c E).
  - rewrite Hy in E. exact (trim_last s y z E).
Qed.

Lemma collapse_ws_spaces (s : jsstring) :
  forall inRun,
  Forall (fun c => is_ws c = true -> c = 32%N) (collapse_ws_from inRun s).
Proof.
  induction s as [|c s IH]; intros inRun; cbn [collapse_ws_from].
  - constructor.
  - destruct (is_ws c) eqn:E.
    + destruct inRun; [apply IH|]. constructor; [reflexivity | apply IH].
    + constructor; [congruence | apply IH].
Qed.

Lemma filter_Forall_both {A} (f : A -> bool) (P : A -> Prop) (l : list A) :
  Forall P l -> Forall (fun x => f x = true /\ P x) (List.filter f l).
Proof.
  induction 1 as [|x l Hx _ IH]; simpl; [constructor|].
  destruct (f x) eqn:E; [constructor; [split; assumption|]|]; exact IH.
Qed.

(** X7. A cleaned field holds only word characters, plain spaces and the
    characters [-], [.], [(] and [)], and has no white space at either
    end; an absent or empty value gives the empty string. *)
Theorem cleanDataField_shape (value : option jsstring) :
  Forall (fun c => clean_char c = true) (cleanDataField value)
  /\ trimmed (cleanDataField value)
  /\ (value = None \/ value = Some [] -> cleanDataField value = []).
Proof.
  split; [|split].
  - destruct value as [v|]; [|constructor]. unfold cleanDataField.
    destruct (is_empty v); [constructor|].
    apply trim_Forall.
    eapply Forall_impl;
      [apply filter_Forall_both, (collapse_ws_spaces _ false)|].
    intros c [Hf Hws]. unfold field_char in Hf. unfold clean_char.
    destruct (is_ws c); [rewrite (Hws eq_refl); reflexivity|].
    rewrite orb_false_r in Hf.
    destruct (is_word c); [reflexivity|]. simpl in *.
    destruct (c =? 32)%N; [reflexivity | exact Hf].
  - unfold trimmed. destruct value as [v|]; [|reflexivity].
    unfold cleanDataField. destruct (is_empty v); [reflexivity|].
    apply trim_idempotent.
  - intros [->| ->]; reflexivity.
Qed.

Lemma cleanDataField_shape_witness :
  cleanDataField (Some []) = [].
Proof.
  apply (cleanDataField_shape (Some [])). right. reflexivity.
Defined.

(** X8. Whatever the lower-casing of the host does, a normalized name
    holds only word characters and plain spaces and has no white space at
    either end. *)
Theorem normalizeName_shape (toLowerCase : jsstring -> jsstring)
    (name : option jsstring) :
  Forall (fun c => plain_char c = true) (normalizeName toLowerCase name)
  /\ trimmed (normalizeName toLowerCase name).
Proof.
  split.
  - destruct name as [v|]; [|constructor]. unfold normalizeName.
    destruct (is_empty v); [constructor|].
    apply trim_Forall.
    eapply Forall_impl;
      [apply filter_Forall_both, (collapse_ws_spaces _ false)|].
    intros c [Hf Hws]. unfold name_char in Hf. unfold plain_char.
    destruct (is_ws c); [rewrite (Hws eq_refl); reflexivity|].
    rewrite orb_false_r in Hf. rewrite Hf. reflexivity.
  - unfold trimmed. destruct name as [v|]; [|reflexivity].
    unfold normalizeName. destruct (is_empty v); [reflexivity|].
    apply trim_idempotent.
Qed.

Lemma clean_char_not_quote (c : char) :
  clean_char c = true -> is_quote_mark c = false.
Proof.
  intros Hc. unfold is_quote_mark.
  destruct (N.eqb_spec c 34) as [->|_]; [discriminate|].
  destruct (N.eqb_spec c 39) as [->|_]; [discriminate|]. reflexivity.
Qed.

Lemma clean_char_field_char (c : char) :
  clean_char c = true -> field_char c = true.
Proof.
  unfold clean_char, field_char. intros Hc.
  destruct (is_word c); [reflexivity|]. cbn [orb] in *.
  destruct (N.eqb_spec c 32) as [E|E]; [rewrite E; reflexivity|].
  cbn [orb] in Hc. destruct (is_ws c); [reflexivity | exact Hc].
Qed.

Lemma clean_char_ws (c : char) :
  clean_char c = true -> is_ws c = true -> c = 32%N.
Proof.
  unfold clean_char, is_word, is_digit, is_ws. intros Hc Hws.
  repeat first [ rewrite orb_true_iff in Hc | rewrite andb_true_iff in Hc
               | rewrite N.eqb_eq in Hc | rewrite N.leb_le in Hc ].
  repeat first [ rewrite orb_true_iff in Hws | rewrite andb_true_iff in Hws
               | rewrite N.eqb_eq in Hws | rewrite N.leb_le in Hws ].
  lia.
Qed.

Lemma strip_quote_marks_clean (v : jsstring) :
  Forall (fun c => clean_char c = true) v -> strip_quote_marks v = v.
Proof.
  intros Hv. unfold strip_quote_marks.
  assert (Hs1 : match v with
                | c :: r => if is_quote_mark c then r else v
                | [] => []
                end = v).
  { destruct v as [|c r]; [reflexivity|].
    apply Forall_cons_iff in Hv as [Hc _].
    rewrite (clean_char_not_quote c Hc). reflexivity. }
  rewrite Hs1. destruct (rev v) as [|z r] eqn:E; [reflexivity|].
  assert (Hz : clean_char z = true).
  { apply Forall_rev in Hv. rewrite E in Hv.
    apply Forall_cons_iff in Hv as [Hz _]. exact Hz. }
  rewrite (clean_char_not_quote z Hz). reflexivity.
Qed.

Lemma collapse_ws_single_spaced (v : jsstring) :
  Forall (fun c => clean_char c = true) v -> single_spaced v = true ->
  collapse_ws v = v.
Proof.
  unfold collapse_ws. induction 1 as [|c r Hc Hr IH]; intros Hss;
    [reflexivity|].
  cbn [single_spaced] in Hss. cbn [collapse_ws_from].
  destruct (is_ws c) eqn:Hws.
  - rewrite (clean_char_ws c Hc Hws). f_equal.
    destruct r as [|c2 r2]; [reflexivity|].
    apply andb_true_iff in Hss as [Hpair Hss].
    cbn [andb] in Hpair. apply negb_true_iff in Hpair.
    specialize (IH Hss). cbn [collapse_ws_from] in *.
    rewrite Hpair in *. exact IH.
  - f_equal. apply IH. destruct r; [reflexivity|].
    apply andb_true_iff in Hss as [_ Hss]. exact Hss.
Qed.

Lemma filter_all {A} (f : A -> bool) (l : list A) :
  Forall (fun x => f x = true) l -> List.filter f l = l.
Proof.
  induction 1 as [|x l Hx _ IH]; simpl; [reflexivity|].
  rewrite Hx, IH. reflexivity.
Qed.

(** X9. [cleanDataField] leaves a clean value as it is: a non-empty string
    of word characters, plain spaces and [-], [.], [(], [)] that has no
    white space at either end and no two spaces in a row. *)
Theorem cleanDataField_fixes_clean (v : jsstring) :
  v <> [] -> Forall (fun c => clean_char c = true) v ->
  trimmed v -> single_spaced v = true ->
  cleanDataField (Some v) = v.
Proof.
  intros Hne Hclean Htrim Hss. unfold cleanDataField.
  destruct v as [|c r]; [congruence|]. cbn [is_empty].
  unfold trimmed in Htrim. rewrite Htrim.
  rewrite strip_quote_marks_clean by exact Hclean.
  rewrite collapse_ws_single_spaced by assumption.
  rewrite filter_all; [exact Htrim|].
  eapply Forall_impl; [exact Hclean|]. exact clean_char_field_char.
Qed.

Lemma cleanDataField_fixes_clean_witness :
  cleanDataField (Some (str "North Zone (A-1)")) = str "North Zone (A-1)".
Proof.
  apply (cleanDataField_fixes_clean (str "North Zone (A-1)"));
    [discriminate | | reflexivity | reflexivity].
  vm_compute. repeat constructor.
Defined.

Lemma missing_loop_filter (toLowerCase : jsstring -> jsstring)
    (data : gmap jsstring jsstring) (requiredFields : list jsstring) :
  forall missingFields,
  missing_loop toLowerCase data requiredFields missingFields =
  if existsb (reads_inherited data) requiredFields
  then inl JSObject.TypeError
  else
    inr (missingFields ++
         List.filter (fun field => field_missing toLowerCase (data !! field))
           requiredFields).
Proof.
  induction requiredFields as [|field rest IH]; intros missingFields.
  - simpl. rewrite app_nil_r. reflexivity.
  - cbn [missing_loop List.filter existsb].
    unfold JSObject.get, reads_inherited at 1.
    destruct (data !! field) as [v|].
    + rewrite IH. cbn [orb]. destruct (existsb _ rest); [reflexivity|].
      destruct (field_missing toLowerCase (Some v)).
      * rewrite <- app_assoc. reflexivity.
      * reflexivity.
    + destruct (JSObject.inherited field); [reflexivity|].
      rewrite IH. cbn [orb]. destruct (existsb _ rest); [reflexivity|].
      cbn [field_missing]. rewrite <- app_assoc. reflexivity.
Qed.

(** X10. [validateRequiredFields] reads the required fields through the
    prototype of the record. When one of them is a name the record
    inherits and does not hold itself, such as constructor, the call
    throws a TypeError. Otherwise it reports the required fields, in their
    order, that the record lacks or holds with an empty or blank value or
    with a value the host lower-cases to n/a, and the record is valid
    exactly when every required field has a value that is none of
    these. *)
Theorem validateRequiredFields_spec (toLowerCase : jsstring -> jsstring)
    (data : gmap jsstring jsstring) (requiredFields : list jsstring) :
  let result := validateRequiredFields toLowerCase data requiredFields in
  (existsb (reads_inherited data) requiredFields = true ->
   result = inl JSObject.TypeError)
  /\ (existsb (reads_inherited data) requiredFields = false ->
      exists (isValid : bool) (missingFields : list jsstring),
        result = inr (isValid, missingFields)
        /\ missingFields =
             List.filter
               (fun field => field_missing toLowerCase (data !! field))
               requiredFields
        /\ (isValid = true <-> missingFields = [])
        /\ (isValid = true <->
            forall field, In field requiredFields ->
            exists v : jsstring,
              data !! field = Some v /\ v <> [] /\ trim v <> []
              /\ toLowerCase v <> str "n/a")).
Proof.
  cbv zeta. unfold validateRequiredFields.
  rewrite missing_loop_filter. cbn [app].
  split; [intros ->; reflexivity|]. intros ->.
  set (missing :=
         List.filter (fun field => field_missing toLowerCase (data !! field))
           requiredFields).
  assert (Hvalid : (length missing =? 0)%nat = true <-> missing = []).
  { rewrite Nat.eqb_eq. destruct missing; simpl; split; congruence. }
  exists (length missing =? 0)%nat, missing.
  split; [reflexivity|]. split; [reflexivity|]. split; [exact Hvalid|].
  rewrite Hvalid. subst missing. split.
  - intros Hnone field Hin.
    destruct (field_missing toLowerCase (data !! field)) eqn:Hm.
    + assert (Hf : In field
                     (List.filter
                        (fun field =>
                           field_missing toLowerCase (data !! field))
                        requiredFields))
        by (apply filter_In; split; assumption).
      rewrite Hnone in Hf. destruct Hf.
    + unfold field_missing in Hm. destruct (data !! field) as [v|];
        [|discriminate].
      apply orb_false_iff in Hm as [Hm Hna].
      apply orb_false_iff in Hm as [Hempty Hblank].
      unfold str_eqb in *. apply bool_decide_eq_false in Hna, Hblank.
      exists v. repeat split; try assumption.
      intros ->. discriminate.
  - intros Hall.
    destruct (List.filter _ requiredFields) as [|field bad] eqn:Hbad;
      [reflexivity|]. exfalso.
    assert (Hf : In field (field :: bad)) by (left; reflexivity).
    rewrite <- Hbad in Hf. apply filter_In in Hf as [Hin Hm].
    destruct (Hall field Hin) as (v & Hv & Hne & Hblank & Hna).
    cbv beta in Hm. rewrite Hv in Hm. unfold field_missing, str_eqb in Hm.
    apply orb_true_iff in Hm as [Hm|Hm];
      [apply orb_true_iff in Hm as [Hm|Hm]|].
    + destruct v; [congruence | discriminate].
    + apply bool_decide_eq_true in Hm. congruence.
    + apply bool_decide_eq_true in Hm. congruence.
Qed.

Lemma validateRequiredFields_spec_witness :
  validateRequiredFields (fun v => v)
    {[ str "zone" := str "North" ]} [str "zone"; str "constructor"]
  = inl JSObject.TypeError
  /\ exists isValid missingFields,
       validateRequiredFields (fun v => v)
         {[ str "zone" := str "North"; str "ac" := str " " ]}
         [str "zone"; str "ac"; str "mandal"]
       = inr (isValid, missingFields)
       /\ missingFields = [str "ac"; str "mandal"].
Proof.
  split.
  - apply (validateRequiredFields_spec (fun v => v)
             {[ str "zone" := str "North" ]}
             [str "zone"; str "constructor"]).
    reflexivity.
  - pose proof (validateRequiredFields_spec (fun v => v)
                  {[ str "zone" := str "North"; str "ac" := str " " ]}
                  [str "zone"; str "ac"; str "mandal"]) as H.
    cbv zeta in H. destruct H as (_ & H).
    destruct (H eq_refl) as (isValid & missingFields & Hres & Hmissing & _).
    exists isValid, missingFields.
    split; [exact Hres | rewrite Hmissing; reflexivity].
Defined.

(** X11. [formatPhoneNumber] keeps the digits of its input, with 91 put
    before them when there are ten; applied to its own result it changes
    it only in that case (the space after the country code goes), and a
    third application changes nothing. *)
Theorem formatPhoneNumber_again (phone : jsstring) :
  let format (p : jsstring) := formatPhoneNumber (Some p) in
  let digits := List.filter is_digit phone in
  List.filter is_digit (format phone) =
    (if (length digits =? 10)%nat then str "91" ++ digits else digits)
  /\ (length digits <> 10%nat -> format (format phone) = format phone)
  /\ (length digits = 10%nat ->
      format (format phone) = str "+91" ++ digits)
  /\ format (format (format phone)) = format (format phone).
Proof.
  intros format digits.
  assert (Hdd : List.filter is_digit digits = digits)
    by apply filter_filter_same.
  assert (Hplus : forall c,
            List.filter is_digit c = c -> length c = 12%nat ->
            startsWith (str "91") c = true ->
            format (str "+" ++ c) = str "+" ++ c).
  { intros c Hc Hlen Hpre. unfold format, formatPhoneNumber.
    change (is_empty (str "+" ++ c)) with false. cbv iota.
    change (List.filter is_digit (str "+" ++ c))
      with (List.filter is_digit c).
    rewrite Hc, Hlen, Hpre. reflexivity. }
  destruct (Nat.eq_dec (length digits) 10%nat) as [H10|H10].
  - assert (H1 : format phone = str "+91 " ++ digits).
    { unfold format, formatPhoneNumber.
      assert (is_empty phone = false) as ->
        by (destruct phone; [discriminate | reflexivity]).
      fold digits. rewrite H10. reflexivity. }
    assert (H2 : format (format phone) = str "+91" ++ digits).
    { rewrite H1. unfold format, formatPhoneNumber.
      change (List.filter is_digit (str "+91 " ++ digits))
        with (57%N :: 49%N :: List.filter is_digit digits).
      rewrite Hdd. cbn [length]. rewrite H10. reflexivity. }
    split; [|split; [congruence|split; [intros _; exact H2|]]].
    + rewrite H1, H10.
      change (List.filter is_digit (str "+91 " ++ digits))
        with (57%N :: 49%N :: List.filter is_digit digits).
      rewrite Hdd. reflexivity.
    + rewrite H2.
      apply (Hplus (57%N :: 49%N :: digits)).
      * change (List.filter is_digit (57%N :: 49%N :: digits))
          with (57%N :: 49%N :: List.filter is_digit digits).
        rewrite Hdd. reflexivity.
      * cbn [length]. rewrite H10. reflexivity.
      * reflexivity.
  - apply Nat.eqb_neq in H10 as H10b. rewrite H10b.
    assert (Hcases : (format phone = phone)
                     \/ (format phone = str "+" ++ digits
                         /\ length digits = 12%nat
                         /\ startsWith (str "91") digits = true)).
    { unfold format, formatPhoneNumber.
      destruct phone as [|c p]; [left; reflexivity|]. cbn [is_empty].
      fold digits. rewrite H10b.
      destruct (length digits =? 12)%nat eqn:H12; [|left; reflexivity].
      destruct (startsWith (str "91") digits) eqn:Hpre;
        [|left; reflexivity].
      right. apply Nat.eqb_eq in H12. repeat split; assumption. }
    assert (Hstable : format (format phone) = format phone).
    { destruct Hcases as [H1|(H1 & H12 & Hpre)].
      - rewrite H1. exact H1.
      - rewrite H1. apply Hplus; assumption. }
    split; [|split; [intros _; exact Hstable|split; [congruence|]]].
    + destruct Hcases as [H1|(H1 & _)]; rewrite H1; [reflexivity|].
      change (List.filter is_digit (str "+" ++ digits))
        with (List.filter is_digit digits). exact Hdd.
    + rewrite Hstable. exact Hstable.
Qed.

Lemma formatPhoneNumber_again_witness :
  formatPhoneNumber (Some (formatPhoneNumber (Some (str "98765 43210")))) =
    str "+919876543210"
  /\ formatPhoneNumber (Some (formatPhoneNumber (Some (str "12-3")))) =
     formatPhoneNumber (Some (str "12-3")).
Proof.
  split.
  - pose proof (formatPhoneNumber_again (str "98765 43210")) as H.
    cbv zeta in H. destruct H as (_ & _ & H & _). exact (H eq_refl).
  - pose proof (formatPhoneNumber_again (str "12-3")) as H.
    cbv zeta in H. destruct H as (_ & H & _). apply H. discriminate.
Defined.

(** ** Runs of the loader *)

Section LoaderRuns.

Import DataLoader.

Context {T : Type} (emptyT : T).
Variables (env : environment) (parser : CSVParseResult -> thrown + T).
Variables (dataSource url cacheKey : jsstring).
Variables (skipHeaderLines timeout retries : Z).

Lemma add_events_nil (m : manager T) : add_events [] m = m.
Proof. destruct m. unfold add_events. simpl. rewrite app_nil_r. reflexivity. Qed.

Lemma add_events_emit (e : event) (events : list event) (m : manager T) :
  add_events events (emit e m) = add_events (e :: events) m.
Proof.
  unfold add_events, emit. simpl. rewrite <- app_assoc. reflexivity.
Qed.

Lemma try_block_transport_failure (attempt : Z) (loc : locals)
    (m : manager T) :
  is_Some (transport_failure env attempt) ->
  exists e,
    try_block env parser dataSource url cacheKey skipHeaderLines timeout
      attempt loc m = (inl e, loc, emit (Fetched url timeout) m).
Proof.
  unfold transport_failure, try_block. intros [e He]. cbv zeta.
  destruct (fetch env attempt) as [e0|resp]; [eauto|].
  destruct (negb (ok resp)); [eauto|].
  destruct (text resp) as [e0|csvText]; [eauto|].
  destruct (is_empty (trim csvText)); [eauto | discriminate].
Qed.

(** An attempt that gets a text: the parse errors go to the local arrays
    whether the parser then throws or not. *)
Lemma try_block_parsed (attempt : Z) (E W : list jsstring) (m : manager T)
    (csvText : jsstring) :
  fetches_text env attempt csvText ->
  let parseResult := parseCSV csvText (loader_parse_options skipHeaderLines) in
  let loc1 := (E ++ CsvParser.errors parseResult,
               W ++ parse_warnings parseResult) in
  try_block env parser dataSource url cacheKey skipHeaderLines timeout
    attempt (E, W) m =
  match parser parseResult with
  | inl e => (inl e, loc1, emit (Fetched url timeout) m)
  | inr d =>
      (inr {| data := d; errors := fst loc1; warnings := snd loc1 |}, loc1,
       setLoadingState dataSource
         (full_state false true None (Some (now env)))
         (cache_put cacheKey d (emit (Fetched url timeout) m)))
  end.
Proof.
  intros (resp & Hf & Hok & Ht & Hne) parseResult loc1.
  unfold try_block. rewrite Hf, Hok, Ht, Hne. cbn [negb]. cbv zeta.
  fold (loader_parse_options skipHeaderLines). fold parseResult.
  assert (Hloc : (if (0 <? length (CsvParser.errors parseResult))%nat
                  then (fst (E, W) ++ CsvParser.errors parseResult,
                        snd (E, W)
                        ++ [str "CSV parsing completed with "
                            ++ num_to_string
                                 (Z.of_nat
                                    (length (CsvParser.errors parseResult)))
                            ++ str " errors"])
                  else (E, W)) = loc1).
  { subst loc1. unfold parse_warnings.
    destruct (CsvParser.errors parseResult) as [|x r] eqn:Herr.
    - simpl. rewrite !app_nil_r. reflexivity.
    - reflexivity. }
  rewrite Hloc. reflexivity.
Qed.

(** The loop over [n] attempts that throw and are not the last. *)
Lemma attempt_loop_failures (texts : Z -> option jsstring) (n : nat) :
  forall remaining attempt E W m,
  (n < remaining)%nat ->
  attempt + Z.of_nat n <= retries ->
  (forall j, attempt <= j < attempt + Z.of_nat n ->
     attempt_fails env parser skipHeaderLines j (texts j)) ->
  attempt_loop emptyT env parser dataSource url cacheKey skipHeaderLines
    timeout retries remaining attempt (E, W) m =
  attempt_loop emptyT env parser dataSource url cacheKey skipHeaderLines
    timeout retries (remaining - n) (attempt + Z.of_nat n)
    (E ++ flat_map (fun j => errors_added skipHeaderLines (texts j))
            (attempts_from attempt n),
     W ++ flat_map (fun j => warnings_added skipHeaderLines (texts j))
            (attempts_from attempt n))
    (add_events (failed_attempts url timeout attempt n) m).
Proof.
  induction n as [|n IH]; intros remaining attempt E W m Hn Hlast Hfail.
  - simpl. rewrite !app_nil_r, add_events_nil, Nat.sub_0_r, Z.add_0_r.
    reflexivity.
  - destruct remaining as [|remaining]; [lia|].
    cbn [attempt_loop attempts_from failed_attempts flat_map].
    pose proof (Hfail attempt ltac:(lia)) as Hthis.
    assert (Hnext : forall j, attempt + 1 <= j < attempt + 1 + Z.of_nat n ->
              attempt_fails env parser skipHeaderLines j (texts j)).
    { intros j Hj. apply Hfail. lia. }
    replace (attempt + Z.of_nat (S n)) with (attempt + 1 + Z.of_nat n) by lia.
    replace (S remaining - S n)%nat with (remaining - n)%nat by lia.
    destruct (Z.eqb_spec attempt retries) as [Heq|Hne]; [lia|].
    destruct (texts attempt) as [csvText|]; cbn [attempt_fails] in Hthis.
    + destruct Hthis as (Htext & e & He).
      rewrite (try_block_parsed attempt E W m csvText Htext). cbv zeta.
      rewrite He.
      rewrite (IH remaining (attempt + 1) _ _ _ ltac:(lia) ltac:(lia) Hnext).
      rewrite !add_events_emit.
      cbn [errors_added warnings_added]. rewrite <- !app_assoc. reflexivity.
    + destruct (try_block_transport_failure attempt (E, W) m Hthis)
        as (e & He).
      rewrite He.
      rewrite (IH remaining (attempt + 1) _ _ _ ltac:(lia) ltac:(lia) Hnext).
      rewrite !add_events_emit. reflexivity.
Qed.

End LoaderRuns.

(** X12. A load that misses the cache and succeeds at attempt [k + 1]
    after [k] attempts that threw: the data is what the parser made of the
    last text; the errors and warnings are those of every attempt that
    reached the parser, the failed ones included, in order; the source is
    left loaded at the time of the clock and the data is cached under the
    cache key; and the effects are the notification of the loading state,
    a fetch and a wait of 1000 ms times its number for each failed
    attempt, the last fetch, and the notification of the loaded state. *)
Theorem loadCSVData_recovers {T : Type} (emptyT : T)
    (env : DataLoader.environment) (dataSource url : jsstring)
    (parser : CSVParseResult -> DataLoader.thrown + T)
    (options : DataLoader.load_options) (m : DataLoader.manager T)
    (texts : Z -> option jsstring) (k : nat) (csvText : jsstring) (d : T) :
  let cacheKey := cacheKey_of dataSource options in
  let skip := load_skip_of options in
  let parseResult := parseCSV csvText (loader_parse_options skip) in
  DataLoader.dataCache m !! cacheKey = None ->
  Z.of_nat k < retries_of options ->
  (forall j, 1 <= j <= Z.of_nat k ->
     attempt_fails env parser skip j (texts j)) ->
  fetches_text env (Z.of_nat k + 1) csvText ->
  parser parseResult = inr d ->
  let res :=
    DataLoader.loadCSVData emptyT env dataSource url parser options m in
  fst res =
    {| DataLoader.data := d;
       DataLoader.errors :=
         flat_map (fun j => errors_added skip (texts j)) (attempts_from 1 k)
         ++ errors parseResult;
       DataLoader.warnings :=
         flat_map (fun j => warnings_added skip (texts j))
           (attempts_from 1 k)
         ++ parse_warnings parseResult |}
  /\ DataLoader.getLoadingState (snd res) dataSource =
       loaded_state (DataLoader.now env)
  /\ DataLoader.dataCache (snd res) =
       <[cacheKey := d]> (DataLoader.dataCache m)
  /\ DataLoader.trace (snd res) =
       DataLoader.trace m
       ++ notifications m dataSource loading_state
       ++ failed_attempts url (timeout_of options) 1 k
       ++ [DataLoader.Fetched url (timeout_of options)]
       ++ notifications m dataSource (loaded_state (DataLoader.now env)).
Proof.
  intros cacheKey skip parseResult Hmiss Hk Hfail Htext Hparser res.
  subst res. unfold DataLoader.loadCSVData.
  fold (cacheKey_of dataSource options). fold cacheKey. rewrite Hmiss.
  fold (retries_of options) (timeout_of options) (load_skip_of options).
  fold skip.
  rewrite (attempt_loop_failures emptyT env parser dataSource url cacheKey
             skip (timeout_of options) (retries_of options) texts k
             (Z.to_nat (retries_of options)) 1 [] [] _
             ltac:(lia) ltac:(lia));
    [|intros j Hj; apply Hfail; lia].
  destruct (Z.to_nat (retries_of options) - k)%nat as [|remaining] eqn:Hrem;
    [lia|].
  cbn [DataLoader.attempt_loop].
  replace (1 + Z.of_nat k) with (Z.of_nat k + 1) by lia.
  rewrite (try_block_parsed env parser dataSource url cacheKey skip
             (timeout_of options) (Z.of_nat k + 1) _ _ _ csvText Htext).
  cbv zeta. fold parseResult. rewrite Hparser. cbn [fst snd app].
  split; [reflexivity|].
  split; [apply getLoadingState_set|].
  split; [reflexivity|].
  cbn. unfold notifications, listeners_of. cbn.
  rewrite <- !app_assoc. reflexivity.
Qed.

Lemma loadCSVData_recovers_witness :
  let res :=
    DataLoader.loadCSVData 0%nat second_time_lucky (str "votes")
      (str "/votes.csv") strict_count DataLoader.default_options
      (empty_manager nat) in
  fst res =
    {| DataLoader.data := 1%nat;
       DataLoader.errors := [str "Row 2: Expected 2 columns, got 1"];
       DataLoader.warnings := [str "CSV parsing completed with 1 errors"] |}
  /\ DataLoader.trace (snd res) =
       [DataLoader.Fetched (str "/votes.csv") 30000;
        DataLoader.Waited 1000;
        DataLoader.Fetched (str "/votes.csv") 30000].
Proof.
  pose proof (loadCSVData_recovers 0%nat second_time_lucky (str "votes")
                (str "/votes.csv") strict_count DataLoader.default_options
                (empty_manager nat)
                (fun _ => Some (str "a,b" ++ [LF] ++ str "1")) 1
                (str "a,b" ++ [LF] ++ str "1,2") 1%nat) as H.
  cbv zeta in H.
  destruct H as (H1 & _ & _ & H4).
  - reflexivity.
  - reflexivity.
  - intros j Hj. assert (j = 1) as -> by lia. split.
    + eexists. repeat split; reflexivity.
    + eexists. reflexivity.
  - eexists. repeat split; reflexivity.
  - reflexivity.
  - cbv zeta. rewrite H1, H4. split; reflexivity.
Defined.

(** ** The shape of every run *)

Section LoaderShape.

Import DataLoader.

Context {T : Type} (emptyT : T).
Variables (env : environment) (parser : CSVParseResult -> thrown + T).
Variables (dataSource url cacheKey : jsstring).
Variables (skipHeaderLines timeout retries : Z).

(** An attempt ends in one of two ways. *)
Lemma try_block_cases (attempt : Z) (loc : locals) (m : manager T) :
  (exists e loc1,
     try_block env parser dataSource url cacheKey skipHeaderLines timeout
       attempt loc m = (inl e, loc1, emit (Fetched url timeout) m))
  \/ (exists result loc1,
        try_block env parser dataSource url cacheKey skipHeaderLines timeout
          attempt loc m =
        (inr result, loc1,
         setLoadingState dataSource
           (full_state false true None (Some (now env)))
           (cache_put cacheKey (data result)
              (emit (Fetched url timeout) m)))).
Proof.
  unfold try_block. cbv zeta.
  destruct (fetch env attempt) as [e0|resp]; [left; eauto|].
  destruct (negb (ok resp)); [left; eauto|].
  destruct (text resp) as [e0|csvText]; [left; eauto|].
  destruct (is_empty (trim csvText)); [left; eauto|].
  destruct (parser _) as [e0|d]; [left; eauto|].
  right. eexists {| data := d; errors := _; warnings := _ |}, _. reflexivity.
Qed.

Lemma notifications_set (st : PartialState) (m : manager T) :
  trace (setLoadingState dataSource st m) =
  trace m
  ++ notifications m dataSource
       (merge_state (getLoadingState m dataSource) st).
Proof. reflexivity. Qed.

(** The loop from any attempt on, when at least one attempt is left: some
    attempts fail, with a fetch and a wait each, and the run ends with one
    more fetch and the notification of the final state. *)
Lemma attempt_loop_run (remaining : nat) :
  forall attempt loc m,
  (1 <= remaining)%nat ->
  attempt + Z.of_nat remaining - 1 = retries ->
  let res := attempt_loop emptyT env parser dataSource url cacheKey
               skipHeaderLines timeout retries remaining attempt loc m in
  exists (f : nat) (final : DataLoadingState),
    (1 <= f <= remaining)%nat
    /\ trace (snd res) =
         trace m ++ failed_attempts url timeout attempt (f - 1)
         ++ [Fetched url timeout] ++ notifications m dataSource final
    /\ listeners (snd res) = listeners m
    /\ (forall other, other <> dataSource ->
          loadingStates (snd res) !! other = loadingStates m !! other)
    /\ getLoadingState (snd res) dataSource = final
    /\ ((final = loaded_state (now env)
         /\ dataCache (snd res) =
              <[cacheKey := data (fst res)]> (dataCache m))
        \/ (exists message,
              final = failed_state message
              /\ f = remaining
              /\ fst res = terminal_result emptyT dataSource retries message
              /\ dataCache (snd res) = dataCache m)).
Proof.
  induction remaining as [|remaining IH]; intros attempt loc m Hpos Hlast;
    [lia|].
  cbn [attempt_loop].
  destruct (try_block_cases attempt loc m)
    as [(e & loc1 & ->)|(result & loc1 & ->)].
  - destruct (Z.eqb_spec attempt retries) as [Heq|Hne].
    + assert (remaining = O) by lia. subst remaining. cbn [fst snd].
      exists 1%nat, (failed_state (error_message e)).
      split; [lia|]. split.
      { rewrite notifications_set. cbn. rewrite <- app_assoc. reflexivity. }
      split; [reflexivity|]. split.
      { intros other Hother. cbn. apply lookup_insert_ne. congruence. }
      split; [apply getLoadingState_set|].
      right. exists (error_message e). repeat split.
    + destruct (IH (attempt + 1) loc1
                  (emit (Waited (1000 * attempt))
                     (emit (Fetched url timeout) m))
                  ltac:(lia) ltac:(lia))
        as (f & final & Hf & Htrace & Hlisteners & Hstates & Hstate & Hout).
      cbv zeta. exists (S f), final.
      split; [lia|]. split.
      { rewrite Htrace. destruct f as [|f]; [lia|].
        replace (S (S f) - 1)%nat with (S f) by lia.
        replace (S f - 1)%nat with f by lia.
        cbn. rewrite <- !app_assoc. reflexivity. }
      split; [exact Hlisteners|]. split; [exact Hstates|].
      split; [exact Hstate|].
      destruct Hout as [(Hfinal & Hcache)|(message & Hfinal & Hall & Hres & Hcache)].
      * left. split; [exact Hfinal | exact Hcache].
      * right. exists message. repeat split; try assumption. lia.
  - cbn [fst snd].
    exists 1%nat, (loaded_state (now env)).
    split; [lia|]. split.
    { rewrite notifications_set. cbn. rewrite <- app_assoc. reflexivity. }
    split; [reflexivity|]. split.
    { intros other Hother. cbn. apply lookup_insert_ne. congruence. }
    split; [apply getLoadingState_set|].
    left. split; reflexivity.
Qed.

Lemma fetches_failed_attempts (attempt : Z) (n : nat) :
  fetches (failed_attempts url timeout attempt n) = n.
Proof.
  revert attempt. induction n as [|n IH]; intros attempt; [reflexivity|].
  cbn [failed_attempts]. unfold fetches in *. cbn. f_equal. apply IH.
Qed.

Lemma waits_failed_attempts (attempt : Z) (n : nat) :
  waits (failed_attempts url timeout attempt n) = backoff attempt n.
Proof.
  revert attempt. induction n as [|n IH]; intros attempt; [reflexivity|].
  cbn. f_equal. apply IH.
Qed.

Lemma waits_app (tr1 tr2 : list event) :
  waits (tr1 ++ tr2) = waits tr1 ++ waits tr2.
Proof. unfold waits. apply flat_map_app. Qed.

Lemma waits_notifications (m : manager T) (source : jsstring)
    (st : DataLoadingState) :
  waits (notifications m source st) = [].
Proof.
  unfold notifications. induction (listeners_of m source) as [|l ls IH];
    [reflexivity | exact IH].
Qed.

Lemma fetches_notifications (m : manager T) (source : jsstring)
    (st : DataLoadingState) :
  fetches (notifications m source st) = O.
Proof. apply fetches_notified. Qed.

Lemma notified_to_app (l : listener) (tr1 tr2 : list event) :
  notified_to l (tr1 ++ tr2) = notified_to l tr1 ++ notified_to l tr2.
Proof. unfold notified_to. apply flat_map_app. Qed.

Lemma notified_to_failed_attempts (l : listener) (attempt : Z) (n : nat) :
  notified_to l (failed_attempts url timeout attempt n) = [].
Proof.
  revert attempt. induction n as [|n IH]; intros attempt; [reflexivity|].
  cbn. apply IH.
Qed.

Lemma notified_to_absent (l : listener) (st : DataLoadingState)
    (ls : list listener) :
  l ∉ ls -> notified_to l (List.map (fun l' => Notified l' st) ls) = [].
Proof.
  induction ls as [|x ls IH]; intros Hl; [reflexivity|].
  apply not_elem_of_cons in Hl as [Hx Hls].
  change (notified_to l (List.map (fun l' => Notified l' st) (x :: ls)))
    with ((if Nat.eqb x l then [st] else [])
          ++ notified_to l (List.map (fun l' => Notified l' st) ls)).
  destruct (Nat.eqb_spec x l) as [E|E]; [congruence|]. simpl.
  apply IH, Hls.
Qed.

(** Each member of a listener set is called once. *)
Lemma notified_to_notifications (l : listener) (m : manager T)
    (source : jsstring) (st : DataLoadingState) :
  NoDup (listeners_of m source) ->
  notified_to l (notifications m source st) =
  if bool_decide (l ∈ listeners_of m source) then [st] else [].
Proof.
  unfold notifications.
  induction (listeners_of m source) as [|x ls IH]; intros Hnd.
  - reflexivity.
  - apply NoDup_cons in Hnd as [Hx Hls].
    change (notified_to l (List.map (fun l' => Notified l' st) (x :: ls)))
      with ((if Nat.eqb x l then [st] else [])
            ++ notified_to l (List.map (fun l' => Notified l' st) ls)).
    destruct (Nat.eqb_spec x l) as [E|E].
    + subst x. rewrite bool_decide_eq_true_2 by left.
      rewrite notified_to_absent by exact Hx. reflexivity.
    + simpl. rewrite (IH Hls).
      apply (f_equal (fun b : bool => if b then [st] else [])).
      apply bool_decide_ext. rewrite elem_of_cons. intuition congruence.
Qed.

End LoaderShape.

(** X13. Every load that misses the cache, with at least one attempt
    allowed: after the notification of the loading state, some [f - 1]
    attempts fail, each with a fetch and then a wait of 1000 ms times its
    number, and attempt [f] ends the run with its fetch and the
    notification of the final state. So [f] fetches are issued, at most
    [retries], and the waits are 1000, 2000, ... up to [1000 * (f - 1)].
    The final state is the loaded one, with the returned data cached under
    the cache key, or a failed one, after exactly [retries] attempts, with
    the terminal result and the cache unchanged. *)
Theorem loadCSVData_run {T : Type} (emptyT : T)
    (env : DataLoader.environment) (dataSource url : jsstring)
    (parser : CSVParseResult -> DataLoader.thrown + T)
    (options : DataLoader.load_options) (m : DataLoader.manager T) :
  let cacheKey := cacheKey_of dataSource options in
  let retries := retries_of options in
  let timeout := timeout_of options in
  DataLoader.dataCache m !! cacheKey = None ->
  1 <= retries ->
  let res :=
    DataLoader.loadCSVData emptyT env dataSource url parser options m in
  exists (f : nat) (final : DataLoader.DataLoadingState),
    (1 <= f)%nat /\ Z.of_nat f <= retries
    /\ DataLoader.trace (snd res) =
         DataLoader.trace m
         ++ notifications m dataSource loading_state
         ++ failed_attempts url timeout 1 (f - 1)
         ++ [DataLoader.Fetched url timeout]
         ++ notifications m dataSource final
    /\ fetches (DataLoader.trace (snd res)) =
         (fetches (DataLoader.trace m) + f)%nat
    /\ waits (DataLoader.trace (snd res)) =
         waits (DataLoader.trace m) ++ backoff 1 (f - 1)
    /\ DataLoader.getLoadingState (snd res) dataSource = final
    /\ ((final = loaded_state (DataLoader.now env)
         /\ DataLoader.dataCache (snd res) =
              <[cacheKey := DataLoader.data (fst res)]>
                (DataLoader.dataCache m))
        \/ (exists message,
              final = failed_state message
              /\ Z.of_nat f = retries
              /\ fst res = terminal_result emptyT dataSource retries message
              /\ DataLoader.dataCache (snd res) = DataLoader.dataCache m)).
Proof.
  intros cacheKey retries timeout Hmiss Hretries res.
  subst res. unfold DataLoader.loadCSVData.
  fold (cacheKey_of dataSource options). fold cacheKey. rewrite Hmiss.
  fold (retries_of options) (timeout_of options) (load_skip_of options).
  fold retries timeout.
  destruct (attempt_loop_run emptyT env parser dataSource url cacheKey
              (load_skip_of options) timeout retries (Z.to_nat retries) 1
              ([], [])
              (DataLoader.setLoadingState dataSource
                 (DataLoader.full_state true false None None) m)
              ltac:(lia) ltac:(lia))
    as (f & final & Hf & Htrace & _ & _ & Hstate & Hout).
  rewrite notifications_set in Htrace.
  change (DataLoader.merge_state _ _) with loading_state in Htrace.
  change (notifications (DataLoader.setLoadingState dataSource _ m)
            dataSource final)
    with (notifications m dataSource final) in Htrace.
  rewrite <- app_assoc in Htrace.
  exists f, final.
  split; [lia|]. split; [lia|]. split; [exact Htrace|].
  split.
  { rewrite Htrace, !fetches_app, !fetches_notifications,
      fetches_failed_attempts.
    change (fetches [DataLoader.Fetched url timeout]) with 1%nat. lia. }
  split.
  { rewrite Htrace, !waits_app, !waits_notifications, waits_failed_attempts.
    change (waits [DataLoader.Fetched url timeout]) with (@nil Z).
    rewrite !app_nil_r. reflexivity. }
  split; [exact Hstate|].
  destruct Hout as [(Hfinal & Hcache)|(message & Hfinal & Hall & Hres & Hcache)].
  - left. split; [exact Hfinal | exact Hcache].
  - right. exists message.
    split; [exact Hfinal|]. split; [lia|].
    split; [exact Hres | exact Hcache].
Qed.

Lemma loadCSVData_run_witness :
  let res :=
    DataLoader.loadCSVData tt (offline (str "Network down")) (str "votes")
      (str "/votes.csv") (fun _ => inr tt) DataLoader.default_options
      (empty_manager unit) in
  exists f : nat,
    (1 <= f)%nat /\ Z.of_nat f <= 3
    /\ waits (DataLoader.trace (snd res)) = backoff 1 (f - 1).
Proof.
  pose proof (loadCSVData_run tt (offline (str "Network down"))
                (str "votes") (str "/votes.csv") (fun _ => inr tt)
                DataLoader.default_options (empty_manager unit)) as H.
  cbv zeta in H.
  destruct H as (f & final & H1 & H2 & _ & _ & H5 & _).
  - reflexivity.
  - discriminate.
  - exists f. split; [exact H1|]. split; [exact H2 | exact H5].
Defined.


Lemma getCachedData_absent {T : Type} (truthy : T -> bool)
    (m : DataLoader.manager T) (key : jsstring) :
  DataLoader.dataCache m !! key = None ->
  DataLoader.getCachedData truthy m key = None.
Proof. unfold DataLoader.getCachedData. intros ->. reflexivity. Qed.



(** X15. What a load leaves alone, whatever the world and the options: the
    listeners, the states of the other sources, the cache under the keys
    other than the cache key, and the effects recorded so far, which are
    only added to. Likewise [clearCache], for the key that is the data
    source. *)
Theorem loadCSVData_frame {T : Type} (emptyT : T)
    (env : DataLoader.environment) (dataSource url : jsstring)
    (parser : CSVParseResult -> DataLoader.thrown + T)
    (options : DataLoader.load_options) (m : DataLoader.manager T) :
  frame dataSource (cacheKey_of dataSource options) m
    (snd (DataLoader.loadCSVData emptyT env dataSource url parser options m))
  /\ frame dataSource dataSource m (DataLoader.clearCache dataSource m).
Proof.
  assert (Hset : forall st,
            frame dataSource (cacheKey_of dataSource options) m
              (DataLoader.setLoadingState dataSource st m)).
  { intros st. split; [reflexivity|]. split.
    - intros other Hother. cbn. apply lookup_insert_ne. congruence.
    - split; [reflexivity|]. eexists. reflexivity. }
  split.
  - unfold DataLoader.loadCSVData.
    fold (cacheKey_of dataSource options).
    destruct (DataLoader.dataCache m !! cacheKey_of dataSource options)
      as [cached|] eqn:Hcache; [apply Hset|].
    fold (retries_of options) (timeout_of options) (load_skip_of options).
    destruct (Z.to_nat (retries_of options)) as [|n] eqn:Hn; [apply Hset|].
    destruct (attempt_loop_run emptyT env parser dataSource url
                (cacheKey_of dataSource options)
                (load_skip_of options) (timeout_of options)
                (retries_of options) (S n) 1 ([], [])
                (DataLoader.setLoadingState dataSource
                   (DataLoader.full_state true false None None) m)
                ltac:(lia) ltac:(lia))
      as (f & final & _ & Htrace & Hlisteners & Hstates & _ & Hout).
    split; [exact Hlisteners|]. split.
    { intros other Hother. rewrite (Hstates other Hother). cbn.
      apply lookup_insert_ne. congruence. }
    split.
    { intros other Hother.
      destruct Hout as [(_ & Hc)|(message & _ & _ & _ & Hc)]; rewrite Hc.
      - cbn. apply lookup_insert_ne. congruence.
      - reflexivity. }
    rewrite Htrace, notifications_set, <- app_assoc. eexists. reflexivity.
  - split; [reflexivity|]. split.
    { intros other Hother. cbn. apply lookup_insert_ne. congruence. }
    split.
    { intros other Hother. cbn. apply lookup_delete_ne. congruence. }
    eexists. reflexivity.
Qed.

(** X16. What a listener sees of a load (at least one attempt allowed, the
    listeners of the source being a set): a subscriber of the source is
    called with the loading state when the cache is missed, and then once
    with the state the source is left in; a listener that is not
    subscribed to the source is not called. *)
Theorem loadCSVData_notifies {T : Type} (emptyT : T)
    (env : DataLoader.environment) (dataSource url : jsstring)
    (parser : CSVParseResult -> DataLoader.thrown + T)
    (options : DataLoader.load_options) (m : DataLoader.manager T)
    (l : DataLoader.listener) :
  NoDup (listeners_of m dataSource) ->
  1 <= retries_of options ->
  let res :=
    DataLoader.loadCSVData emptyT env dataSource url parser options m in
  let final := DataLoader.getLoadingState (snd res) dataSource in
  notified_to l (DataLoader.trace (snd res)) =
  notified_to l (DataLoader.trace m)
  ++ (if bool_decide (l ∈ listeners_of m dataSource) then
        match DataLoader.dataCache m !! cacheKey_of dataSource options with
        | Some _ => [final]
        | None => [loading_state; final]
        end
      else []).
Proof.
  intros Hnd Hretries res final. subst final res.
  unfold DataLoader.loadCSVData.
  fold (cacheKey_of dataSource options).
  destruct (DataLoader.dataCache m !! cacheKey_of dataSource options)
    as [cached|] eqn:Hcache.
  - cbn [fst snd]. rewrite notifications_set, notified_to_app.
    rewrite (notified_to_notifications l m dataSource _ Hnd).
    rewrite getLoadingState_set. reflexivity.
  - fold (retries_of options) (timeout_of options) (load_skip_of options).
    destruct (attempt_loop_run emptyT env parser dataSource url
                (cacheKey_of dataSource options)
                (load_skip_of options) (timeout_of options)
                (retries_of options) (Z.to_nat (retries_of options)) 1
                ([], [])
                (DataLoader.setLoadingState dataSource
                   (DataLoader.full_state true false None None) m)
                ltac:(lia) ltac:(lia))
      as (f & final & _ & Htrace & _ & _ & Hstate & _).
    rewrite Hstate, Htrace, notifications_set.
    change (DataLoader.merge_state _ _) with loading_state.
    change (notifications (DataLoader.setLoadingState dataSource _ m)
              dataSource final)
      with (notifications m dataSource final).
    rewrite !notified_to_app, notified_to_failed_attempts.
    rewrite !(notified_to_notifications l m dataSource _ Hnd).
    change (notified_to l [DataLoader.Fetched url (timeout_of options)])
      with (@nil DataLoader.DataLoadingState).
    rewrite <- app_assoc.
    destruct (bool_decide (l ∈ listeners_of m dataSource)); reflexivity.
Qed.

Lemma loadCSVData_notifies_witness :
  let m := DataLoader.subscribe (str "votes") 5%nat (empty_manager unit) in
  let res :=
    DataLoader.loadCSVData tt (offline (str "Network down")) (str "votes")
      (str "/votes.csv") (fun _ => inr tt) DataLoader.default_options m in
  notified_to 5%nat (DataLoader.trace (snd res)) =
    [loading_state; failed_state (str "Network down")]
  /\ notified_to 6%nat (DataLoader.trace (snd res)) = [].
Proof.
  cbv zeta. split.
  - rewrite (loadCSVData_notifies tt (offline (str "Network down"))
               (str "votes") (str "/votes.csv") (fun _ => inr tt)
               DataLoader.default_options
               (DataLoader.subscribe (str "votes") 5%nat
                  (empty_manager unit)) 5%nat).
    + reflexivity.
    + vm_compute. apply NoDup_singleton.
    + discriminate.
  - reflexivity.
Defined.

(** ** Subscriptions *)

Section Subscriptions.

Import DataLoader.

Context {T : Type}.

Lemma listeners_of_subscribe (m : manager T) (dataSource other : jsstring)
    (l : listener) :
  listeners_of (subscribe dataSource l m) other =
  if decide (other = dataSource) then
    if bool_decide (l ∈ listeners_of m dataSource)
    then listeners_of m dataSource
    else listeners_of m dataSource ++ [l]
  else listeners_of m other.
Proof.
  unfold listeners_of, subscribe. cbn [listeners].
  destruct (decide (other = dataSource)) as [->|Hne].
  - rewrite lookup_insert_eq. reflexivity.
  - rewrite lookup_insert_ne by congruence. reflexivity.
Qed.

Lemma listeners_of_unsubscribe (m : manager T) (dataSource other : jsstring)
    (l : listener) :
  listeners_of (unsubscribe dataSource l m) other =
  if decide (other = dataSource) then
    List.filter (fun l' => negb (Nat.eqb l' l)) (listeners_of m dataSource)
  else listeners_of m other.
Proof.
  unfold listeners_of, unsubscribe.
  destruct (listeners m !! dataSource) as [current|] eqn:Hcur.
  - cbn [listeners default].
    destruct (decide (other = dataSource)) as [->|Hne].
    + rewrite lookup_insert_eq. reflexivity.
    + rewrite lookup_insert_ne by congruence. reflexivity.
  - destruct (decide (other = dataSource)) as [->|Hne]; [|reflexivity].
    exact (f_equal (default []) Hcur).
Qed.

Lemma subscribe_eq (m : manager T) (dataSource : jsstring) (l : listener) :
  subscribe dataSource l m =
  {| loadingStates := loadingStates m;
     dataCache := dataCache m;
     listeners :=
       <[dataSource := if bool_decide (l ∈ listeners_of m dataSource)
                       then listeners_of m dataSource
                       else listeners_of m dataSource ++ [l]]> (listeners m);
     trace := trace m |}.
Proof. reflexivity. Qed.

Lemma unsubscribe_twice (m : manager T) (dataSource : jsstring)
    (l : listener) :
  unsubscribe dataSource l (unsubscribe dataSource l m) =
  unsubscribe dataSource l m.
Proof.
  unfold unsubscribe.
  match goal with
  | |- _ = match ?x with _ => _ end => destruct x as [current|] eqn:Hcur
  end.
  - cbn [listeners loadingStates dataCache trace].
    rewrite lookup_insert_eq, insert_insert_eq, filter_filter_same.
    reflexivity.
  - rewrite Hcur. reflexivity.
Qed.

Lemma elem_of_without (l l' : listener) (ls : list listener) :
  l' ∈ List.filter (fun x => negb (Nat.eqb x l)) ls <-> l' ∈ ls /\ l' <> l.
Proof.
  rewrite !list_elem_of_In, filter_In, negb_true_iff, Nat.eqb_neq.
  reflexivity.
Qed.

Lemma without_absent (l : listener) (ls : list listener) :
  l ∉ ls -> List.filter (fun x => negb (Nat.eqb x l)) ls = ls.
Proof.
  intros Hl. apply filter_all. apply List.Forall_forall. intros x Hx.
  apply negb_true_iff, Nat.eqb_neq. intros ->.
  apply Hl, list_elem_of_In, Hx.
Qed.

End Subscriptions.

(** X17. Subscriptions are sets. After [subscribe] the listener is among
    the listeners of the source, and subscribing again changes nothing;
    after the function [subscribe] returned is called it is not, and
    calling it again changes nothing; for a listener that was not
    subscribed the two calls in turn leave the listeners of the source as
    they were. No other listener and no other source is touched, and a
    listener set stays free of duplicates. *)
Theorem subscribe_unsubscribe {T : Type} (m : DataLoader.manager T)
    (dataSource : jsstring) (l : DataLoader.listener) :
  (l ∈ listeners_of (DataLoader.subscribe dataSource l m) dataSource)
  /\ DataLoader.subscribe dataSource l (DataLoader.subscribe dataSource l m)
     = DataLoader.subscribe dataSource l m
  /\ (l ∉ listeners_of (DataLoader.unsubscribe dataSource l m) dataSource)
  /\ DataLoader.unsubscribe dataSource l
       (DataLoader.unsubscribe dataSource l m)
     = DataLoader.unsubscribe dataSource l m
  /\ (l ∉ listeners_of m dataSource ->
      listeners_of
        (DataLoader.unsubscribe dataSource l
           (DataLoader.subscribe dataSource l m)) dataSource
      = listeners_of m dataSource)
  /\ (forall other l', other <> dataSource \/ l' <> l ->
        (l' ∈ listeners_of (DataLoader.subscribe dataSource l m) other
         <-> l' ∈ listeners_of m other)
        /\ (l' ∈ listeners_of (DataLoader.unsubscribe dataSource l m) other
            <-> l' ∈ listeners_of m other))
  /\ (NoDup (listeners_of m dataSource) ->
      NoDup (listeners_of (DataLoader.subscribe dataSource l m) dataSource)
      /\ NoDup
           (listeners_of (DataLoader.unsubscribe dataSource l m) dataSource)).
Proof.
  split.
  { rewrite listeners_of_subscribe, decide_True by reflexivity.
    case_bool_decide as Hin; [exact Hin|].
    apply elem_of_app. right. apply list_elem_of_singleton. reflexivity. }
  split.
  { rewrite (subscribe_eq (DataLoader.subscribe dataSource l m)).
    rewrite listeners_of_subscribe, decide_True by reflexivity.
    rewrite !(subscribe_eq m).
    cbn [DataLoader.listeners DataLoader.loadingStates DataLoader.dataCache
         DataLoader.trace].
    rewrite insert_insert_eq. f_equal. f_equal.
    rewrite bool_decide_eq_true_2; [reflexivity|].
    case_bool_decide as Hin; [exact Hin|].
    apply elem_of_app. right. apply list_elem_of_singleton. reflexivity. }
  split.
  { rewrite listeners_of_unsubscribe, decide_True by reflexivity.
    rewrite elem_of_without. intros [_ Hne]. congruence. }
  split.
  { apply unsubscribe_twice. }
  split.
  { intros Hl.
    rewrite listeners_of_unsubscribe, decide_True by reflexivity.
    rewrite listeners_of_subscribe, decide_True by reflexivity.
    rewrite bool_decide_eq_false_2 by exact Hl.
    rewrite List.filter_app. cbn [List.filter]. rewrite Nat.eqb_refl.
    cbn [negb]. rewrite app_nil_r. apply without_absent, Hl. }
  split.
  { intros other l' Hother.
    rewrite listeners_of_subscribe, listeners_of_unsubscribe.
    destruct (decide (other = dataSource)) as [->|Hne];
      [|split; reflexivity].
    destruct Hother as [Hother|Hother]; [congruence|].
    split.
    - case_bool_decide as Hin; [reflexivity|].
      rewrite elem_of_app, list_elem_of_singleton. intuition congruence.
    - rewrite elem_of_without. intuition congruence. }
  intros Hnd. split.
  - rewrite listeners_of_subscribe, decide_True by reflexivity.
    case_bool_decide as Hin; [exact Hnd|].
    apply NoDup_app. split; [exact Hnd|]. split; [|apply NoDup_singleton].
    intros x Hx Hxl. apply list_elem_of_singleton in Hxl. congruence.
  - rewrite listeners_of_unsubscribe, decide_True by reflexivity.
    apply NoDup_ListNoDup, List.NoDup_filter, NoDup_ListNoDup, Hnd.
Qed.

Lemma subscribe_unsubscribe_witness :
  listeners_of
    (DataLoader.unsubscribe (str "votes") 5%nat
       (DataLoader.subscribe (str "votes") 5%nat (empty_manager unit)))
    (str "votes")
  = listeners_of (empty_manager unit) (str "votes")
  /\ NoDup
       (listeners_of
          (DataLoader.subscribe (str "votes") 5%nat (empty_manager unit))
          (str "votes")).
Proof.
  pose proof (subscribe_unsubscribe (empty_manager unit) (str "votes") 5%nat)
    as H.
  destruct H as (_ & _ & _ & _ & H5 & _ & H7).
  split.
  - apply H5. vm_compute. intros Hin. inversion Hin.
  - apply H7. vm_compute. constructor.
Defined.

(** ** Clearing the cache *)

(** A load that misses the cache issues a fetch, when an attempt is
    allowed. *)
Lemma loadCSVData_miss_fetches {T : Type} (emptyT : T)
    (env : DataLoader.environment) (dataSource url : jsstring)
    (parser : CSVParseResult -> DataLoader.thrown + T)
    (options : DataLoader.load_options) (m : DataLoader.manager T) :
  DataLoader.dataCache m !! cacheKey_of dataSource options = None ->
  1 <= retries_of options ->
  (fetches (DataLoader.trace m) <
   fetches
     (DataLoader.trace
        (snd (DataLoader.loadCSVData emptyT env dataSource url parser
                options m))))%nat.
Proof.
  intros Hmiss Hretries. unfold DataLoader.loadCSVData.
  fold (cacheKey_of dataSource options). rewrite Hmiss.
  fold (retries_of options) (timeout_of options) (load_skip_of options).
  destruct (attempt_loop_run emptyT env parser dataSource url
              (cacheKey_of dataSource options)
              (load_skip_of options) (timeout_of options)
              (retries_of options) (Z.to_nat (retries_of options)) 1
              ([], [])
              (DataLoader.setLoadingState dataSource
                 (DataLoader.full_state true false None None) m)
              ltac:(lia) ltac:(lia))
    as (f & final & Hf & Htrace & _).
  rewrite Htrace, !fetches_app, fetches_set.
  change (fetches [DataLoader.Fetched url (timeout_of options)]) with 1%nat.
  lia.
Qed.

(** X18. [clearCache] forgets the entry stored under the name of the data
    source and tells the subscribers of the source that it is idle again.
    A load whose cache key is the data source (the default) then fetches
    anew, when an attempt is allowed. But the data a load stored under
    another cache key is not forgotten: the next load with that key is
    served from the cache, without a fetch, and leaves the source
    loaded. *)
Theorem clearCache_then_load {T : Type} (emptyT : T)
    (env : DataLoader.environment) (dataSource url : jsstring)
    (parser : CSVParseResult -> DataLoader.thrown + T)
    (options : DataLoader.load_options) (m : DataLoader.manager T)
    (truthy : T -> bool) :
  let cacheKey := cacheKey_of dataSource options in
  let m1 := DataLoader.clearCache dataSource m in
  let res :=
    DataLoader.loadCSVData emptyT env dataSource url parser options m1 in
  DataLoader.getLoadingState m1 dataSource = DataLoader.idle_state
  /\ DataLoader.isDataLoaded m1 dataSource = false
  /\ DataLoader.getCachedData truthy m1 dataSource = None
  /\ DataLoader.trace m1 =
       DataLoader.trace m
       ++ notifications m dataSource DataLoader.idle_state
  /\ (cacheKey = dataSource -> 1 <= retries_of options ->
      (fetches (DataLoader.trace m) < fetches (DataLoader.trace (snd res)))%nat)
  /\ (forall cached,
        cacheKey <> dataSource ->
        DataLoader.dataCache m !! cacheKey = Some cached ->
        fst res = cached_result cached
        /\ fetches (DataLoader.trace (snd res)) = fetches (DataLoader.trace m)
        /\ DataLoader.isDataLoaded (snd res) dataSource = true).
Proof.
  intros cacheKey m1 res.
  assert (Hstate : DataLoader.getLoadingState m1 dataSource =
                   DataLoader.idle_state).
  { subst m1. unfold DataLoader.clearCache. apply getLoadingState_set. }
  assert (Hgone : DataLoader.dataCache m1 !! dataSource = None).
  { subst m1. unfold DataLoader.clearCache. cbn. apply lookup_delete_eq. }
  assert (Hfetches : fetches (DataLoader.trace m1) =
                     fetches (DataLoader.trace m)).
  { subst m1. unfold DataLoader.clearCache. rewrite fetches_set.
    reflexivity. }
  split; [exact Hstate|].
  split; [unfold DataLoader.isDataLoaded; rewrite Hstate; reflexivity|].
  split; [apply getCachedData_absent, Hgone|].
  split; [reflexivity|].
  split.
  - intros Hkey Hretries. rewrite <- Hfetches. subst res.
    apply loadCSVData_miss_fetches; [|exact Hretries].
    fold cacheKey. rewrite Hkey. exact Hgone.
  - intros cached Hkey Hcached.
    assert (Hkept : DataLoader.dataCache m1 !! cacheKey = Some cached).
    { subst m1. unfold DataLoader.clearCache. cbn.
      rewrite lookup_delete_ne by congruence. exact Hcached. }
    subst res. unfold DataLoader.loadCSVData.
    fold (cacheKey_of dataSource options). fold cacheKey. rewrite Hkept.
    cbn [fst snd]. split; [reflexivity|].
    split; [rewrite fetches_set; exact Hfetches|].
    unfold DataLoader.isDataLoaded. rewrite getLoadingState_set. reflexivity.
Qed.

Lemma clearCache_then_load_witness :
  let m :=
    DataLoader.cache_put (str "votes-v2") tt (empty_manager unit) in
  let options :=
    {| DataLoader.opt_skipHeaderLines := None;
       DataLoader.opt_cacheKey := Some (str "votes-v2");
       DataLoader.opt_retries := None; DataLoader.opt_timeout := None |} in
  (0 <
   fetches
     (DataLoader.trace
        (snd (DataLoader.loadCSVData tt (offline (str "Network down"))
                (str "votes") (str "/votes.csv") (fun _ => inr tt)
                DataLoader.default_options
                (DataLoader.clearCache (str "votes") m)))))%nat
  /\ fst (DataLoader.loadCSVData tt (offline (str "Network down"))
            (str "votes") (str "/votes.csv") (fun _ => inr tt) options
            (DataLoader.clearCache (str "votes") m))
     = cached_result tt.
Proof.
  cbv zeta. split.
  - pose proof (clearCache_then_load tt (offline (str "Network down"))
                  (str "votes") (str "/votes.csv") (fun _ => inr tt)
                  DataLoader.default_options
                  (DataLoader.cache_put (str "votes-v2") tt
                     (empty_manager unit)) (fun _ => true)) as H.
    cbv zeta in H. destruct H as (_ & _ & _ & _ & H & _).
    exact (H eq_refl ltac:(discriminate)).
  - pose proof (clearCache_then_load tt (offline (str "Network down"))
                  (str "votes") (str "/votes.csv") (fun _ => inr tt)
                  {| DataLoader.opt_skipHeaderLines := None;
                     DataLoader.opt_cacheKey := Some (str "votes-v2");
                     DataLoader.opt_retries := None;
                     DataLoader.opt_timeout := None |}
                  (DataLoader.cache_put (str "votes-v2") tt
                     (empty_manager unit)) (fun _ => true)) as H.
    cbv zeta in H. destruct H as (_ & _ & _ & _ & _ & H).
    destruct (H tt) as (H1 & _).
    + discriminate.
    + reflexivity.
    + exact H1.
Defined.

(** X19. [clearAllCaches] forgets every cached value and every state, so
    each source reads as idle and not loaded, and a later load fetches
    anew whatever its cache key, when an attempt is allowed. It keeps the
    subscriptions but, unlike [clearCache], calls no listener. *)
Theorem clearAllCaches_then_load {T : Type} (emptyT : T)
    (env : DataLoader.environment) (dataSource url : jsstring)
    (parser : CSVParseResult -> DataLoader.thrown + T)
    (options : DataLoader.load_options) (m : DataLoader.manager T)
    (truthy : T -> bool) :
  let m1 := DataLoader.clearAllCaches m in
  let res :=
    DataLoader.loadCSVData emptyT env dataSource url parser options m1 in
  (forall source,
     DataLoader.getLoadingState m1 source = DataLoader.idle_state
     /\ DataLoader.isDataLoaded m1 source = false
     /\ DataLoader.getCachedData truthy m1 source = None)
  /\ DataLoader.listeners m1 = DataLoader.listeners m
  /\ DataLoader.trace m1 = DataLoader.trace m
  /\ (1 <= retries_of options ->
      (fetches (DataLoader.trace m) < fetches (DataLoader.trace (snd res)))%nat).
Proof.
  intros m1 res.
  assert (Hempty : forall key, DataLoader.dataCache m1 !! key = None).
  { intros key. subst m1. unfold DataLoader.clearAllCaches. cbn.
    apply lookup_empty. }
  split.
  { intros source.
    assert (Hstate : DataLoader.getLoadingState m1 source =
                     DataLoader.idle_state).
    { subst m1. unfold DataLoader.getLoadingState, DataLoader.clearAllCaches.
      cbn. rewrite lookup_empty. reflexivity. }
    split; [exact Hstate|].
    split; [unfold DataLoader.isDataLoaded; rewrite Hstate; reflexivity|].
    apply getCachedData_absent, Hempty. }
  split; [reflexivity|]. split; [reflexivity|].
  intros Hretries. subst res.
  change (DataLoader.trace m) with (DataLoader.trace m1).
  apply loadCSVData_miss_fetches; [apply Hempty | exact Hretries].
Qed.

Lemma clearAllCaches_then_load_witness :
  let m :=
    DataLoader.cache_put (str "votes") tt (empty_manager unit) in
  (0 <
   fetches
     (DataLoader.trace
        (snd (DataLoader.loadCSVData tt (offline (str "Network down"))
                (str "votes") (str "/votes.csv") (fun _ => inr tt)
                DataLoader.default_options (DataLoader.clearAllCaches m)))))%nat.
Proof.
  pose proof (clearAllCaches_then_load tt (offline (str "Network down"))
                (str "votes") (str "/votes.csv") (fun _ => inr tt)
                DataLoader.default_options
                (DataLoader.cache_put (str "votes") tt (empty_manager unit))
                (fun _ => true)) as H.
  cbv zeta in H. destruct H as (_ & _ & _ & H).
  apply H. discriminate.
Defined.

(** ** The Mandal vote share data *)

Section Mandal.

Import MandalVoteShare.

Variables normalizeZoneName normalizeOrgDistrictName normalizeACName :
  jsstring -> jsstring.

Lemma own_or_get {V} (fresh : V) (o : gmap jsstring V) (key : jsstring) :
  JSObject.inherited key = false ->
  JSObject.own_or fresh (JSObject.get o key) = Some (default fresh (o !! key)).
Proof.
  intros Hkey. unfold JSObject.get. destruct (o !! key) as [v|].
  - reflexivity.
  - rewrite Hkey. reflexivity.
Qed.

(** Under plain names the lookup reads own properties only. *)
Lemma entries_at_plain (data : MandalVoteShareData)
    (zone org ac : jsstring) :
  plain_key (zone, org, ac) = true ->
  entries_at data zone org ac = Some (own_entries data zone org ac).
Proof.
  unfold plain_key. cbn [fst snd]. intros Hkey.
  apply andb_true_iff in Hkey as [Hkey Hac].
  apply andb_true_iff in Hkey as [Hzone Horg].
  apply negb_true_iff in Hzone, Horg, Hac.
  unfold entries_at, own_entries, JSObject.get.
  unfold MandalVoteShareData in *.
  destruct (data !! zone) as [orgs|]; cbn [default from_option id].
  - destruct (orgs !! org) as [acs|]; cbn [default from_option id].
    + destruct (acs !! ac) as [entries|]; cbn [default from_option id].
      * reflexivity.
      * rewrite Hac. reflexivity.
    + rewrite Horg, lookup_empty. reflexivity.
  - rewrite Hzone, !lookup_empty. cbn [default from_option id].
    rewrite lookup_empty. reflexivity.
Qed.

(** What the push of an entry does to the entries under each key. *)
Lemma own_entries_push (data : MandalVoteShareData)
    (nz no na zone org ac : jsstring) (e : MandalEntry) :
  let orgs := default ∅ (data !! nz) in
  let acs := default ∅ (orgs !! no) in
  let entries := default [] (acs !! na) in
  own_entries
    (<[nz := <[no := <[na := entries ++ [e]]> acs]> orgs]> data)
    zone org ac =
  own_entries data zone org ac
  ++ (if bool_decide ((nz, no, na) = (zone, org, ac)) then [e] else []).
Proof.
  intros orgs acs entries. unfold own_entries.
  unfold MandalVoteShareData in *.
  destruct (decide (nz = zone)) as [<-|Hz].
  - rewrite lookup_insert_eq. cbn [default from_option id].
    destruct (decide (no = org)) as [<-|Ho].
    + rewrite lookup_insert_eq. cbn [default from_option id].
      destruct (decide (na = ac)) as [<-|Ha].
      * rewrite lookup_insert_eq, bool_decide_eq_true_2 by reflexivity.
        reflexivity.
      * rewrite lookup_insert_ne by exact Ha.
        rewrite bool_decide_eq_false_2 by congruence.
        rewrite app_nil_r. reflexivity.
    + rewrite lookup_insert_ne by exact Ho.
      rewrite bool_decide_eq_false_2 by congruence.
      rewrite app_nil_r. reflexivity.
  - rewrite lookup_insert_ne by exact Hz.
    rewrite bool_decide_eq_false_2 by congruence.
    rewrite app_nil_r. reflexivity.
Qed.

Lemma process_row_rejected (data : MandalVoteShareData)
    (errors : list jsstring) (index : Z) (row : list jsstring) :
  row_accepted row = false ->
  exists errors',
    process_row normalizeZoneName normalizeOrgDistrictName normalizeACName
      (data, errors) (index, row) = Some (data, errors').
Proof.
  unfold row_accepted, process_row.
  destruct (length row <? 10)%nat; [eauto|]. cbn [negb andb].
  intros Hempty. apply negb_false_iff in Hempty. rewrite Hempty. eauto.
Qed.

Lemma process_row_accepted (data : MandalVoteShareData)
    (errors : list jsstring) (index : Z) (row : list jsstring) :
  row_accepted row = true ->
  plain_key
    (row_key normalizeZoneName normalizeOrgDistrictName normalizeACName row)
  = true ->
  exists data',
    process_row normalizeZoneName normalizeOrgDistrictName normalizeACName
      (data, errors) (index, row) = Some (data', errors)
    /\ forall zone org ac,
         own_entries data' zone org ac =
         own_entries data zone org ac
         ++ (if bool_decide
                  (row_key normalizeZoneName normalizeOrgDistrictName
                     normalizeACName row = (zone, org, ac))
             then [entry_of row] else []).
Proof.
  unfold row_accepted, process_row, plain_key, row_key. cbn [fst snd].
  destruct (length row <? 10)%nat; [discriminate|]. cbn [negb andb].
  intros Hfull Hkey. apply negb_true_iff in Hfull. rewrite Hfull.
  apply andb_true_iff in Hkey as [Hkey Hac].
  apply andb_true_iff in Hkey as [Hzone Horg].
  apply negb_true_iff in Hzone, Horg, Hac.
  cbv zeta.
  rewrite (own_or_get _ _ _ Hzone), (own_or_get _ _ _ Horg),
    (own_or_get _ _ _ Hac).
  eexists. split; [reflexivity|].
  intros zone org ac. apply own_entries_push.
Qed.

(** The rows are grouped by their keys, in their order. *)
Lemma process_rows_spec (rows : list (list jsstring)) :
  rows_plain normalizeZoneName normalizeOrgDistrictName normalizeACName rows
  = true ->
  forall (index : Z) (data : MandalVoteShareData) (errors : list jsstring),
  exists data' errors',
    process_rows normalizeZoneName normalizeOrgDistrictName normalizeACName
      (indexed_from index rows) (data, errors) = Some (data', errors')
    /\ forall zone org ac,
         own_entries data' zone org ac =
         own_entries data zone org ac
         ++ List.map entry_of
              (rows_at normalizeZoneName normalizeOrgDistrictName
                 normalizeACName rows zone org ac).
Proof.
  induction rows as [|row rows IH]; intros Hplain index data errors.
  - exists data, errors. split; [reflexivity|]. intros zone org ac.
    simpl. rewrite app_nil_r. reflexivity.
  - cbn [rows_plain forallb] in Hplain.
    apply andb_true_iff in Hplain as [Hrow Hrows].
    cbn [indexed_from process_rows]. unfold rows_at. cbn [List.filter].
    destruct (row_accepted row) eqn:Haccepted; cbn [implb andb] in *.
    + destruct (process_row_accepted data errors index row Haccepted Hrow)
        as (data1 & -> & Hpush).
      destruct (IH Hrows (index + 1) data1 errors)
        as (data' & errors' & -> & Hrest).
      exists data', errors'. split; [reflexivity|]. intros zone org ac.
      rewrite Hrest, Hpush.
      destruct (bool_decide _); cbn [List.map];
        rewrite <- app_assoc; reflexivity.
    + destruct (process_row_rejected data errors index row Haccepted)
        as (errors1 & ->).
      destruct (IH Hrows (index + 1) data errors1)
        as (data' & errors' & -> & Hrest).
      exists data', errors'. split; [reflexivity | exact Hrest].
Qed.

Lemma process_rows_rejected (rows : list (list jsstring)) :
  forall (index : Z) (data : MandalVoteShareData) (errors : list jsstring),
  Forall (fun row => row_accepted row = false) rows ->
  exists errors',
    process_rows normalizeZoneName normalizeOrgDistrictName normalizeACName
      (indexed_from index rows) (data, errors) = Some (data, errors').
Proof.
  induction rows as [|row rows IH]; intros index data errors Hall.
  - exists errors. reflexivity.
  - apply Forall_cons_iff in Hall as [Hrow Hrows].
    cbn [indexed_from process_rows].
    destruct (process_row_rejected data errors index row Hrow)
      as (errors1 & ->).
    apply IH, Hrows.
Qed.

Lemma own_entries_empty (zone org ac : jsstring) :
  own_entries ∅ zone org ac = [].
Proof.
  unfold own_entries, MandalVoteShareData.
  rewrite lookup_empty. cbn [default from_option id].
  rewrite lookup_empty. cbn [default from_option id].
  rewrite lookup_empty. reflexivity.
Qed.

(** The row parser on rows with plain keys. *)
Lemma rowParser_plain (parseResult : CSVParseResult) :
  rows_plain normalizeZoneName normalizeOrgDistrictName normalizeACName
    (rows parseResult) = true ->
  exists data,
    rowParser normalizeZoneName normalizeOrgDistrictName normalizeACName
      parseResult = inr (Some data)
    /\ forall zone org ac,
         plain_key (zone, org, ac) = true ->
         entries_at data zone org ac =
         Some (List.map entry_of
                 (rows_at normalizeZoneName normalizeOrgDistrictName
                    normalizeACName (rows parseResult) zone org ac)).
Proof.
  intros Hplain. unfold rowParser.
  destruct (process_rows_spec (rows parseResult) Hplain 0 ∅ [])
    as (data & errors' & -> & Hgroups).
  exists data. split; [reflexivity|]. intros zone org ac Hkey.
  rewrite (entries_at_plain data zone org ac Hkey), Hgroups,
    own_entries_empty.
  reflexivity.
Qed.

End Mandal.

(** Every row of a parse result has as many fields as there are
    headers. *)
Lemma parseCSV_rows_length (csvText : jsstring) (o : CSVParseOptions) :
  Forall
    (fun row => length row = length (headers (parseCSV csvText o)))
    (rows (parseCSV csvText o)).
Proof.
  destruct (dataLines_of csvText o) as [|firstLine rest] eqn:Hdata.
  - rewrite (parseCSV_no_data csvText o Hdata). constructor.
  - rewrite (parseCSV_spec csvText o firstLine rest Hdata). cbn [rows headers].
    apply List.Forall_forall. intros row Hin.
    apply in_map_iff in Hin as (il & <- & _). apply fit_row_length.
Qed.

(** X20. On rows whose normalized zone, org district and AC are not names
    of members of [Object.prototype], the Mandal row parser returns the
    object that groups the rows it accepts by these three names: the
    entries found under such a key are those of the accepted rows with
    that key, in the order of the rows. A row with fewer than ten columns,
    or with an empty zone, org district, AC or mandal, adds nothing. *)
Theorem rowParser_groups
    (normalizeZoneName normalizeOrgDistrictName normalizeACName :
       jsstring -> jsstring)
    (parseResult : CSVParseResult) :
  rows_plain normalizeZoneName normalizeOrgDistrictName normalizeACName
    (rows parseResult) = true ->
  exists data,
    MandalVoteShare.rowParser normalizeZoneName normalizeOrgDistrictName
      normalizeACName parseResult = inr (Some data)
    /\ forall zone org ac,
         plain_key (zone, org, ac) = true ->
         MandalVoteShare.entries_at data zone org ac =
         Some (List.map MandalVoteShare.entry_of
                 (rows_at normalizeZoneName normalizeOrgDistrictName
                    normalizeACName (rows parseResult) zone org ac)).
Proof. apply rowParser_plain. Qed.

Lemma rowParser_groups_witness :
  exists data,
    MandalVoteShare.rowParser (fun s => s) (fun s => s) (fun s => s)
      (parseCSV mandal_file (loader_parse_options 2)) = inr (Some data)
    /\ option_map (List.map MandalVoteShare.name)
         (MandalVoteShare.entries_at data (str "North") (str "Kannur")
            (str "Dharmadam"))
       = Some [str "Pinarayi"; str "Vengad"].
Proof.
  destruct (rowParser_groups (fun s => s) (fun s => s) (fun s => s)
              (parseCSV mandal_file (loader_parse_options 2)))
    as (data & Hdata & Hgroups).
  - vm_compute. reflexivity.
  - exists data. split; [exact Hdata|].
    rewrite (Hgroups (str "North") (str "Kannur") (str "Dharmadam"))
      by reflexivity.
    vm_compute. reflexivity.
Defined.

(** X21. A file whose header line has fewer than ten fields loads as the
    empty data, whatever its rows hold: [parseCSV] fits every row to the
    number of headers, and the row parser skips the rows with fewer than
    ten columns. *)
Theorem rowParser_narrow_header
    (normalizeZoneName normalizeOrgDistrictName normalizeACName :
       jsstring -> jsstring)
    (csvText : jsstring) (o : CSVParseOptions) :
  (length (headers (parseCSV csvText o)) < 10)%nat ->
  MandalVoteShare.rowParser normalizeZoneName normalizeOrgDistrictName
    normalizeACName (parseCSV csvText o) = inr (Some ∅).
Proof.
  intros Hnarrow. unfold MandalVoteShare.rowParser.
  destruct (process_rows_rejected normalizeZoneName normalizeOrgDistrictName
              normalizeACName (rows (parseCSV csvText o)) 0 ∅ [])
    as (errors' & ->); [|reflexivity].
  eapply Forall_impl; [apply parseCSV_rows_length|].
  intros row Hlen. cbv beta in Hlen. unfold row_accepted.
  replace (length row <? 10)%nat with true; [reflexivity|].
  symmetry. apply Nat.ltb_lt. lia.
Qed.

Lemma rowParser_narrow_header_witness :
  MandalVoteShare.rowParser (fun s => s) (fun s => s) (fun s => s)
    (parseCSV narrow_file (loader_parse_options 2)) = inr (Some ∅).
Proof.
  apply (rowParser_narrow_header (fun s => s) (fun s => s) (fun s => s)
           narrow_file (loader_parse_options 2)).
  vm_compute. lia.
Defined.

(** X22. The first load of the Mandal data, when the first fetch brings a
    text whose accepted rows have, for normalized zone, org district and
    AC, no name of a member of [Object.prototype]: one fetch is issued,
    the source is left loaded, and from then on [getMandalVoteShareData]
    returns, for an AC, an org district and a zone whose normalized names
    are no such names either, the entries of the accepted rows of the
    parsed text whose normalized names are the normalized names asked
    for. *)
Theorem loadMandalVoteShareData_serves
    (normalizeZoneName normalizeOrgDistrictName normalizeACName :
       jsstring -> jsstring)
    (env : DataLoader.environment) (st : MandalVoteShare.module_state)
    (csvText : jsstring) :
  MandalVoteShare.mandalVoteShareDataCache st = None ->
  DataLoader.dataCache (MandalVoteShare.dataLoadingManager st)
    !! MandalVoteShare.dataSource = None ->
  fetches_text env 1 csvText ->
  let parseResult := parseCSV csvText (loader_parse_options 2) in
  rows_plain normalizeZoneName normalizeOrgDistrictName normalizeACName
    (rows parseResult) = true ->
  let res :=
    MandalVoteShare.loadMandalVoteShareData normalizeZoneName
      normalizeOrgDistrictName normalizeACName env st in
  (forall ac orgDistrict zone,
     plain_key
       (normalizeZoneName zone, normalizeOrgDistrictName orgDistrict,
        normalizeACName ac) = true ->
     MandalVoteShare.getMandalVoteShareData normalizeZoneName
       normalizeOrgDistrictName normalizeACName (snd res) ac orgDistrict zone
     = Some
         (List.map MandalVoteShare.entry_of
            (rows_at normalizeZoneName normalizeOrgDistrictName
               normalizeACName (rows parseResult) (normalizeZoneName zone)
               (normalizeOrgDistrictName orgDistrict)
               (normalizeACName ac))))
  /\ DataLoader.isDataLoaded (MandalVoteShare.dataLoadingManager (snd res))
       MandalVoteShare.dataSource = true
  /\ fetches
       (DataLoader.trace (MandalVoteShare.dataLoadingManager (snd res))) =
     (fetches (DataLoader.trace (MandalVoteShare.dataLoadingManager st)) + 1)%nat.
Proof.
  intros Hnone Hmiss Htext parseResult Hplain res. subst res.
  unfold MandalVoteShare.loadMandalVoteShareData. rewrite Hnone.
  unfold DataLoader.loadCSVData.
  change (default MandalVoteShare.dataSource
            (DataLoader.opt_cacheKey MandalVoteShare.options))
    with MandalVoteShare.dataSource.
  rewrite Hmiss.
  change (default 3 (DataLoader.opt_retries MandalVoteShare.options))
    with 3.
  change (Z.to_nat 3) with 3%nat.
  cbn [DataLoader.attempt_loop].
  rewrite (try_block_parsed env
             (MandalVoteShare.rowParser normalizeZoneName
                normalizeOrgDistrictName normalizeACName)
             MandalVoteShare.dataSource MandalVoteShare.url
             MandalVoteShare.dataSource _ _ 1 [] [] _ csvText Htext).
  cbv zeta.
  change (default 0 (DataLoader.opt_skipHeaderLines MandalVoteShare.options))
    with 2.
  fold parseResult.
  destruct (rowParser_plain normalizeZoneName normalizeOrgDistrictName
              normalizeACName parseResult Hplain) as (data & Hparser & Hgroups).
  rewrite Hparser. cbv beta iota zeta. cbn [fst snd DataLoader.data].
  split.
  { intros ac orgDistrict zone Hkey.
    unfold MandalVoteShare.getMandalVoteShareData.
    cbn [MandalVoteShare.mandalVoteShareDataCache].
    apply Hgroups, Hkey. }
  split.
  { cbn [MandalVoteShare.dataLoadingManager].
    unfold DataLoader.isDataLoaded. rewrite getLoadingState_set.
    reflexivity. }
  cbn [MandalVoteShare.dataLoadingManager].
  rewrite fetches_set.
  cbn [DataLoader.trace DataLoader.cache_put DataLoader.emit].
  rewrite fetches_app, fetches_set. reflexivity.
Qed.

Lemma loadMandalVoteShareData_serves_witness :
  let res :=
    MandalVoteShare.loadMandalVoteShareData (fun s => s) (fun s => s)
      (fun s => s) (serving mandal_file) fresh_module in
  option_map (List.map MandalVoteShare.name)
    (MandalVoteShare.getMandalVoteShareData (fun s => s) (fun s => s)
       (fun s => s) (snd res) (str "Dharmadam") (str "Kannur") (str "North"))
  = Some [str "Pinarayi"; str "Vengad"].
Proof.
  pose proof (loadMandalVoteShareData_serves (fun s => s) (fun s => s)
                (fun s => s) (serving mandal_file) fresh_module mandal_file)
    as H.
  cbv zeta in H. destruct H as (H & _).
  - reflexivity.
  - reflexivity.
  - eexists. repeat split; reflexivity.
  - vm_compute. reflexivity.
  - cbv zeta.
    rewrite (H (str "Dharmadam") (str "Kannur") (str "North"))
      by reflexivity.
    vm_compute. reflexivity.
Defined.

(** X23. The Mandal data is loaded once. Whatever the first call returned
    is kept, so a later call returns the same data and does nothing, in
    any world; the lookups read that data. This holds also when the load
    has failed: after three failed attempts the data is the empty object,
    a later call returns the empty object again without a fetch, and a
    lookup returns no entry when the normalized zone is not the name of a
    member of [Object.prototype]. *)
Theorem loadMandalVoteShareData_once
    (normalizeZoneName normalizeOrgDistrictName normalizeACName :
       jsstring -> jsstring)
    (env env' : DataLoader.environment)
    (st : MandalVoteShare.module_state) :
  let first :=
    MandalVoteShare.loadMandalVoteShareData normalizeZoneName
      normalizeOrgDistrictName normalizeACName env st in
  MandalVoteShare.loadMandalVoteShareData normalizeZoneName
    normalizeOrgDistrictName normalizeACName env' (snd first) = first
  /\ (forall data ac orgDistrict zone,
        fst first = Some data ->
        MandalVoteShare.getMandalVoteShareData normalizeZoneName
          normalizeOrgDistrictName normalizeACName (snd first) ac
          orgDistrict zone
        = MandalVoteShare.entries_at data (normalizeZoneName zone)
            (normalizeOrgDistrictName orgDistrict) (normalizeACName ac))
  /\ (MandalVoteShare.mandalVoteShareDataCache st = None ->
      DataLoader.dataCache (MandalVoteShare.dataLoadingManager st)
        !! MandalVoteShare.dataSource = None ->
      (forall attempt, 1 <= attempt <= 3 ->
         is_Some (transport_failure env attempt)) ->
      fst first = Some ∅
      /\ forall ac orgDistrict zone,
           JSObject.inherited (normalizeZoneName zone) = false ->
           MandalVoteShare.getMandalVoteShareData normalizeZoneName
             normalizeOrgDistrictName normalizeACName (snd first) ac
             orgDistrict zone = Some []).
Proof.
  intros first.
  assert (Hkept : MandalVoteShare.mandalVoteShareDataCache (snd first) =
                  Some (fst first)).
  { subst first. unfold MandalVoteShare.loadMandalVoteShareData.
    destruct (MandalVoteShare.mandalVoteShareDataCache st) as [cached|]
      eqn:Hst.
    - exact Hst.
    - destruct (DataLoader.loadCSVData _ _ _ _ _ _ _) as [result m].
      reflexivity. }
  assert (Hget : forall data ac orgDistrict zone,
            fst first = Some data ->
            MandalVoteShare.getMandalVoteShareData normalizeZoneName
              normalizeOrgDistrictName normalizeACName (snd first) ac
              orgDistrict zone
            = MandalVoteShare.entries_at data
                (normalizeZoneName zone)
                (normalizeOrgDistrictName orgDistrict)
                (normalizeACName ac)).
  { intros data ac orgDistrict zone Hdata.
    unfold MandalVoteShare.getMandalVoteShareData. rewrite Hkept, Hdata.
    reflexivity. }
  split.
  { unfold MandalVoteShare.loadMandalVoteShareData at 1. rewrite Hkept.
    destruct first; reflexivity. }
  split; [exact Hget|].
  intros Hnone Hmiss Hfail.
  assert (Hdata : fst first = Some ∅).
  { subst first. unfold MandalVoteShare.loadMandalVoteShareData.
    rewrite Hnone. unfold DataLoader.loadCSVData.
    change (default MandalVoteShare.dataSource
              (DataLoader.opt_cacheKey MandalVoteShare.options))
      with MandalVoteShare.dataSource.
    rewrite Hmiss.
    change (default 3 (DataLoader.opt_retries MandalVoteShare.options))
      with 3.
    rewrite (attempt_loop_failures (Some ∅ : MandalVoteShare.loaded_data)
               env _ MandalVoteShare.dataSource MandalVoteShare.url
               MandalVoteShare.dataSource _ _ 3 (fun _ => None) 2
               (Z.to_nat 3) 1 [] [] _ ltac:(simpl; lia) ltac:(lia));
      [|intros j Hj; apply Hfail; lia].
    change (Z.to_nat 3 - 2)%nat with 1%nat.
    cbn [DataLoader.attempt_loop].
    match goal with
    | |- context [DataLoader.try_block ?e ?p ?ds ?u ?k ?sk ?t ?a ?loc ?m] =>
        destruct (try_block_transport_failure e p ds u k sk t a loc m
                    (Hfail 3 ltac:(lia))) as (failure & He)
    end.
    rewrite He. reflexivity. }
  split; [exact Hdata|].
  intros ac orgDistrict zone Hzone. rewrite (Hget ∅ _ _ _ Hdata).
  unfold MandalVoteShare.entries_at, JSObject.get.
  unfold MandalVoteShare.MandalVoteShareData.
  rewrite lookup_empty, Hzone. reflexivity.
Qed.

Lemma loadMandalVoteShareData_once_witness :
  let first :=
    MandalVoteShare.loadMandalVoteShareData (fun s => s) (fun s => s)
      (fun s => s) (offline (str "Network down")) fresh_module in
  fst first = Some ∅
  /\ fst (MandalVoteShare.loadMandalVoteShareData (fun s => s) (fun s => s)
            (fun s => s) (serving mandal_file) (snd first)) = Some ∅
  /\ MandalVoteShare.getMandalVoteShareData (fun s => s) (fun s => s)
       (fun s => s) (snd first) (str "Dharmadam") (str "Kannur")
       (str "North") = Some [].
Proof.
  pose proof (loadMandalVoteShareData_once (fun s => s) (fun s => s)
                (fun s => s) (offline (str "Network down"))
                (serving mandal_file) fresh_module) as H.
  cbv zeta in H. destruct H as (Hsame & _ & H).
  destruct H as (Hdata & Hget).
  - reflexivity.
  - reflexivity.
  - intros attempt _. eexists. reflexivity.
  - cbv zeta. split; [exact Hdata|].
    split; [rewrite Hsame; exact Hdata|].
    apply Hget. reflexivity.
Defined.

(** X24. [clearMandalVoteShareCache] makes the data unloaded again: every
    lookup returns no entry, the source is idle, and the next load issues
    a fetch, in any world. *)
Theorem clearMandalVoteShareCache_reloads
    (normalizeZoneName normalizeOrgDistrictName normalizeACName :
       jsstring -> jsstring)
    (env : DataLoader.environment) (st : MandalVoteShare.module_state) :
  let st1 := MandalVoteShare.clearMandalVoteShareCache st in
  let res :=
    MandalVoteShare.loadMandalVoteShareData normalizeZoneName
      normalizeOrgDistrictName normalizeACName env st1 in
  (forall ac orgDistrict zone,
     MandalVoteShare.getMandalVoteShareData normalizeZoneName
       normalizeOrgDistrictName normalizeACName st1 ac orgDistrict zone
     = Some [])
  /\ DataLoader.getLoadingState (MandalVoteShare.dataLoadingManager st1)
       MandalVoteShare.dataSource = DataLoader.idle_state
  /\ (fetches (DataLoader.trace (MandalVoteShare.dataLoadingManager st)) <
      fetches
        (DataLoader.trace (MandalVoteShare.dataLoadingManager (snd res))))%nat.
Proof.
  intros st1 res. split; [reflexivity|].
  split.
  { subst st1. unfold MandalVoteShare.clearMandalVoteShareCache.
    cbn [MandalVoteShare.dataLoadingManager]. unfold DataLoader.clearCache.
    apply getLoadingState_set. }
  subst res st1. unfold MandalVoteShare.loadMandalVoteShareData.
  cbn [MandalVoteShare.clearMandalVoteShareCache
       MandalVoteShare.mandalVoteShareDataCache
       MandalVoteShare.dataLoadingManager].
  pose proof (loadCSVData_miss_fetches
                (Some ∅ : MandalVoteShare.loaded_data) env
                MandalVoteShare.dataSource MandalVoteShare.url
                (MandalVoteShare.rowParser normalizeZoneName
                   normalizeOrgDistrictName normalizeACName)
                MandalVoteShare.options
                (DataLoader.clearCache MandalVoteShare.dataSource
                   (MandalVoteShare.dataLoadingManager st))) as Hlt.
  destruct (DataLoader.loadCSVData _ _ _ _ _ _ _) as [result m].
  cbn [snd MandalVoteShare.dataLoadingManager] in *.
  unfold DataLoader.clearCache in Hlt at 2. rewrite fetches_set in Hlt.
  apply Hlt.
  - unfold DataLoader.clearCache. cbn. apply lookup_delete_eq.
  - discriminate.
Qed.
